(** * Reminder scheduling engine of the study planner

    A shallow embedding of the notification hook [useNotifications]
    (src/project/src/hooks/useSchedules.ts, third module of the file), of the
    review handler [handleReview] (src/project/src/components/revision/
    RevisionSystem.tsx) and of the parts of [useRevisionItems] that call
    into the hook.

    The hook keeps two mutable references ([checkIntervalRef] and
    [notificationTimeoutsRef]) and talks to three host capabilities: the
    clock, the timer queue ([setTimeout], [setInterval] and their
    [clear...] counterparts) and the notification capability.  All of them
    are part of the explicit [state] threaded through every operation.

    Times are milliseconds since the epoch, as [Z].  A JavaScript number
    that may be [NaN] is an [option Z] with [None] for [NaN]; every time
    value a [Date] can hold is an integer below 2^53, so the subtractions
    and comparisons of the source are exact on [Z]. *)

From stdpp Require Import base gmap strings list fin_maps pretty.
From Stdlib Require Import ZArith Lia.

(** ** JavaScript values used by the hook *)

(** [NotificationPermission] of the DOM: 'default' | 'granted' | 'denied'
    ('default' is [default_perm] here, [default] being stdpp's function). *)
Inductive NotificationPermission := default_perm | granted | denied.

#[global] Instance NotificationPermission_eq_dec : EqDecision NotificationPermission.
Proof. solve_decision. Defined.

(** What [item.next_review] can hold at run time.  The TypeScript type says
    [string], the column is nullable and [handleReview] calls the hook with
    the argument missing, so [null] and [undefined] are both values the code
    receives. *)
Inductive jsval := JUndefined | JNull | JString (s : string).

#[global] Instance jsval_eq_dec : EqDecision jsval.
Proof. solve_decision. Defined.

(** A number that may be [NaN]. *)
Definition number := option Z.

(** [a - b] on numbers: [NaN] is absorbing. *)
Definition js_sub (a b : number) : number :=
  match a, b with
  | Some x, Some y => Some (x - y)%Z
  | _, _ => None
  end.

(** [a <= b] on numbers: every comparison with [NaN] is false. *)
Definition js_le (a b : number) : bool :=
  match a, b with
  | Some x, Some y => (x <=? y)%Z
  | _, _ => false
  end.

(** Truthiness of a [next_review] value, as tested by
    [item.next_review && ...]. *)
Definition truthy (v : jsval) : bool :=
  match v with
  | JString s => negb (bool_decide (s = EmptyString))
  | JUndefined | JNull => false
  end.

(** The double quote used inside the notification bodies. *)
Definition dquote : string := String (Ascii.ascii_of_nat 34) EmptyString.

(** ** Records of the data model *)

(** The fields of a revision item the hook reads ([item.id], [item.title],
    [item.next_review]) and the one [handleReview] reads
    ([item.review_count], [None] when missing). *)
Record RevisionItem := {
  item_id : string;
  item_title : string;
  next_review : jsval;
  review_count : option Z
}.

#[global] Instance RevisionItem_eq_dec : EqDecision RevisionItem.
Proof. solve_decision. Defined.

(** The click handler [scheduleRevisionReminder] passes on: it logs the id. *)
Inductive handler := LogClicked (itemId : string).

(** The [options] argument of [showNotification]. *)
Record NotificationOptions := {
  o_tag : string;
  o_requireInteraction : option bool;
  o_data : option string
}.

(** A notification surfaced by [new Notification(title, {...})]. *)
Record Notification := {
  n_title : string;
  n_body : string;
  n_tag : string;
  n_requireInteraction : bool;
  n_data : option string;
  n_onclick : option handler;
  n_closed : bool
}.

(** What a pending [setTimeout] will run. *)
Inductive timer_action :=
  | FireReminder (perm : NotificationPermission) (id title body : string)
                 (onClick : option handler)
      (* the callback built by [scheduleNotification]; [perm] is the
         [permission] its closure captured *)
  | AutoClose (idx : nat)
      (* [notification.close()] of the idx-th notification shown *)
  | CountToast
      (* the callback [enableNotifications] arms: it reads the count and
         issues a toast *).

Record timeout_entry := {
  t_due : Z;         (* clock reading at which the host may run it *)
  t_delay : Z;       (* the delay passed to [setTimeout] *)
  t_action : timer_action
}.

Record interval_entry := {
  i_next : Z;                       (* next tick *)
  i_period : Z;                     (* the period passed to [setInterval] *)
  i_perm : NotificationPermission;  (* [permission] captured by the callback *)
  i_items : list RevisionItem       (* [items] captured by the callback *)
}.

(** The two references of the hook and the host it runs on. *)
Record state := {
  clock : Z;                                   (* [Date.now()] *)
  hasNotification : bool;                      (* ['Notification' in window] *)
  next_handle : positive;                      (* next timer id of the host *)
  timeouts : gmap positive timeout_entry;      (* pending [setTimeout]s of this mount *)
  intervals : gmap positive interval_entry;    (* active [setInterval]s of this mount *)
  shown : list Notification;                   (* notifications this mount surfaced *)
  checkIntervalRef : option positive;
  notificationTimeoutsRef : gmap string positive
}.

Definition set_clock (c : Z) (st : state) : state :=
  {| clock := c; hasNotification := hasNotification st;
     next_handle := next_handle st; timeouts := timeouts st;
     intervals := intervals st; shown := shown st;
     checkIntervalRef := checkIntervalRef st;
     notificationTimeoutsRef := notificationTimeoutsRef st |}.

Definition set_next_handle (h : positive) (st : state) : state :=
  {| clock := clock st; hasNotification := hasNotification st;
     next_handle := h; timeouts := timeouts st;
     intervals := intervals st; shown := shown st;
     checkIntervalRef := checkIntervalRef st;
     notificationTimeoutsRef := notificationTimeoutsRef st |}.

Definition set_timeouts (t : gmap positive timeout_entry) (st : state) : state :=
  {| clock := clock st; hasNotification := hasNotification st;
     next_handle := next_handle st; timeouts := t;
     intervals := intervals st; shown := shown st;
     checkIntervalRef := checkIntervalRef st;
     notificationTimeoutsRef := notificationTimeoutsRef st |}.

Definition set_intervals (i : gmap positive interval_entry) (st : state) : state :=
  {| clock := clock st; hasNotification := hasNotification st;
     next_handle := next_handle st; timeouts := timeouts st;
     intervals := i; shown := shown st;
     checkIntervalRef := checkIntervalRef st;
     notificationTimeoutsRef := notificationTimeoutsRef st |}.

Definition set_shown (l : list Notification) (st : state) : state :=
  {| clock := clock st; hasNotification := hasNotification st;
     next_handle := next_handle st; timeouts := timeouts st;
     intervals := intervals st; shown := l;
     checkIntervalRef := checkIntervalRef st;
     notificationTimeoutsRef := notificationTimeoutsRef st |}.

Definition set_checkIntervalRef (r : option positive) (st : state) : state :=
  {| clock := clock st; hasNotification := hasNotification st;
     next_handle := next_handle st; timeouts := timeouts st;
     intervals := intervals st; shown := shown st;
     checkIntervalRef := r;
     notificationTimeoutsRef := notificationTimeoutsRef st |}.

Definition set_notificationTimeoutsRef (m : gmap string positive) (st : state) : state :=
  {| clock := clock st; hasNotification := hasNotification st;
     next_handle := next_handle st; timeouts := timeouts st;
     intervals := intervals st; shown := shown st;
     checkIntervalRef := checkIntervalRef st;
     notificationTimeoutsRef := m |}.

(** The state of a freshly mounted hook: both references empty, and no
    timer armed through it yet.  The hook has no clean-up for its reminder
    timers, so an earlier mount can have left timers on the host; their
    callbacks close over the references of that mount, and they are not
    part of this state. *)
Definition init_state (now : Z) (hasN : bool) : state :=
  {| clock := now; hasNotification := hasN; next_handle := 1%positive;
     timeouts := ∅; intervals := ∅; shown := [];
     checkIntervalRef := None; notificationTimeoutsRef := ∅ |}.

(** ** The host timer queue *)

(** The host takes the delay of a timer as a signed 32-bit integer: the
    number is reduced modulo 2^32 into the range from -2^31 to 2^31 - 1. *)
Definition to_int32 (n : Z) : Z :=
  ((n + 2147483648) mod 4294967296 - 2147483648)%Z.

(** The delay as the host's timer keeps it: a delay from 0 to 2^31 - 1 ms
    is kept as it is, and a negative value, also one that results from the
    reduction, counts as zero.  So a delay from 2^31 to 2^32 - 1 ms gives a
    callback the host may run at once. *)
Definition host_delay (delay : Z) : Z := Z.max 0 (to_int32 delay).

(** [setTimeout(cb, delay)]: a fresh, truthy handle; the callback is due
    after the delay as the host keeps it. *)
Definition setTimeout (a : timer_action) (delay : Z) (st : state) : positive * state :=
  let h := next_handle st in
  (h, set_next_handle (Pos.succ h)
        (set_timeouts (<[h := {| t_due := clock st + host_delay delay;
                                 t_delay := delay; t_action := a |}]> (timeouts st)) st)).

Definition clearTimeout (h : positive) (st : state) : state :=
  set_timeouts (delete h (timeouts st)) st.

(** [setInterval(cb, period)] for the sweep callback, which captures
    [permission] and [items]. *)
Definition setInterval (perm : NotificationPermission) (items : list RevisionItem)
    (period : Z) (st : state) : positive * state :=
  let h := next_handle st in
  (h, set_next_handle (Pos.succ h)
        (set_intervals (<[h := {| i_next := clock st + period; i_period := period;
                                  i_perm := perm; i_items := items |}]> (intervals st)) st)).

Definition clearInterval (h : positive) (st : state) : state :=
  set_intervals (delete h (intervals st)) st.

(** ** The hook [useNotifications]

    [permission] is React state: the functions a render returns close over
    that render's value, and so do the timer callbacks they create.  Every
    function therefore takes the permission it captured as its first
    argument, and a pending callback carries the one it was created with.
    The two references are shared by all renders and live in [state].
    [console.log] calls have no effect on anything the hook reads and are
    left out. *)

Section Hook.

(** The host's date parser: the time value [new Date(s).getTime()] of a
    non-empty string [s], [None] when the string is not a date.  The
    parser is the host's, not the repository's, so it is a parameter. *)
Variable parseDate : string → number.

(** [new Date(v).getTime()].  [undefined] and the empty string give an
    invalid date, [null] converts to the number 0, the epoch. *)
Definition getTime (v : jsval) : number :=
  match v with
  | JUndefined => None
  | JNull => Some 0%Z
  | JString s => if bool_decide (s = EmptyString) then None else parseDate s
  end.

(** [showNotification(title, body, options)]: surfaces the notification and
    arms its own 10 second auto-close; returns the index of the
    notification, [None] for [undefined]. *)
Definition showNotification (permission : NotificationPermission)
    (title body : string) (options : NotificationOptions) (st : state)
    : option nat * state :=
  if bool_decide (permission = granted) && hasNotification st then
    let notification :=
      {| n_title := title; n_body := body; n_tag := o_tag options;
         n_requireInteraction := default true (o_requireInteraction options);
         n_data := o_data options; n_onclick := None; n_closed := false |} in
    let idx := length (shown st) in
    let st1 := set_shown (shown st ++ [notification]) st in
    (Some idx, (setTimeout (AutoClose idx) 10000 st1).2)
  else (None, st).

(** [scheduleNotification(id, title, body, delay, onClick)]. *)
Definition scheduleNotification (permission : NotificationPermission)
    (id title body : string) (delay : Z) (onClick : option handler)
    (st : state) : state :=
  if bool_decide (permission ≠ granted) then st else
  let existingTimeout := notificationTimeoutsRef st !! id in
  let st1 := match existingTimeout with
             | Some h => clearTimeout h st
             | None => st
             end in
  let '(timeout, st2) :=
    setTimeout (FireReminder permission id title body onClick) delay st1 in
  set_notificationTimeoutsRef (<[id := timeout]> (notificationTimeoutsRef st2)) st2.

(** [cancelNotification(id)]. *)
Definition cancelNotification (id : string) (st : state) : state :=
  match notificationTimeoutsRef st !! id with
  | Some timeout =>
      let st1 := clearTimeout timeout st in
      set_notificationTimeoutsRef (delete id (notificationTimeoutsRef st1)) st1
  | None => st
  end.

Definition reminder_title : string := "🔔 JEE Revision Reminder".
Definition overdue_title : string := "🔔 JEE Revision Overdue".

Definition horizon : Z := 7 * 24 * 60 * 60 * 1000.

(** [scheduleRevisionReminder(itemId, itemTitle, nextReviewTime)].  In the
    second branch [delay] is a number, a comparison with [NaN] being
    false, and that number is what is passed on. *)
Definition scheduleRevisionReminder (permission : NotificationPermission)
    (itemId itemTitle : string) (nextReviewTime : jsval) (st : state) : state :=
  let nextReview := getTime nextReviewTime in
  let now := Some (clock st) in
  let delay := js_sub nextReview now in
  if js_le delay (Some 0%Z) then
    (showNotification permission reminder_title
       ("⚠️ OVERDUE: Time to review " +:+ dquote +:+ itemTitle +:+ dquote)
       {| o_tag := itemId; o_requireInteraction := Some true; o_data := None |}
       st).2
  else if js_le delay (Some horizon) then
    scheduleNotification permission itemId reminder_title
      ("📚 Time to review: " +:+ dquote +:+ itemTitle +:+ dquote)
      (default 0%Z delay) (Some (LogClicked itemId)) st
  else st.

(** The predicate of the [filter] in [checkOverdueItems]:
    [item.next_review && new Date(item.next_review) <= now]. *)
Definition isOverdue (now : Z) (item : RevisionItem) : bool :=
  truthy (next_review item) && js_le (getTime (next_review item)) (Some now).

(** The body of the [forEach] in [checkOverdueItems]. *)
Definition notifyOverdue (permission : NotificationPermission)
    (st : state) (item : RevisionItem) : state :=
  (showNotification permission overdue_title
     ("⚠️ OVERDUE: " +:+ dquote +:+ item_title item +:+ dquote +:+ " needs review!")
     {| o_tag := item_id item; o_requireInteraction := Some true; o_data := None |}
     st).2.

(** [checkOverdueItems(items)]: the overdue items and the state after the
    notifications. *)
Definition checkOverdueItems (permission : NotificationPermission)
    (items : list RevisionItem) (st : state) : list RevisionItem * state :=
  let now := clock st in
  let overdueItems := List.filter (isOverdue now) items in
  (overdueItems, foldl (notifyOverdue permission) st overdueItems).

Definition sweep_period : Z := 5 * 60 * 1000.

(** The clean-up function [startPeriodicCheck] returns. *)
Definition stopChecking (st : state) : state :=
  match checkIntervalRef st with
  | Some h => set_checkIntervalRef None (clearInterval h st)
  | None => st
  end.

(** [startPeriodicCheck(items)]; its result, the clean-up function, is
    [stopChecking]. *)
Definition startPeriodicCheck (permission : NotificationPermission)
    (items : list RevisionItem) (st : state) : state :=
  let st1 := match checkIntervalRef st with
             | Some h => clearInterval h st
             | None => st
             end in
  let st2 := (checkOverdueItems permission items st1).2 in
  let '(h, st3) := setInterval permission items sweep_period st2 in
  set_checkIntervalRef (Some h) st3.

(** [stopAllNotifications()]. *)
Definition stopAllNotifications (st : state) : state :=
  let st1 := match checkIntervalRef st with
             | Some h => set_checkIntervalRef None (clearInterval h st)
             | None => st
             end in
  let st2 := map_fold (λ _ timeout s, clearTimeout timeout s) st1
               (notificationTimeoutsRef st1) in
  set_notificationTimeoutsRef ∅ st2.

(** [getScheduledCount()]. *)
Definition getScheduledCount (st : state) : nat :=
  size (notificationTimeoutsRef st).

(** ** The host event loop *)

(** [notification.onclick = onClick] on the idx-th notification. *)
Definition set_onclick (idx : nat) (f : handler) (st : state) : state :=
  set_shown (alter (λ n, {| n_title := n_title n; n_body := n_body n;
                            n_tag := n_tag n;
                            n_requireInteraction := n_requireInteraction n;
                            n_data := n_data n; n_onclick := Some f;
                            n_closed := n_closed n |}) idx (shown st)) st.

(** [notification.close()] on the idx-th notification. *)
Definition close_notification (idx : nat) (st : state) : state :=
  set_shown (alter (λ n, {| n_title := n_title n; n_body := n_body n;
                            n_tag := n_tag n;
                            n_requireInteraction := n_requireInteraction n;
                            n_data := n_data n; n_onclick := n_onclick n;
                            n_closed := true |}) idx (shown st)) st.

(** The host re-arms a repeating timer for its next period before it runs
    the callback. *)
Definition rearm (h : positive) (i : interval_entry) (st : state) : state :=
  set_intervals (<[h := {| i_next := i_next i + i_period i;
                           i_period := i_period i; i_perm := i_perm i;
                           i_items := i_items i |}]> (intervals st)) st.

(** The body of a timer callback. *)
Definition run_action (a : timer_action) (st : state) : state :=
  match a with
  | FireReminder permission id title body onClick =>
      let '(notification, st1) :=
        showNotification permission title body
          {| o_tag := id; o_requireInteraction := None; o_data := Some id |} st in
      let st2 := match notification, onClick with
                 | Some idx, Some f => set_onclick idx f st1
                 | _, _ => st1
                 end in
      set_notificationTimeoutsRef (delete id (notificationTimeoutsRef st2)) st2
  | AutoClose idx => close_notification idx st
  | CountToast => st
  end.

(** Everything that can happen to a mounted hook: a call of one of the
    functions it returns (with the [permission] of the render the function
    belongs to), a turn of the host's event loop, or the one timer the
    owner of the hook arms itself, the toast timer of
    [enableNotifications]. *)
Inductive event :=
  | CallShow (permission : NotificationPermission) (title body : string)
             (options : NotificationOptions)
  | CallSchedule (permission : NotificationPermission) (id title body : string)
                 (delay : Z) (onClick : option handler)
  | CallCancel (id : string)
  | CallRemind (permission : NotificationPermission) (itemId itemTitle : string)
               (nextReviewTime : jsval)
  | CallCheck (permission : NotificationPermission) (items : list RevisionItem)
  | CallStart (permission : NotificationPermission) (items : list RevisionItem)
  | CallStopChecking
  | CallStopAll
  | Advance (dt : Z)               (* time passes *)
  | TimeoutFires (h : positive)    (* the host runs a due [setTimeout] callback *)
  | IntervalTicks (h : positive)   (* the host runs a due [setInterval] callback *)
  | ToastTimerArmed                (* [enableNotifications] arms its toast timer *).

(** One event; [None] when the host cannot produce it in this state. *)
Definition run (e : event) (st : state) : option state :=
  match e with
  | CallShow p title body options => Some (showNotification p title body options st).2
  | CallSchedule p id title body delay onClick =>
      Some (scheduleNotification p id title body delay onClick st)
  | CallCancel id => Some (cancelNotification id st)
  | CallRemind p itemId itemTitle v => Some (scheduleRevisionReminder p itemId itemTitle v st)
  | CallCheck p items => Some (checkOverdueItems p items st).2
  | CallStart p items => Some (startPeriodicCheck p items st)
  | CallStopChecking => Some (stopChecking st)
  | CallStopAll => Some (stopAllNotifications st)
  | Advance dt =>
      if (0 <=? dt)%Z then Some (set_clock (clock st + dt) st) else None
  | TimeoutFires h =>
      match timeouts st !! h with
      | Some t =>
          if (t_due t <=? clock st)%Z
          then Some (run_action (t_action t) (clearTimeout h st))
          else None
      | None => None
      end
  | IntervalTicks h =>
      match intervals st !! h with
      | Some i =>
          if (i_next i <=? clock st)%Z
          then Some (checkOverdueItems (i_perm i) (i_items i) (rearm h i st)).2
          else None
      | None => None
      end
  | ToastTimerArmed => Some (setTimeout CountToast 1000 st).2
  end.

(** A sequence of events, left to right. *)
Fixpoint run_trace (tr : list event) (st : state) : option state :=
  match tr with
  | [] => Some st
  | e :: tr' =>
      match run e st with
      | Some st' => run_trace tr' st'
      | None => None
      end
  end.

(** The states a hook mounted at time [t0] can be in. *)
Inductive reachable : state → Prop :=
  | reach_init (t0 : Z) (hasN : bool) : reachable (init_state t0 hasN)
  | reach_step (e : event) (st st' : state) :
      reachable st → run e st = Some st' → reachable st'.

End Hook.

(** ** Review completion: [handleReview] and [markAsReviewed] *)

(** The table of [handleReview]: 1h, 1d, 3d, 1w, 2w in milliseconds. *)
Definition intervals_table : list Z :=
  [3600000; 86400000; 259200000; 604800000; 1209600000]%Z.

(** [item.review_count || 0]: a missing count and 0 both give 0. *)
Definition count_or_zero (review_count : option Z) : Z :=
  match review_count with
  | Some n => if (n =? 0)%Z then 0%Z else n
  | None => 0%Z
  end.

(** [intervals[Math.min(item.review_count || 0, intervals.length - 1)]];
    [None] is [undefined], what indexing gives outside the array. *)
Definition nextInterval (review_count : option Z) : option Z :=
  let k := Z.min (count_or_zero review_count)
                 (Z.of_nat (length intervals_table) - 1) in
  if (0 <=? k)%Z then intervals_table !! Z.to_nat k else None.

(** How a template literal prints the value [handleReview] passes as a
    title. *)
Definition show_interval (v : option Z) : string :=
  match v with
  | Some n => pretty n
  | None => "undefined"
  end.

Section Review.

Variable parseDate : string → number.

(** [new Date(t).toISOString()], the host's date printer. *)
Variable toISOString : Z → string.

(** The stored procedure [increment_review_count(item_id, next_review_date)]
    lives in the database, not in the repository: it is a parameter, giving
    the updated row or [None] on error. *)
Variable increment_review_count : string → string → option RevisionItem.

Definition day_ms : Z := 24 * 60 * 60 * 1000.

(** [markAsReviewed(id)] of [useRevisionItems], on the state of the
    notification hook that [useRevisionItems] mounts; [None] is the
    rethrown error.  The remote call is taken to resolve at the clock
    reading of the call. *)
Definition markAsReviewed (permission : NotificationPermission) (id : string)
    (st : state) : option RevisionItem * state :=
  let nextReview := toISOString (clock st + day_ms) in
  match increment_review_count id nextReview with
  | Some data =>
      (Some data,
       if bool_decide (permission = granted)
       then scheduleRevisionReminder parseDate permission
              (item_id data) (item_title data) (next_review data) st
       else st)
  | None => (None, st)
  end.

(** [handleReview(item)] of [RevisionSystem].  The component mounts
    [useRevisionItems] (whose own notification hook has state [stItems])
    and, separately, [useNotifications] (state [stOwn]); the call at the end
    goes to the second one, with two arguments.  The row [markAsReviewed]
    returns has no [error] field, so the early return is not taken; a
    rethrown error ends in the [catch]. *)
Definition handleReview (permItems permOwn : NotificationPermission)
    (item : RevisionItem) (stItems stOwn : state) : state * state :=
  match markAsReviewed permItems (item_id item) stItems with
  | (Some _, stItems') =>
      let nextInterval := nextInterval (review_count item) in
      (stItems',
       if bool_decide (permOwn = granted)
       then scheduleRevisionReminder parseDate permOwn
              (item_title item) (show_interval nextInterval) JUndefined stOwn
       else stOwn)
  | (None, stItems') => (stItems', stOwn)
  end.

End Review.

(** ** The specification's vocabulary *)

(** The interval table of the specification: {1h, 1d, 3d, 1w, 2w}. *)
Definition hour : Z := 60 * 60 * 1000.
Definition day : Z := 24 * hour.
Definition week : Z := 7 * day.
Definition table : list Z := [hour; day; 3 * day; week; 2 * week]%Z.

(** [nextDelay(reviewCount) = table[min(reviewCount, len(table) - 1)]], as
    the specification words it. *)
Definition nextDelay (reviewCount : nat) : option Z :=
  table !! (reviewCount `min` (length table - 1)).

(** The three outcomes of the reminder policy. *)
Inductive decision := Immediate | Deferred (delay : Z) | Suppressed.

(** [classify(now, nextReviewInstant)] of the specification, for an instant
    that is present. *)
Definition classify (now nextReviewInstant : Z) : decision :=
  if (nextReviewInstant <=? now)%Z then Immediate
  else if (nextReviewInstant - now <=? week)%Z
       then Deferred (nextReviewInstant - now)
       else Suppressed.

(** The item a timer belongs to, if it is a reminder. *)
Definition action_id (a : timer_action) : option string :=
  match a with
  | FireReminder _ id _ _ _ => Some id
  | AutoClose _ => None
  | CountToast => None
  end.

(** [pending st id h d]: [h] is a pending reminder timer of item [id] with
    delay [d]. *)
Definition pending (st : state) (id : string) (h : positive) (d : Z) : Prop :=
  ∃ t, timeouts st !! h = Some t ∧ action_id (t_action t) = Some id ∧ t_delay t = d.

(** What [showNotification] surfaces. *)
Definition notification_of (title body : string) (options : NotificationOptions)
    : Notification :=
  {| n_title := title; n_body := body; n_tag := o_tag options;
     n_requireInteraction := default true (o_requireInteraction options);
     n_data := o_data options; n_onclick := None; n_closed := false |}.

(** The notification [scheduleRevisionReminder] surfaces for an item that
    is already due. *)
Definition overdue_reminder (itemId itemTitle : string) : Notification :=
  {| n_title := reminder_title;
     n_body := "⚠️ OVERDUE: Time to review " +:+ dquote +:+ itemTitle +:+ dquote;
     n_tag := itemId; n_requireInteraction := true; n_data := None;
     n_onclick := None; n_closed := false |}.

(** The notification [checkOverdueItems] surfaces for an overdue item. *)
Definition overdue_alert (item : RevisionItem) : Notification :=
  {| n_title := overdue_title;
     n_body := "⚠️ OVERDUE: " +:+ dquote +:+ item_title item +:+ dquote
               +:+ " needs review!";
     n_tag := item_id item; n_requireInteraction := true; n_data := None;
     n_onclick := None; n_closed := false |}.

(** The instant an item is due at, when it has one: a non-empty
    [next_review] string the host parses. *)
Definition nextReviewInstant (parseDate : string → number) (item : RevisionItem)
    : option Z :=
  match next_review item with
  | JString s => if bool_decide (s = EmptyString) then None else parseDate s
  | JUndefined | JNull => None
  end.

(** The timer queue after [scheduleNotification] dropped the old timer of
    [id]. *)
Definition without_existing (id : string) (st : state) : gmap positive timeout_entry :=
  match notificationTimeoutsRef st !! id with
  | Some h => delete h (timeouts st)
  | None => timeouts st
  end.

(** ** Coherence of the references with the host's timer queue *)

Record coherent (st : state) : Prop := {
  coh_registered : ∀ id h, notificationTimeoutsRef st !! id = Some h →
      ∃ t, timeouts st !! h = Some t ∧ action_id (t_action t) = Some id;
  coh_pending : ∀ h t id, timeouts st !! h = Some t →
      action_id (t_action t) = Some id → notificationTimeoutsRef st !! id = Some h;
  coh_fresh_timeouts : ∀ h, is_Some (timeouts st !! h) → (h < next_handle st)%positive;
  coh_fresh_intervals : ∀ h, is_Some (intervals st !! h) → (h < next_handle st)%positive;
  coh_sweeper : ∀ h, is_Some (intervals st !! h) ↔ checkIntervalRef st = Some h
}.

(** [grows st st']: from [st] to [st'] the host handed out handles in
    increasing order only, and no handle that was free in [st] and below
    its counter is in use in [st']. *)
Record grows (st st' : state) : Prop := {
  gr_counter : (next_handle st ≤ next_handle st')%positive;
  gr_timeouts : ∀ h, is_Some (timeouts st' !! h) →
      is_Some (timeouts st !! h) ∨ (next_handle st ≤ h)%positive;
  gr_intervals : ∀ h, is_Some (intervals st' !! h) →
      is_Some (intervals st !! h) ∨ (next_handle st ≤ h)%positive
}.

(** [emits st st' ns]: [st'] is [st] after surfacing the notifications
    [ns], each with its auto-close timer; nothing else changed. *)
Record emits (st st' : state) (ns : list Notification) : Prop := {
  em_clock : clock st' = clock st;
  em_hasNotification : hasNotification st' = hasNotification st;
  em_intervals : intervals st' = intervals st;
  em_ref : checkIntervalRef st' = checkIntervalRef st;
  em_registry : notificationTimeoutsRef st' = notificationTimeoutsRef st;
  em_shown : shown st' = shown st ++ ns;
  em_counter : (next_handle st ≤ next_handle st')%positive;
  em_old : ∀ h, (h < next_handle st)%positive → timeouts st' !! h = timeouts st !! h;
  em_new : ∀ h t, timeouts st' !! h = Some t →
      timeouts st !! h = Some t ∨
      ((next_handle st ≤ h)%positive ∧ (h < next_handle st')%positive ∧
       action_id (t_action t) = None)
}.

(** [is_start e]: the event is a call of [startPeriodicCheck]. *)
Definition is_start (e : event) : bool :=
  match e with
  | CallStart _ _ => true
  | _ => false
  end.

(** An item is due by [now] when it has an instant and the instant is not
    after [now]. *)
Definition is_due (parseDate : string → number) (now : Z) (item : RevisionItem) : bool :=
  match nextReviewInstant parseDate item with
  | Some t => (t <=? now)%Z
  | None => false
  end.

(** The notifications one evaluation of the item set surfaces: an alert per
    overdue item when the emitter is usable, none otherwise. *)
Definition surfaced (parseDate : string → number) (permission : NotificationPermission)
    (hasN : bool) (now : Z) (items : list RevisionItem) : list Notification :=
  if bool_decide (permission = granted) && hasN
  then overdue_alert <$> List.filter (isOverdue parseDate now) items
  else [].

(** ** A sample host

    A small calendar standing for the host's date parser and printer on the
    dates the examples use, around Friday 5 September 2025, 09:00 UTC. *)
Definition sample_now : Z := 1757062800000.

Definition sample_calendar : list (string * Z) :=
  [ ("2025-09-05T08:50:00.000Z", 1757062200000%Z);
    ("2025-09-05T09:00:00.000Z", 1757062800000%Z);
    ("2025-09-05T10:00:00.000Z", 1757066400000%Z);
    ("2025-09-05T11:00:00.000Z", 1757070000000%Z);
    ("2025-09-06T09:00:00.000Z", 1757149200000%Z);
    ("2025-09-20T09:00:00.000Z", 1758358800000%Z) ].

Definition sample_parseDate (s : string) : number :=
  snd <$> List.find (λ e, String.eqb (fst e) s) sample_calendar.

Definition sample_toISOString (t : Z) : string :=
  default EmptyString (fst <$> List.find (λ e, (snd e =? t)%Z) sample_calendar).

Definition sample_item (id title : string) (next : jsval) (count : Z) : RevisionItem :=
  {| item_id := id; item_title := title; next_review := next;
     review_count := Some count |}.

(** The stored procedure as the sample database runs it: the row of item
    ["a"] with its count bumped and the date it was given. *)
Definition sample_increment_review_count (id date : string) : option RevisionItem :=
  if bool_decide (id = "a") then Some (sample_item "a" "Optics" (JString date) 1)
  else None.

(** A hook just mounted, and one with work in flight: a reminder for item
    ["a"] due in an hour, and a sweeper started over the overdue item
    ["b"]. *)
Definition sample_mounted : state := init_state sample_now true.

Definition sample_overdue_item : RevisionItem :=
  sample_item "b" "Buffers" (JString "2025-09-05T08:50:00.000Z") 2.

Definition sample_busy : state :=
  startPeriodicCheck sample_parseDate granted [sample_overdue_item]
    (scheduleRevisionReminder sample_parseDate granted "a" "Optics"
       (JString "2025-09-05T10:00:00.000Z") sample_mounted).

(** ** The permission gate of [useNotifications] *)

(** The mount effect: [if ('Notification' in window)
    setPermission(Notification.permission)]. *)
Definition mountPermission (hasN : bool)
    (hostPermission permission : NotificationPermission) : NotificationPermission :=
  if hasN then hostPermission else permission.

(** [requestPermission()]: what the call resolves to and the permission
    state afterwards; [answer] is what the host's
    [Notification.requestPermission()] resolves to. *)
Definition requestPermission (hasN : bool)
    (answer permission : NotificationPermission)
    : NotificationPermission * NotificationPermission :=
  if hasN then (answer, answer) else (denied, permission).

(** The values the [permission] state of a mounted hook can take. *)
Inductive hook_permission (hasN : bool) : NotificationPermission → Prop :=
  | perm_initial : hook_permission hasN default_perm
  | perm_mount (hostPermission p : NotificationPermission) :
      hook_permission hasN p →
      hook_permission hasN (mountPermission hasN hostPermission p)
  | perm_request (answer p : NotificationPermission) :
      hook_permission hasN p →
      hook_permission hasN (requestPermission hasN answer p).2.

(** The pending reminder timers this mount of the hook has armed, each
    with the item it belongs to. *)
Definition reminder_timers (st : state) : gmap positive string :=
  omap (λ t, action_id (t_action t)) (timeouts st).

(** [notification.close()] as a function on the notification. *)
Definition closed (n : Notification) : Notification :=
  {| n_title := n_title n; n_body := n_body n; n_tag := n_tag n;
     n_requireInteraction := n_requireInteraction n; n_data := n_data n;
     n_onclick := n_onclick n; n_closed := true |}.

(** The notification a reminder timer surfaces when it fires. *)
Definition fired_reminder (id title body : string) (onClick : option handler)
    : Notification :=
  {| n_title := title; n_body := body; n_tag := id;
     n_requireInteraction := true; n_data := Some id;
     n_onclick := onClick; n_closed := false |}.

(** Every reminder callback in the queue captured the permission
    'granted'. *)
Definition callbacks_granted (st : state) : Prop :=
  ∀ h t, timeouts st !! h = Some t →
    action_id (t_action t) = None
    ∨ ∃ id title body onClick, t_action t = FireReminder granted id title body onClick.

(** From [st] to [st'] the queue gained only auto-close timers and
    reminder callbacks that captured 'granted'. *)
Definition new_timers_granted (st st' : state) : Prop :=
  ∀ h t, timeouts st' !! h = Some t →
    timeouts st !! h = Some t
    ∨ action_id (t_action t) = None
    ∨ ∃ id title body onClick, t_action t = FireReminder granted id title body onClick.

(** ** The hook [useRevisionItems]

    The list of items is React state changed through functional updates;
    the functions below take the list and the state of the notification
    hook that [useRevisionItems] mounts, and return the new ones.  Toasts
    are outside the state.  A rethrown database error is [None]. *)

Section RevisionItems.

Variable parseDate : string → number.
Variable toISOString : Z → string.

(** The database: the insert of a new row (title, [next_review],
    [review_count]), the update of a row, both giving the stored row or
    [None] on error.  The fields of an update other than [next_review] are
    not read by the hook, so updates are an abstract type. *)
Variable insert_revision_item : string → string → Z → option RevisionItem.
Variable Updates : Type.
Variable updates_next_review : Updates → jsval.
Variable update_revision_item : string → Updates → option RevisionItem.

(** The body of the [forEach] in [scheduleAllNotifications]. *)
Definition scheduleOne (permission : NotificationPermission) (st : state)
    (item : RevisionItem) : state :=
  if truthy (next_review item)
  then scheduleRevisionReminder parseDate permission
         (item_id item) (item_title item) (next_review item) st
  else st.

(** [scheduleAllNotifications()] on the items of the render. *)
Definition scheduleAllNotifications (permission : NotificationPermission)
    (items : list RevisionItem) (st : state) : state :=
  foldl (scheduleOne permission) st items.

(** The effect on [[items, permission]]: start the sweep, then schedule
    every item.  Its clean-up, when the body ran, is [stopChecking]. *)
Definition itemsEffect (permission : NotificationPermission)
    (items : list RevisionItem) (st : state) : state :=
  if (0 <? length items)%nat && bool_decide (permission = granted)
  then scheduleAllNotifications permission items
         (startPeriodicCheck parseDate permission items st)
  else st.

(** A change of the item list: the clean-up of the previous run of the
    effect, which exists when the body ran ([ran]), then the effect for the
    new list. *)
Definition itemsChanged (ran : bool) (permission : NotificationPermission)
    (items' : list RevisionItem) (st : state) : state :=
  itemsEffect permission items' (if ran then stopChecking st else st).

(** [createItem(item)]: the stored row, the new list, the new notification
    state.  [now] is the reading of [Date.now()] before the insert is
    awaited; [items] and [st] are the list and the notification state when
    the insert has resolved, where [scheduleRevisionReminder] reads the
    clock again. *)
Definition createItem (permission : NotificationPermission) (title : string)
    (now : Z) (items : list RevisionItem) (st : state)
    : option (RevisionItem * list RevisionItem * state) :=
  let nextReview := toISOString (now + 24 * 60 * 60 * 1000) in
  match insert_revision_item title nextReview 0 with
  | Some data =>
      Some (data, data :: items,
            if bool_decide (permission = granted)
            then scheduleRevisionReminder parseDate permission
                   (item_id data) (item_title data) (next_review data) st
            else st)
  | None => None
  end.

(** [updateItem(id, updates)]; [items] and [st] are the list and the
    notification state when the update has resolved. *)
Definition updateItem (permission : NotificationPermission) (id : string)
    (updates : Updates) (items : list RevisionItem) (st : state)
    : option (RevisionItem * list RevisionItem * state) :=
  match update_revision_item id updates with
  | Some data =>
      Some (data,
            (λ item, if String.eqb (item_id item) id then data else item) <$> items,
            if truthy (updates_next_review updates) && bool_decide (permission = granted)
            then scheduleRevisionReminder parseDate permission
                   (item_id data) (item_title data) (next_review data) st
            else st)
  | None => None
  end.

(** [deleteItem(id)]: the new list; the notification hook is not called. *)
Definition deleteItem (db_ok : bool) (id : string) (items : list RevisionItem)
    : option (list RevisionItem) :=
  if db_ok
  then Some (List.filter (λ item, negb (String.eqb (item_id item) id)) items)
  else None.

(** [enableNotifications()]: the permission state afterwards and the new
    notification state.  [scheduleAllNotifications] is the one of the
    render the button belongs to, with that render's [permission]; the
    one second timer for the count toast is armed after it. *)
Definition enableNotifications (hasN : bool) (answer : NotificationPermission)
    (permission : NotificationPermission) (items : list RevisionItem) (st : state)
    : NotificationPermission * state :=
  let '(result, permission') := requestPermission hasN answer permission in
  if bool_decide (result = granted)
  then (permission',
        (setTimeout CountToast 1000
           (scheduleAllNotifications permission items st)).2)
  else (permission', st).

(** [getOverdueCount()] at clock reading [now]. *)
Definition getOverdueCount (now : Z) (items : list RevisionItem) : nat :=
  length (List.filter
            (λ item, truthy (next_review item)
                     && js_le (getTime parseDate (next_review item)) (Some now))
            items).

(** [itemsDueForReview] of [RevisionSystem]: an item with no [next_review]
    counts as due. *)
Definition itemsDueForReview (now : Z) (items : list RevisionItem) : nat :=
  length (List.filter
            (λ item, if negb (truthy (next_review item)) then true
                     else js_le (getTime parseDate (next_review item)) (Some now))
            items).

(** [handleSubmit] of [RevisionSystem]: [createItem] on the hook of
    [useRevisionItems], then the component's own call of
    [scheduleRevisionReminder] with the title and the delay in
    milliseconds as its two arguments. *)
Definition handleSubmit (permItems permOwn : NotificationPermission)
    (title : string) (customInitialReminderDelay : Z) (now : Z)
    (items : list RevisionItem) (stItems stOwn : state)
    : option (list RevisionItem * state * state) :=
  match createItem permItems title now items stItems with
  | Some (_, items', stItems') =>
      Some (items', stItems',
            if bool_decide (permOwn = granted)
            then scheduleRevisionReminder parseDate permOwn title
                   (pretty (customInitialReminderDelay * 60 * 1000)%Z)
                   JUndefined stOwn
            else stOwn)
  | None => None
  end.

End RevisionItems.

(** ** The hook [useSchedules] and the planner *)

(** The fields of a schedule row the code reads. *)
Record Schedule := {
  s_id : string;
  s_date : string;
  s_start_time : string;
  s_topic : string;
  s_completed : bool
}.

(** [setSchedules(prev => [...prev, data])] of [createSchedule]. *)
Definition createSchedule (data : Schedule) (prev : list Schedule) : list Schedule :=
  prev ++ [data].

(** [setSchedules(prev => prev.map(item => item.id === id ? data : item))]
    of [updateSchedule] and [markAsCompleted]. *)
Definition updateSchedule (id : string) (data : Schedule) (prev : list Schedule)
    : list Schedule :=
  (λ item, if String.eqb (s_id item) id then data else item) <$> prev.

(** [setSchedules(prev => prev.filter(item => item.id !== id))] of
    [deleteSchedule]. *)
Definition deleteSchedule (id : string) (prev : list Schedule) : list Schedule :=
  List.filter (λ item, negb (String.eqb (s_id item) id)) prev.

(** [getTodaySchedules()] of the planner, [today] being the formatted
    date. *)
Definition getTodaySchedules (today : string) (schedules : list Schedule)
    : list Schedule :=
  List.filter (λ s, String.eqb (s_date s) today && negb (s_completed s)) schedules.

(** The countdown of the planner. *)
Record pomodoro := {
  active : bool;
  minutes : Z;
  seconds : Z
}.

(** The update the one second interval applies; the flag tells whether the
    completion toast is issued. *)
Definition pomodoro_tick (prev : pomodoro) : pomodoro * bool :=
  if (0 <? seconds prev)%Z then
    ({| active := active prev; minutes := minutes prev;
        seconds := seconds prev - 1 |}, false)
  else if (0 <? minutes prev)%Z then
    ({| active := active prev; minutes := minutes prev - 1; seconds := 59 |}, false)
  else
    ({| active := false; minutes := 25; seconds := 0 |}, true).

(** One second: the effect keeps the interval only while the countdown is
    active. *)
Definition pomodoro_second (t : pomodoro) : pomodoro * bool :=
  if active t then pomodoro_tick t else (t, false).

(** The play and pause button. *)
Definition pomodoro_toggle (prev : pomodoro) : pomodoro :=
  {| active := negb (active prev); minutes := minutes prev;
     seconds := seconds prev |}.

(** [n] seconds in a row, with the number of toasts issued. *)
Fixpoint pomodoro_run (n : nat) (t : pomodoro) : pomodoro * nat :=
  match n with
  | O => (t, O)
  | S n' =>
      let '(t', done) := pomodoro_second t in
      let '(t'', toasts) := pomodoro_run n' t' in
      (t'', (if done then 1 else 0) + toasts)%nat
  end.

(** The seconds a countdown still shows. *)
Definition remaining (t : pomodoro) : Z := 60 * minutes t + seconds t.

Definition well_formed (t : pomodoro) : Prop :=
  (0 ≤ minutes t)%Z ∧ (0 ≤ seconds t ≤ 59)%Z.

(** The effect on [[items, permission]] in the earlier copy of
    [useRevisionItems] kept under public/ (sw.js): start the sweep, then
    check for overdue items once more. *)
Definition legacyItemsEffect (parseDate : string → number)
    (permission : NotificationPermission) (items : list RevisionItem) (st : state)
    : state :=
  if (0 <? length items)%nat && bool_decide (permission = granted)
  then (checkOverdueItems parseDate permission items
          (startPeriodicCheck parseDate permission items st)).2
  else st.

(** ** More of the sample host *)

(** The sample database: an insert stores the row under the id ["new"],
    an update of the next-review date stores it under the id it was given. *)
Definition sample_insert_revision_item (title date : string) (count : Z)
    : option RevisionItem :=
  Some (sample_item "new" title (JString date) count).

Definition sample_update_revision_item (id : string) (date : jsval)
    : option RevisionItem :=
  Some (sample_item id "Optics" date 1).

Definition sample_items : list RevisionItem :=
  [ sample_overdue_item;
    sample_item "a" "Optics" (JString "2025-09-05T10:00:00.000Z") 0;
    sample_item "n" "Nernst" JNull 0 ].

(** The reminder of item ["a"] registered, and the same one hour later,
    when it is due. *)
Definition sample_registered : state :=
  scheduleRevisionReminder sample_parseDate granted "a" "Optics"
    (JString "2025-09-05T10:00:00.000Z") sample_mounted.

Definition sample_due : state := set_clock (sample_now + 3600000) sample_registered.

(** A second reminder call for item ["a"], for a date 15 days ahead, and
    one for a date that has passed. *)
Definition sample_rescheduled_far : state :=
  scheduleRevisionReminder sample_parseDate granted "a" "Optics"
    (JString "2025-09-20T09:00:00.000Z") sample_registered.

Definition sample_rescheduled_overdue : state :=
  scheduleRevisionReminder sample_parseDate granted "a" "Optics"
    (JString "2025-09-05T08:50:00.000Z") sample_registered.

(** The busy hook five minutes later, when its sweeper is due. *)
Definition sample_sweep_due : state := set_clock (sample_now + 300000) sample_busy.

Definition sample_schedule (id topic : string) (completed : bool) : Schedule :=
  {| s_id := id; s_date := "2025-09-05"; s_start_time := "09:00";
     s_topic := topic; s_completed := completed |}.

Definition sample_schedules : list Schedule :=
  [ sample_schedule "s1" "Kinematics" false;
    sample_schedule "s2" "Thermodynamics" false ].

(** * Proofs *)

(** ** Numbers and dates *)

(** A delay the host's timer can hold is kept as it is. *)
Lemma host_delay_in_range (delay : Z) :
  (0 ≤ delay ≤ 2147483647)%Z → host_delay delay = delay.
Proof.
  intros [H0 H1]. unfold host_delay, to_int32.
  rewrite Z.mod_small by lia. lia.
Qed.

Lemma host_delay_overflow (delay : Z) :
  (2147483647 < delay < 4294967296)%Z → host_delay delay = 0%Z.
Proof.
  intros [H0 H1]. unfold host_delay, to_int32.
  replace (delay + 2147483648)%Z
    with (delay - 2147483648 + 1 * 4294967296)%Z by lia.
  rewrite Z.mod_add by lia. rewrite Z.mod_small by lia. lia.
Qed.

Lemma js_le_Some (a : number) (y : Z) :
  js_le a (Some y) = true ↔ ∃ x, a = Some x ∧ (x ≤ y)%Z.
Proof.
  destruct a as [x|]; simpl; split.
  - intros H. exists x. split; [done | lia].
  - intros (x' & [= <-] & H). lia.
  - discriminate.
  - intros (x' & [=] & _).
Qed.

(** The filter of [checkOverdueItems] keeps the items whose instant is
    present and not after [now]. *)
Lemma isOverdue_spec (parseDate : string → number) (now : Z) (item : RevisionItem) :
  isOverdue parseDate now item = true ↔
  ∃ t, nextReviewInstant parseDate item = Some t ∧ (t ≤ now)%Z.
Proof.
  unfold isOverdue, nextReviewInstant, truthy, getTime.
  destruct (next_review item) as [| |s]; simpl.
  - split; [discriminate | intros (t & [=] & _)].
  - split; [discriminate | intros (t & [=] & _)].
  - case_bool_decide; simpl.
    + split; [discriminate | intros (t & [=] & _)].
    + apply js_le_Some.
Qed.

(** ** Handles only grow *)

Lemma grows_refl (st : state) : grows st st.
Proof. split; [lia | auto | auto]. Qed.

Lemma grows_trans (st1 st2 st3 : state) :
  grows st1 st2 → grows st2 st3 → grows st1 st3.
Proof.
  intros [c1 t1 i1] [c2 t2 i2]. split.
  - lia.
  - intros h H. destruct (t2 h H) as [H'|H']; [auto | right; lia].
  - intros h H. destruct (i2 h H) as [H'|H']; [auto | right; lia].
Qed.

Lemma setTimeout_grows (a : timer_action) (delay : Z) (st : state) :
  grows st (setTimeout a delay st).2.
Proof.
  split; simpl.
  - lia.
  - intros h. destruct (decide (h = next_handle st)) as [->|Hne].
    + right. lia.
    + rewrite lookup_insert_ne by done. auto.
  - auto.
Qed.

Lemma clearTimeout_grows (h : positive) (st : state) : grows st (clearTimeout h st).
Proof.
  split; simpl; [lia | | auto].
  intros h' [t Ht]. left. apply lookup_delete_Some in Ht as [_ Ht]. eauto.
Qed.

Lemma setInterval_grows (p : NotificationPermission) (items : list RevisionItem)
    (period : Z) (st : state) :
  grows st (setInterval p items period st).2.
Proof.
  split; simpl.
  - lia.
  - auto.
  - intros h. destruct (decide (h = next_handle st)) as [->|Hne].
    + right. lia.
    + rewrite lookup_insert_ne by done. auto.
Qed.

Lemma clearInterval_grows (h : positive) (st : state) : grows st (clearInterval h st).
Proof.
  split; simpl; [lia | auto | ].
  intros h' [t Ht]. left. apply lookup_delete_Some in Ht as [_ Ht]. eauto.
Qed.

(** ** Surfacing notifications *)

Lemma emits_nil (st : state) : emits st st [].
Proof.
  split; try done.
  - by rewrite app_nil_r.
  - auto.
Qed.

Lemma emits_app (st1 st2 st3 : state) (ns1 ns2 : list Notification) :
  emits st1 st2 ns1 → emits st2 st3 ns2 → emits st1 st3 (ns1 ++ ns2).
Proof.
  intros E1 E2. split.
  - rewrite (em_clock _ _ _ E2). apply E1.
  - rewrite (em_hasNotification _ _ _ E2). apply E1.
  - rewrite (em_intervals _ _ _ E2). apply E1.
  - rewrite (em_ref _ _ _ E2). apply E1.
  - rewrite (em_registry _ _ _ E2). apply E1.
  - rewrite (em_shown _ _ _ E2), (em_shown _ _ _ E1). by rewrite app_assoc.
  - pose proof (em_counter _ _ _ E1). pose proof (em_counter _ _ _ E2). lia.
  - intros h Hh. pose proof (em_counter _ _ _ E1).
    rewrite (em_old _ _ _ E2) by lia. by apply E1.
  - intros h t Ht.
    pose proof (em_counter _ _ _ E1). pose proof (em_counter _ _ _ E2).
    destruct (em_new _ _ _ E2 h t Ht) as [H2|(? & ? & ?)].
    + destruct (em_new _ _ _ E1 h t H2) as [?|(? & ? & ?)]; [by left|].
      right. repeat split; [done | lia | done].
    + right. repeat split; [lia | done | done].
Qed.

Lemma emits_grows (st st' : state) (ns : list Notification) :
  emits st st' ns → grows st st'.
Proof.
  intros E. split.
  - apply E.
  - intros h [t Ht]. destruct (em_new _ _ _ E h t Ht) as [?|(? & _)]; eauto.
  - rewrite (em_intervals _ _ _ E). auto.
Qed.

(** A timer that is no reminder changes nothing but the queue. *)
Lemma setTimeout_emits (a : timer_action) (delay : Z) (st : state) :
  action_id a = None → emits st (setTimeout a delay st).2 [].
Proof.
  intros Ha. split; simpl; try done.
  - by rewrite app_nil_r.
  - lia.
  - intros h Hh. rewrite lookup_insert_ne; [done | lia].
  - intros h t. destruct (decide (h = next_handle st)) as [->|Hne].
    + rewrite lookup_insert_eq. intros [= <-]. right. simpl. repeat split; [lia | lia | done].
    + rewrite lookup_insert_ne by done. auto.
Qed.

Section HookFacts.

Variable parseDate : string → number.

Lemma showNotification_denied (p : NotificationPermission) (title body : string)
    (o : NotificationOptions) (st : state) :
  p ≠ granted → showNotification p title body o st = (None, st).
Proof.
  intros Hp. unfold showNotification. by rewrite bool_decide_eq_false_2.
Qed.

Lemma showNotification_granted (title body : string) (o : NotificationOptions)
    (st : state) :
  hasNotification st = true →
  emits st (showNotification granted title body o st).2 [notification_of title body o]
  ∧ (showNotification granted title body o st).1 = Some (length (shown st)).
Proof.
  intros Hn. unfold showNotification. rewrite Hn. simpl. split; [|done].
  split; simpl; try done.
  - lia.
  - intros h Hh. rewrite lookup_insert_ne; [done | lia].
  - intros h t. destruct (decide (h = next_handle st)) as [->|Hne].
    + rewrite lookup_insert_eq. intros [= <-]. right. simpl. repeat split; lia.
    + rewrite lookup_insert_ne by done. auto.
Qed.

(** Whatever the permission, [showNotification] surfaces at most its one
    notification and touches nothing else. *)
Lemma showNotification_emits (p : NotificationPermission) (title body : string)
    (o : NotificationOptions) (st : state) :
  ∃ ns, emits st (showNotification p title body o st).2 ns.
Proof.
  destruct (decide (p = granted)) as [->|Hp].
  - destruct (hasNotification st) eqn:Hn.
    + eexists. by apply showNotification_granted.
    + exists []. unfold showNotification. rewrite Hn. simpl. apply emits_nil.
  - exists []. rewrite showNotification_denied by done. apply emits_nil.
Qed.

Lemma notifyOverdue_fold_emits (p : NotificationPermission)
    (items : list RevisionItem) (st : state) :
  ∃ ns, emits st (foldl (notifyOverdue p) st items) ns.
Proof.
  revert st. induction items as [|item items IH]; intros st; simpl.
  - exists []. apply emits_nil.
  - destruct (showNotification_emits p overdue_title
      ("⚠️ OVERDUE: " +:+ dquote +:+ item_title item +:+ dquote +:+ " needs review!")
      {| o_tag := item_id item; o_requireInteraction := Some true; o_data := None |}
      st) as [ns1 E1].
    destruct (IH (notifyOverdue p st item)) as [ns2 E2].
    exists (ns1 ++ ns2). eapply emits_app; [exact E1 | exact E2].
Qed.

Lemma notifyOverdue_fold_denied (p : NotificationPermission)
    (items : list RevisionItem) (st : state) :
  p ≠ granted → foldl (notifyOverdue p) st items = st.
Proof.
  intros Hp. induction items as [|item items IH]; simpl; [done|].
  unfold notifyOverdue at 2. by rewrite showNotification_denied.
Qed.

Lemma notifyOverdue_fold_granted (items : list RevisionItem) (st : state) :
  hasNotification st = true →
  emits st (foldl (notifyOverdue granted) st items) (overdue_alert <$> items).
Proof.
  revert st. induction items as [|item items IH]; intros st Hn; simpl.
  - apply emits_nil.
  - pose proof (showNotification_granted overdue_title
      ("⚠️ OVERDUE: " +:+ dquote +:+ item_title item +:+ dquote +:+ " needs review!")
      {| o_tag := item_id item; o_requireInteraction := Some true; o_data := None |}
      st Hn) as [E1 _].
    apply (emits_app _ _ _ [overdue_alert item] (overdue_alert <$> items) E1).
    apply IH. unfold notifyOverdue. by rewrite (em_hasNotification _ _ _ E1).
Qed.

End HookFacts.

(** ** Coherence is an invariant *)

Lemma coherent_init (t0 : Z) (hasN : bool) : coherent (init_state t0 hasN).
Proof.
  split; simpl.
  - intros id h H. by rewrite lookup_empty in H.
  - intros h t id H. by rewrite lookup_empty in H.
  - intros h [t H]. by rewrite lookup_empty in H.
  - intros h [t H]. by rewrite lookup_empty in H.
  - intros h. split; [intros [t H]; by rewrite lookup_empty in H | discriminate].
Qed.

Lemma coherent_emits (st st' : state) (ns : list Notification) :
  coherent st → emits st st' ns → coherent st'.
Proof.
  intros C E. pose proof (em_counter _ _ _ E) as Hc. split.
  - intros id h. rewrite (em_registry _ _ _ E). intros H.
    destruct (coh_registered _ C id h H) as (t & Ht & Ha).
    exists t. split; [|done].
    rewrite (em_old _ _ _ E); [done|].
    apply (coh_fresh_timeouts _ C). eauto.
  - intros h t id Ht Ha. rewrite (em_registry _ _ _ E).
    destruct (em_new _ _ _ E h t Ht) as [H|(_ & _ & H)].
    + by apply (coh_pending _ C h t).
    + congruence.
  - intros h [t Ht].
    destruct (em_new _ _ _ E h t Ht) as [H|(_ & H & _)]; [|done].
    pose proof (coh_fresh_timeouts _ C h (ex_intro _ t H)). lia.
  - intros h. rewrite (em_intervals _ _ _ E). intros H.
    pose proof (coh_fresh_intervals _ C h H). lia.
  - intros h. rewrite (em_intervals _ _ _ E), (em_ref _ _ _ E).
    apply (coh_sweeper _ C).
Qed.

Section Invariant.

Variable parseDate : string → number.

(** The state [scheduleNotification] produces when permission is granted. *)
Lemma scheduleNotification_granted (id title body : string) (delay : Z)
    (onClick : option handler) (st : state) :
  scheduleNotification granted id title body delay onClick st =
  {| clock := clock st; hasNotification := hasNotification st;
     next_handle := Pos.succ (next_handle st);
     timeouts := <[next_handle st :=
                    {| t_due := clock st + host_delay delay; t_delay := delay;
                       t_action := FireReminder granted id title body onClick |}]>
                 (without_existing id st);
     intervals := intervals st; shown := shown st;
     checkIntervalRef := checkIntervalRef st;
     notificationTimeoutsRef := <[id := next_handle st]> (notificationTimeoutsRef st) |}.
Proof.
  unfold scheduleNotification, without_existing. simpl.
  destruct (notificationTimeoutsRef st !! id); reflexivity.
Qed.

Lemma scheduleNotification_denied (p : NotificationPermission) (id title body : string)
    (delay : Z) (onClick : option handler) (st : state) :
  p ≠ granted → scheduleNotification p id title body delay onClick st = st.
Proof.
  intros Hp. unfold scheduleNotification. by rewrite bool_decide_eq_true_2.
Qed.

Lemma without_existing_lookup (id : string) (st : state) (h : positive)
    (t : timeout_entry) :
  without_existing id st !! h = Some t →
  timeouts st !! h = Some t ∧ notificationTimeoutsRef st !! id ≠ Some h.
Proof.
  unfold without_existing.
  destruct (notificationTimeoutsRef st !! id) as [h0|] eqn:E.
  - intros [Hne Ht]%lookup_delete_Some. split; [done | congruence].
  - intros Ht. split; [done | discriminate].
Qed.

Lemma without_existing_other (id : string) (st : state) (h : positive) :
  notificationTimeoutsRef st !! id ≠ Some h →
  without_existing id st !! h = timeouts st !! h.
Proof.
  unfold without_existing. intros Hne.
  destruct (notificationTimeoutsRef st !! id) as [h0|]; [|done].
  apply lookup_delete_ne. congruence.
Qed.

Lemma coherent_scheduleNotification (p : NotificationPermission)
    (id title body : string) (delay : Z) (onClick : option handler) (st : state) :
  coherent st → coherent (scheduleNotification p id title body delay onClick st).
Proof.
  intros C. destruct (decide (p = granted)) as [->|Hp];
    [|by rewrite scheduleNotification_denied].
  rewrite scheduleNotification_granted. split; simpl.
  - intros id' h. destruct (decide (id = id')) as [<-|Hne].
    + rewrite lookup_insert_eq. intros [= <-].
      eexists. rewrite lookup_insert_eq. split; [done|]. done.
    + rewrite lookup_insert_ne by done. intros H.
      destruct (coh_registered _ C id' h H) as (t & Ht & Ha).
      exists t. split; [|done].
      assert ((h < next_handle st)%positive) by (apply (coh_fresh_timeouts _ C); eauto).
      rewrite lookup_insert_ne by lia.
      rewrite without_existing_other; [done|].
      intros H'. destruct (coh_registered _ C id h H') as (t' & Ht' & Ha').
      congruence.
  - intros h t id'. destruct (decide (h = next_handle st)) as [->|Hne].
    + rewrite lookup_insert_eq. intros [= <-]. simpl. intros [= <-].
      by rewrite lookup_insert_eq.
    + rewrite lookup_insert_ne by done.
      intros [Ht Hnot]%without_existing_lookup Ha.
      pose proof (coh_pending _ C h t id' Ht Ha) as Hreg.
      rewrite lookup_insert_ne; [done | congruence].
  - intros h. destruct (decide (h = next_handle st)) as [->|Hne]; [lia|].
    rewrite lookup_insert_ne by done. intros [t Ht].
    apply without_existing_lookup in Ht as [Ht _].
    pose proof (coh_fresh_timeouts _ C h (ex_intro _ t Ht)). lia.
  - intros h H. pose proof (coh_fresh_intervals _ C h H). lia.
  - apply (coh_sweeper _ C).
Qed.

Lemma coherent_cancelNotification (id : string) (st : state) :
  coherent st → coherent (cancelNotification id st).
Proof.
  intros C. unfold cancelNotification.
  destruct (notificationTimeoutsRef st !! id) as [h0|] eqn:E; [|done].
  split; simpl.
  - intros id' h [Hne H]%lookup_delete_Some.
    destruct (coh_registered _ C id' h H) as (t & Ht & Ha).
    exists t. split; [|done]. rewrite lookup_delete_ne; [done|].
    intros <-. destruct (coh_registered _ C id h0 E) as (t' & Ht' & Ha').
    congruence.
  - intros h t id' [Hne Ht]%lookup_delete_Some Ha.
    pose proof (coh_pending _ C h t id' Ht Ha) as Hreg.
    rewrite lookup_delete_ne; [done | congruence].
  - intros h [t [_ Ht]%lookup_delete_Some].
    apply (coh_fresh_timeouts _ C). eauto.
  - apply (coh_fresh_intervals _ C).
  - apply (coh_sweeper _ C).
Qed.

Lemma coherent_showNotification (p : NotificationPermission) (title body : string)
    (o : NotificationOptions) (st : state) :
  coherent st → coherent (showNotification p title body o st).2.
Proof.
  intros C. destruct (showNotification_emits p title body o st) as [ns E].
  by eapply coherent_emits.
Qed.

Lemma coherent_scheduleRevisionReminder (p : NotificationPermission)
    (itemId itemTitle : string) (v : jsval) (st : state) :
  coherent st → coherent (scheduleRevisionReminder parseDate p itemId itemTitle v st).
Proof.
  intros C. unfold scheduleRevisionReminder.
  destruct (js_le _ (Some 0%Z)); [by apply coherent_showNotification|].
  destruct (js_le _ (Some horizon)); [by apply coherent_scheduleNotification | done].
Qed.

Lemma coherent_checkOverdueItems (p : NotificationPermission)
    (items : list RevisionItem) (st : state) :
  coherent st → coherent (checkOverdueItems parseDate p items st).2.
Proof.
  intros C. unfold checkOverdueItems. simpl.
  destruct (notifyOverdue_fold_emits p (List.filter (isOverdue parseDate (clock st)) items) st)
    as [ns E].
  by eapply coherent_emits.
Qed.

End Invariant.

Section Sweeper.

Variable parseDate : string → number.

Lemma set_timeouts_id (st : state) : set_timeouts (timeouts st) st = st.
Proof. by destruct st. Qed.

(** Clearing every handle of a registry [m] keeps exactly the timers no
    entry of [m] points to, and touches nothing but the timer queue. *)
Lemma clear_all_spec (m : gmap string positive) (st : state) :
  ∃ ts, map_fold (λ _ timeout s, clearTimeout timeout s) st m = set_timeouts ts st
        ∧ ∀ h t, ts !! h = Some t ↔
                 timeouts st !! h = Some t ∧ ∀ id, m !! id ≠ Some h.
Proof.
  apply (map_fold_weak_ind
    (λ r m, ∃ ts, r = set_timeouts ts st
                  ∧ ∀ h t, ts !! h = Some t ↔
                           timeouts st !! h = Some t ∧ ∀ id, m !! id ≠ Some h)).
  - exists (timeouts st). split; [by rewrite set_timeouts_id|].
    intros h t. split; [|by intros [? _]].
    intros H. split; [done|]. intros id. by rewrite lookup_empty.
  - clear m. intros i x m r Hi (ts & -> & Hts).
    exists (delete x ts). split; [done|].
    intros h t. rewrite lookup_delete_Some, Hts. split.
    + intros (Hne & Ht & Hm). split; [done|]. intros id.
      destruct (decide (i = id)) as [<-|Hid].
      * rewrite lookup_insert_eq. congruence.
      * rewrite lookup_insert_ne by done. apply Hm.
    + intros (Ht & Hm). split; [|split; [done|]].
      * intros <-. apply (Hm i). by rewrite lookup_insert_eq.
      * intros id Hid. apply (Hm id).
        rewrite lookup_insert_ne; [done|]. congruence.
Qed.

(** In a coherent state the reference names the only sweeper there is, so
    clearing it leaves no interval at all. *)
Lemma sweeper_cleared (st : state) :
  coherent st →
  intervals (match checkIntervalRef st with
             | Some h => clearInterval h st
             | None => st
             end) = ∅.
Proof.
  intros C. apply map_empty. intros h.
  destruct (checkIntervalRef st) as [h0|] eqn:E; simpl.
  - destruct (decide (h0 = h)) as [->|Hne]; [apply lookup_delete_eq|].
    rewrite lookup_delete_ne by done.
    destruct (intervals st !! h) eqn:Hh; [|done].
    assert (checkIntervalRef st = Some h) by (apply (coh_sweeper _ C); eauto).
    congruence.
  - destruct (intervals st !! h) eqn:Hh; [|done].
    assert (checkIntervalRef st = Some h) by (apply (coh_sweeper _ C); eauto).
    congruence.
Qed.

Lemma stopChecking_intervals (st : state) :
  coherent st → intervals (stopChecking st) = ∅ ∧ checkIntervalRef (stopChecking st) = None.
Proof.
  intros C. pose proof (sweeper_cleared st C) as H. unfold stopChecking.
  destruct (checkIntervalRef st) as [h0|] eqn:E; simpl in *; auto.
Qed.

Lemma coherent_stopChecking (st : state) : coherent st → coherent (stopChecking st).
Proof.
  intros C. destruct (stopChecking_intervals st C) as [Hi Hr].
  assert (timeouts (stopChecking st) = timeouts st
          ∧ notificationTimeoutsRef (stopChecking st) = notificationTimeoutsRef st
          ∧ next_handle (stopChecking st) = next_handle st) as (Ht & Hreg & Hn).
  { unfold stopChecking. by destruct (checkIntervalRef st). }
  split.
  - rewrite Ht, Hreg. apply (coh_registered _ C).
  - rewrite Ht, Hreg. apply (coh_pending _ C).
  - rewrite Ht, Hn. apply (coh_fresh_timeouts _ C).
  - rewrite Hi. intros h [t H]. by rewrite lookup_empty in H.
  - rewrite Hi, Hr. intros h.
    split; [intros [t H]; by rewrite lookup_empty in H | discriminate].
Qed.

(** The state [stopAllNotifications] produces: the sweeper stopped, the
    registry empty, the registered timers gone from the queue. *)
Lemma stopAllNotifications_spec (st : state) :
  ∃ ts, stopAllNotifications st =
          set_notificationTimeoutsRef ∅ (set_timeouts ts (stopChecking st))
        ∧ ∀ h t, ts !! h = Some t ↔
                 timeouts st !! h = Some t ∧ ∀ id, notificationTimeoutsRef st !! id ≠ Some h.
Proof.
  unfold stopAllNotifications. fold (stopChecking st).
  destruct (clear_all_spec (notificationTimeoutsRef (stopChecking st)) (stopChecking st))
    as (ts & -> & Hts).
  exists ts. split; [done|].
  assert (timeouts (stopChecking st) = timeouts st
          ∧ notificationTimeoutsRef (stopChecking st) = notificationTimeoutsRef st)
    as (Ht & Hreg).
  { unfold stopChecking. by destruct (checkIntervalRef st). }
  intros h t. rewrite Hts, Ht, Hreg. done.
Qed.

Lemma coherent_stopAllNotifications (st : state) :
  coherent st → coherent (stopAllNotifications st).
Proof.
  intros C. destruct (stopAllNotifications_spec st) as (ts & -> & Hts).
  pose proof (coherent_stopChecking st C) as C1.
  assert (next_handle (stopChecking st) = next_handle st) as Hn.
  { unfold stopChecking. by destruct (checkIntervalRef st). }
  split; simpl.
  - intros id h H. by rewrite lookup_empty in H.
  - intros h t id [Ht Hnot]%Hts Ha.
    destruct (Hnot id). by apply (coh_pending _ C h t).
  - intros h [t [Ht _]%Hts]. rewrite Hn. apply (coh_fresh_timeouts _ C). eauto.
  - apply (coh_fresh_intervals _ C1).
  - apply (coh_sweeper _ C1).
Qed.

(** The state [startPeriodicCheck] produces, step by step. *)
Lemma startPeriodicCheck_unfold (p : NotificationPermission)
    (items : list RevisionItem) (st : state) :
  let st1 := match checkIntervalRef st with
             | Some h => clearInterval h st
             | None => st
             end in
  let st2 := (checkOverdueItems parseDate p items st1).2 in
  startPeriodicCheck parseDate p items st =
  set_checkIntervalRef (Some (next_handle st2))
    (set_next_handle (Pos.succ (next_handle st2))
       (set_intervals
          (<[next_handle st2 :=
               {| i_next := clock st2 + sweep_period; i_period := sweep_period;
                  i_perm := p; i_items := items |}]> (intervals st2)) st2)).
Proof. reflexivity. Qed.

Lemma coherent_startPeriodicCheck (p : NotificationPermission)
    (items : list RevisionItem) (st : state) :
  coherent st → coherent (startPeriodicCheck parseDate p items st).
Proof.
  intros C. rewrite startPeriodicCheck_unfold.
  pose proof (sweeper_cleared st C) as Hempty.
  set (st1 := match checkIntervalRef st with
              | Some h => clearInterval h st
              | None => st
              end) in *.
  assert (timeouts st1 = timeouts st
          ∧ notificationTimeoutsRef st1 = notificationTimeoutsRef st
          ∧ next_handle st1 = next_handle st) as (Ht & Hreg & Hn).
  { unfold st1. by destruct (checkIntervalRef st). }
  unfold checkOverdueItems. simpl.
  destruct (notifyOverdue_fold_emits p
              (List.filter (isOverdue parseDate (clock st1)) items) st1) as [ns E].
  set (st2 := foldl (notifyOverdue p) st1 _) in *.
  pose proof (em_counter _ _ _ E) as Hc.
  split; simpl.
  - rewrite (em_registry _ _ _ E), Hreg. intros id h H.
    destruct (coh_registered _ C id h H) as (t & Htm & Ha).
    exists t. split; [|done].
    rewrite (em_old _ _ _ E), Ht; [done|].
    rewrite Hn. apply (coh_fresh_timeouts _ C). eauto.
  - rewrite (em_registry _ _ _ E), Hreg. intros h t id Htm Ha.
    destruct (em_new _ _ _ E h t Htm) as [H|(_ & _ & H)]; [|congruence].
    rewrite Ht in H. by apply (coh_pending _ C h t).
  - intros h [t Htm].
    destruct (em_new _ _ _ E h t Htm) as [H|(_ & H & _)]; [|lia].
    rewrite Ht in H. pose proof (coh_fresh_timeouts _ C h (ex_intro _ t H)). lia.
  - rewrite (em_intervals _ _ _ E), Hempty. intros h.
    destruct (decide (h = next_handle st2)) as [->|Hne]; [lia|].
    rewrite lookup_insert_ne by done. intros [t H]. by rewrite lookup_empty in H.
  - rewrite (em_intervals _ _ _ E), Hempty. intros h.
    destruct (decide (h = next_handle st2)) as [->|Hne].
    + rewrite lookup_insert_eq. split; eauto.
    + rewrite lookup_insert_ne by done. split.
      * intros [t H]. by rewrite lookup_empty in H.
      * congruence.
Qed.

End Sweeper.

Section EventLoop.

Variable parseDate : string → number.

(** What a timer callback changes, beyond what its [showNotification]
    does: the registry entry of its item, and the click handler. *)
Lemma run_action_fields (a : timer_action) (st : state) :
  ∃ st2 ns, emits st st2 ns
    ∧ timeouts (run_action a st) = timeouts st2
    ∧ intervals (run_action a st) = intervals st2
    ∧ next_handle (run_action a st) = next_handle st2
    ∧ checkIntervalRef (run_action a st) = checkIntervalRef st2
    ∧ clock (run_action a st) = clock st2
    ∧ hasNotification (run_action a st) = hasNotification st2
    ∧ notificationTimeoutsRef (run_action a st) =
        match action_id a with
        | Some id => delete id (notificationTimeoutsRef st)
        | None => notificationTimeoutsRef st
        end.
Proof.
  destruct a as [p id title body onClick | idx |]; simpl.
  - destruct (showNotification_emits p title body
                {| o_tag := id; o_requireInteraction := None; o_data := Some id |} st)
      as [ns E].
    destruct (showNotification p title body _ st) as [n st2]; simpl in E.
    exists st2, ns. split; [done|].
    rewrite <- (em_registry _ _ _ E).
    destruct n as [i|], onClick as [f|]; simpl; repeat split; done.
  - exists st, []. split; [apply emits_nil|]. repeat split; done.
  - exists st, []. split; [apply emits_nil|]. repeat split; done.
Qed.

Lemma coherent_timeout_fires (h : positive) (t : timeout_entry) (st : state) :
  coherent st → timeouts st !! h = Some t →
  coherent (run_action (t_action t) (clearTimeout h st)).
Proof.
  intros C Hh.
  destruct (run_action_fields (t_action t) (clearTimeout h st))
    as (st2 & ns & E & Ht & Hi & Hn & Hr & _ & _ & Hreg).
  pose proof (em_counter _ _ _ E) as Hc. simpl in Hc, Hreg.
  assert (∀ id' h', notificationTimeoutsRef (run_action (t_action t) (clearTimeout h st))
                      !! id' = Some h' →
                    notificationTimeoutsRef st !! id' = Some h' ∧ h' ≠ h) as Hsub.
  { intros id' h' H. rewrite Hreg in H.
    assert (notificationTimeoutsRef st !! id' = Some h'
            ∧ action_id (t_action t) ≠ Some id') as [H1 H2].
    { destruct (action_id (t_action t)) as [id|].
      - apply lookup_delete_Some in H as [? ?]. split; [done | congruence].
      - done. }
    split; [done|]. intros ->.
    destruct (coh_registered _ C id' h H1) as (t' & Ht' & Ha'). congruence. }
  split.
  - intros id' h' H. destruct (Hsub id' h' H) as [H1 Hne].
    destruct (coh_registered _ C id' h' H1) as (t' & Ht' & Ha').
    exists t'. split; [|done]. rewrite Ht, (em_old _ _ _ E); simpl.
    + by rewrite lookup_delete_ne.
    + apply (coh_fresh_timeouts _ C). eauto.
  - intros h' t' id'. rewrite Ht. intros H Ha.
    destruct (em_new _ _ _ E h' t' H) as [H1|(_ & _ & H1)]; [|congruence].
    simpl in H1. apply lookup_delete_Some in H1 as [Hne H1].
    pose proof (coh_pending _ C h' t' id' H1 Ha) as Hr1.
    rewrite Hreg. destruct (action_id (t_action t)) as [id|] eqn:Hid; [|done].
    rewrite lookup_delete_ne; [done|]. intros ->.
    pose proof (coh_pending _ C h t id' Hh Hid). congruence.
  - intros h' [t' H]. rewrite Ht in H. rewrite Hn.
    destruct (em_new _ _ _ E h' t' H) as [H1|(_ & H1 & _)]; [|done].
    simpl in H1. apply lookup_delete_Some in H1 as [_ H1].
    pose proof (coh_fresh_timeouts _ C h' (ex_intro _ t' H1)). lia.
  - intros h'. rewrite Hi, Hn, (em_intervals _ _ _ E). simpl. intros H.
    pose proof (coh_fresh_intervals _ C h' H). lia.
  - intros h'. rewrite Hi, Hr, (em_intervals _ _ _ E), (em_ref _ _ _ E). simpl.
    apply (coh_sweeper _ C).
Qed.

Lemma coherent_rearm (h : positive) (i : interval_entry) (st : state) :
  coherent st → intervals st !! h = Some i → coherent (rearm h i st).
Proof.
  intros C Hh.
  assert (∀ h', is_Some (intervals (rearm h i st) !! h') ↔ is_Some (intervals st !! h'))
    as Hsame.
  { intros h'. destruct (decide (h = h')) as [<-|Hne].
    - simpl. rewrite lookup_insert_eq, Hh. split; eauto.
    - simpl. by rewrite lookup_insert_ne. }
  split; [apply C | apply C | apply C | |].
  - intros h' H. apply (coh_fresh_intervals _ C), Hsame, H.
  - intros h'. rewrite Hsame. apply (coh_sweeper _ C).
Qed.

Lemma coherent_run (e : event) (st st' : state) :
  coherent st → run parseDate e st = Some st' → coherent st'.
Proof.
  intros C. destruct e; cbn [run].
  - intros [= <-]. by apply coherent_showNotification.
  - intros [= <-]. by apply coherent_scheduleNotification.
  - intros [= <-]. by apply coherent_cancelNotification.
  - intros [= <-]. by apply coherent_scheduleRevisionReminder.
  - intros [= <-]. by apply coherent_checkOverdueItems.
  - intros [= <-]. by apply coherent_startPeriodicCheck.
  - intros [= <-]. by apply coherent_stopChecking.
  - intros [= <-]. by apply coherent_stopAllNotifications.
  - destruct (0 <=? dt)%Z; [|discriminate]. intros [= <-].
    split; simpl; apply C.
  - destruct (timeouts st !! h) as [t|] eqn:Hh; [|discriminate].
    destruct (t_due t <=? clock st)%Z; [|discriminate]. intros [= <-].
    by apply coherent_timeout_fires.
  - destruct (intervals st !! h) as [i|] eqn:Hh; [|discriminate].
    destruct (i_next i <=? clock st)%Z; [|discriminate]. intros [= <-].
    apply (coherent_checkOverdueItems parseDate (i_perm i) (i_items i) (rearm h i st)).
    by apply coherent_rearm.
  - intros [= <-]. apply (coherent_emits st _ []); [done|].
    by apply setTimeout_emits.
Qed.

(** Every state the hook can reach is coherent. *)
Lemma reachable_coherent (st : state) : reachable parseDate st → coherent st.
Proof.
  induction 1 as [t0 hasN | e st st' _ IH Hrun].
  - apply coherent_init.
  - by eapply coherent_run.
Qed.

Lemma coherent_run_trace (tr : list event) (st st' : state) :
  coherent st → run_trace parseDate tr st = Some st' → coherent st'.
Proof.
  revert st. induction tr as [|e tr IH]; intros st C; simpl.
  - by intros [= <-].
  - destruct (run parseDate e st) as [st1|] eqn:Hrun; [|discriminate].
    apply IH. by eapply coherent_run.
Qed.

Lemma reachable_run_trace (tr : list event) (st st' : state) :
  reachable parseDate st → run_trace parseDate tr st = Some st' →
  reachable parseDate st'.
Proof.
  revert st. induction tr as [|e tr IH]; intros st R; simpl.
  - by intros [= <-].
  - destruct (run parseDate e st) as [st1|] eqn:Hrun; [|discriminate].
    apply IH. by eapply reach_step.
Qed.

End EventLoop.

(** ** No handle comes back *)

Lemma grows_eq (st st' st'' : state) :
  grows st st'' → next_handle st' = next_handle st'' →
  timeouts st' = timeouts st'' → intervals st' = intervals st'' → grows st st'.
Proof.
  intros [c t i] Hn Ht Hi. split.
  - by rewrite Hn.
  - by rewrite Ht.
  - by rewrite Hi.
Qed.

Section Handles.

Variable parseDate : string → number.

Lemma checkOverdueItems_emits (p : NotificationPermission)
    (items : list RevisionItem) (st : state) :
  ∃ ns, emits st (checkOverdueItems parseDate p items st).2 ns.
Proof. apply notifyOverdue_fold_emits. Qed.

Lemma scheduleNotification_grows (p : NotificationPermission) (id title body : string)
    (delay : Z) (onClick : option handler) (st : state) :
  grows st (scheduleNotification p id title body delay onClick st)
  ∧ intervals (scheduleNotification p id title body delay onClick st) = intervals st.
Proof.
  destruct (decide (p = granted)) as [->|Hp].
  - rewrite scheduleNotification_granted. split; [|done]. split; simpl.
    + lia.
    + intros h. destruct (decide (h = next_handle st)) as [->|Hne]; [right; lia|].
      rewrite lookup_insert_ne by done.
      intros [t [Ht _]%without_existing_lookup]. eauto.
    + auto.
  - rewrite scheduleNotification_denied by done. split; [apply grows_refl | done].
Qed.

Lemma cancelNotification_grows (id : string) (st : state) :
  grows st (cancelNotification id st)
  ∧ intervals (cancelNotification id st) = intervals st.
Proof.
  unfold cancelNotification.
  destruct (notificationTimeoutsRef st !! id) as [h|]; [|split; [apply grows_refl | done]].
  split; [|done].
  apply (grows_eq _ _ (clearTimeout h st)); [apply clearTimeout_grows | done..].
Qed.

Lemma scheduleRevisionReminder_grows (p : NotificationPermission)
    (itemId itemTitle : string) (v : jsval) (st : state) :
  grows st (scheduleRevisionReminder parseDate p itemId itemTitle v st)
  ∧ intervals (scheduleRevisionReminder parseDate p itemId itemTitle v st) = intervals st.
Proof.
  unfold scheduleRevisionReminder.
  destruct (js_le _ (Some 0%Z)).
  - match goal with |- context [showNotification ?p ?a ?b ?o ?s] =>
      destruct (showNotification_emits p a b o s) as [ns E] end.
    split; [by eapply emits_grows | apply E].
  - destruct (js_le _ (Some horizon)); [apply scheduleNotification_grows|].
    split; [apply grows_refl | done].
Qed.

Lemma stopChecking_grows (st : state) :
  grows st (stopChecking st)
  ∧ ∀ h, is_Some (intervals (stopChecking st) !! h) → is_Some (intervals st !! h).
Proof.
  unfold stopChecking. destruct (checkIntervalRef st) as [h0|].
  - split.
    + apply (grows_eq _ _ (clearInterval h0 st)); [apply clearInterval_grows | done..].
    + simpl. intros h [i [_ H]%lookup_delete_Some]. eauto.
  - split; [apply grows_refl | auto].
Qed.

Lemma stopAllNotifications_grows (st : state) :
  grows st (stopAllNotifications st)
  ∧ ∀ h, is_Some (intervals (stopAllNotifications st) !! h) → is_Some (intervals st !! h).
Proof.
  destruct (stopAllNotifications_spec st) as (ts & -> & Hts).
  destruct (stopChecking_grows st) as [[c t i] Hi]. split; [|exact Hi].
  split; simpl.
  - exact c.
  - intros h [e [He _]%Hts]. eauto.
  - exact i.
Qed.

Lemma startPeriodicCheck_grows (p : NotificationPermission)
    (items : list RevisionItem) (st : state) :
  grows st (startPeriodicCheck parseDate p items st).
Proof.
  rewrite startPeriodicCheck_unfold.
  set (st1 := match checkIntervalRef st with
              | Some h => clearInterval h st
              | None => st
              end).
  assert (grows st st1) as G1.
  { unfold st1. destruct (checkIntervalRef st);
      [apply clearInterval_grows | apply grows_refl]. }
  destruct (checkOverdueItems_emits p items st1) as [ns E].
  set (st2 := (checkOverdueItems parseDate p items st1).2) in *.
  pose proof (grows_trans _ _ _ G1 (emits_grows _ _ _ E)) as G2.
  apply (grows_trans _ _ _ G2).
  apply (grows_eq _ _ (setInterval p items sweep_period st2).2);
    [apply setInterval_grows | done..].
Qed.

Lemma timeout_fires_grows (h : positive) (a : timer_action) (st : state) :
  grows st (run_action a (clearTimeout h st))
  ∧ intervals (run_action a (clearTimeout h st)) = intervals st.
Proof.
  destruct (run_action_fields a (clearTimeout h st))
    as (st2 & ns & E & Ht & Hi & Hn & _).
  split.
  - apply (grows_eq _ _ st2); [|done..].
    eapply grows_trans; [apply clearTimeout_grows | by eapply emits_grows].
  - rewrite Hi. apply E.
Qed.

Lemma rearm_grows (h : positive) (i : interval_entry) (st : state) :
  intervals st !! h = Some i →
  grows st (rearm h i st)
  ∧ ∀ h', is_Some (intervals (rearm h i st) !! h') → is_Some (intervals st !! h').
Proof.
  intros Hh.
  assert (∀ h', is_Some (intervals (rearm h i st) !! h') → is_Some (intervals st !! h'))
    as Hsub.
  { intros h'. simpl. destruct (decide (h = h')) as [<-|Hne].
    - eauto.
    - by rewrite lookup_insert_ne. }
  split; [|done]. split; simpl; [lia | auto | auto].
Qed.

(** No event makes a handle below the host's counter pending again, and
    the counter never goes back. *)
Lemma run_grows (e : event) (st st' : state) :
  run parseDate e st = Some st' → grows st st'.
Proof.
  destruct e; cbn [run].
  - intros [= <-].
    destruct (showNotification_emits permission title body options st) as [ns E].
    by eapply emits_grows.
  - intros [= <-]. apply scheduleNotification_grows.
  - intros [= <-]. apply cancelNotification_grows.
  - intros [= <-]. apply scheduleRevisionReminder_grows.
  - intros H. destruct (checkOverdueItems_emits permission items st) as [ns E].
    apply (emits_grows _ _ ns). congruence.
  - intros [= <-]. apply startPeriodicCheck_grows.
  - intros [= <-]. apply stopChecking_grows.
  - intros [= <-]. apply stopAllNotifications_grows.
  - destruct (0 <=? dt)%Z; [|discriminate]. intros [= <-].
    split; simpl; [lia | auto | auto].
  - destruct (timeouts st !! h) as [t|]; [|discriminate].
    destruct (t_due t <=? clock st)%Z; [|discriminate]. intros [= <-].
    apply timeout_fires_grows.
  - destruct (intervals st !! h) as [i|] eqn:Hh; [|discriminate].
    destruct (i_next i <=? clock st)%Z; [|discriminate]. intros H.
    destruct (checkOverdueItems_emits (i_perm i) (i_items i) (rearm h i st)) as [ns E].
    apply (grows_trans _ (rearm h i st)); [by apply rearm_grows|].
    apply (emits_grows _ _ ns). congruence.
  - intros [= <-]. apply setTimeout_grows.
Qed.

(** A handle that is free and below the counter can never fire: no trace
    ends with the host running it. *)
Lemma free_handle_never_fires (tr : list event) (h : positive) (st : state) :
  timeouts st !! h = None → (h < next_handle st)%positive →
  run_trace parseDate (tr ++ [TimeoutFires h]) st = None.
Proof.
  revert st. induction tr as [|e tr IH]; intros st Hfree Hlt; simpl.
  - by rewrite Hfree.
  - destruct (run parseDate e st) as [st1|] eqn:Hrun; [|done].
    pose proof (run_grows _ _ _ Hrun) as G. apply IH.
    + destruct (timeouts st1 !! h) as [t|] eqn:Ht; [|done].
      destruct (gr_timeouts _ _ G h (ex_intro _ t Ht)) as [[t' H]|H].
      * congruence.
      * lia.
    + pose proof (gr_counter _ _ G). lia.
Qed.

(** Only [startPeriodicCheck] arms a sweeper: after any other event a host
    that had no interval still has none. *)
Lemma run_keeps_no_sweeper (e : event) (st st' : state) :
  is_start e = false →
  run parseDate e st = Some st' → intervals st = ∅ → intervals st' = ∅.
Proof.
  intros Hns Hrun Hempty.
  assert (∀ h, is_Some (intervals st' !! h) → is_Some (intervals st !! h)) as Hsub.
  { destruct e; cbn [run] in Hrun.
    - destruct (showNotification_emits permission title body options st) as [ns E].
      injection Hrun as <-. by rewrite (em_intervals _ _ _ E).
    - injection Hrun as <-.
      by rewrite (proj2 (scheduleNotification_grows _ _ _ _ _ _ _)).
    - injection Hrun as <-. by rewrite (proj2 (cancelNotification_grows _ _)).
    - injection Hrun as <-.
      by rewrite (proj2 (scheduleRevisionReminder_grows _ _ _ _ _)).
    - destruct (checkOverdueItems_emits permission items st) as [ns E].
      assert (st' = (checkOverdueItems parseDate permission items st).2) as ->
        by congruence.
      by rewrite (em_intervals _ _ _ E).
    - discriminate.
    - injection Hrun as <-. apply stopChecking_grows.
    - injection Hrun as <-. apply stopAllNotifications_grows.
    - destruct (0 <=? dt)%Z; [|discriminate]. by injection Hrun as <-.
    - destruct (timeouts st !! h) as [t|]; [|discriminate].
      destruct (t_due t <=? clock st)%Z; [|discriminate]. injection Hrun as <-.
      by rewrite (proj2 (timeout_fires_grows _ _ _)).
    - rewrite Hempty, lookup_empty in Hrun. discriminate.
    - by injection Hrun as <-. }
  apply map_empty. intros h. destruct (intervals st' !! h) as [i'|] eqn:Hh; [|done].
  destruct (Hsub h) as [i Hi]; [eauto|]. by rewrite Hempty, lookup_empty in Hi.
Qed.

End Handles.

(** * The claims *)

Lemma coherent_pending_unique (st : state) (id : string) (h h' : positive) (d d' : Z) :
  coherent st → pending st id h d → pending st id h' d' → h = h' ∧ d = d'.
Proof.
  intros C (t & Ht & Ha & <-) (t' & Ht' & Ha' & <-).
  pose proof (coh_pending _ C h t id Ht Ha).
  pose proof (coh_pending _ C h' t' id Ht' Ha').
  assert (h = h') as <- by congruence. split; [done | congruence].
Qed.

Lemma horizon_week : horizon = (7 * day)%Z.
Proof. reflexivity. Qed.

Section Claims.

Variable parseDate : string → number.

(** The branch [scheduleRevisionReminder] takes for a definite instant. *)
Lemma scheduleRevisionReminder_definite (p : NotificationPermission)
    (itemId itemTitle : string) (v : jsval) (t : Z) (st : state) :
  getTime parseDate v = Some t →
  scheduleRevisionReminder parseDate p itemId itemTitle v st =
  if (t - clock st <=? 0)%Z then
    (showNotification p reminder_title
       ("⚠️ OVERDUE: Time to review " +:+ dquote +:+ itemTitle +:+ dquote)
       {| o_tag := itemId; o_requireInteraction := Some true; o_data := None |} st).2
  else if (t - clock st <=? horizon)%Z then
    scheduleNotification p itemId reminder_title
      ("📚 Time to review: " +:+ dquote +:+ itemTitle +:+ dquote)
      (t - clock st) (Some (LogClicked itemId)) st
  else st.
Proof. intros Ht. unfold scheduleRevisionReminder. rewrite Ht. reflexivity. Qed.

(** The branches are the three outcomes of the policy [classify]. *)
Lemma scheduleRevisionReminder_classify (p : NotificationPermission)
    (itemId itemTitle : string) (v : jsval) (t : Z) (st : state) :
  getTime parseDate v = Some t →
  scheduleRevisionReminder parseDate p itemId itemTitle v st =
  match classify (clock st) t with
  | Immediate =>
      (showNotification p reminder_title
         ("⚠️ OVERDUE: Time to review " +:+ dquote +:+ itemTitle +:+ dquote)
         {| o_tag := itemId; o_requireInteraction := Some true; o_data := None |} st).2
  | Deferred delay =>
      scheduleNotification p itemId reminder_title
        ("📚 Time to review: " +:+ dquote +:+ itemTitle +:+ dquote)
        delay (Some (LogClicked itemId)) st
  | Suppressed => st
  end.
Proof.
  intros Ht. rewrite (scheduleRevisionReminder_definite _ _ _ _ _ _ Ht).
  unfold classify. change week with horizon.
  destruct (Z.leb_spec (t - clock st) 0) as [H|H].
  - by rewrite (proj2 (Z.leb_le t (clock st))) by lia.
  - rewrite (proj2 (Z.leb_gt t (clock st))) by lia.
    by destruct (t - clock st <=? horizon)%Z.
Qed.

(** With no definite instant both comparisons fail and nothing happens. *)
Lemma scheduleRevisionReminder_NaN (p : NotificationPermission)
    (itemId itemTitle : string) (v : jsval) (st : state) :
  getTime parseDate v = None →
  scheduleRevisionReminder parseDate p itemId itemTitle v st = st.
Proof. intros Ht. unfold scheduleRevisionReminder. rewrite Ht. reflexivity. Qed.

(** C1. For an item whose next-review value parses to a definite time, with
    permission granted, [scheduleRevisionReminder] follows the three-way
    policy.  If the instant is not after now, it surfaces the reminder at
    once and leaves the timer registry as it was.  If the instant is after
    now by at most 7 days, it surfaces nothing and leaves exactly one
    pending timer for the item: the registered one, due at the instant,
    with delay [nextReview - now].  If the instant is more than 7 days
    away, the state does not change at all. *)
Theorem scheduleRevisionReminder_three_way (itemId itemTitle : string)
    (nextReviewTime : jsval) (nextReview : Z) (st : state) :
  reachable parseDate st →
  hasNotification st = true →
  getTime parseDate nextReviewTime = Some nextReview →
  let now := clock st in
  let st' := scheduleRevisionReminder parseDate granted itemId itemTitle
               nextReviewTime st in
  ((nextReview ≤ now)%Z →
     emits st st' [overdue_reminder itemId itemTitle]
     ∧ getScheduledCount st' = getScheduledCount st)
  ∧ ((0 < nextReview - now ≤ 7 * day)%Z →
       shown st' = shown st
       ∧ ∃ h, notificationTimeoutsRef st' !! itemId = Some h
            ∧ timeouts st' !! h =
                Some {| t_due := nextReview; t_delay := nextReview - now;
                        t_action := FireReminder granted itemId reminder_title
                          ("📚 Time to review: " +:+ dquote +:+ itemTitle +:+ dquote)
                          (Some (LogClicked itemId)) |}
            ∧ ∀ h' d', pending st' itemId h' d' → h' = h ∧ d' = (nextReview - now)%Z)
  ∧ ((7 * day < nextReview - now)%Z → st' = st).
Proof.
  intros R Hn Ht. cbv zeta.
  pose proof (reachable_coherent parseDate st R) as C.
  pose proof (coherent_scheduleRevisionReminder parseDate granted itemId itemTitle
                nextReviewTime st C) as C'.
  rewrite (scheduleRevisionReminder_definite _ _ _ _ _ _ Ht) in *.
  rewrite horizon_week in *.
  split; [|split].
  - intros Hle. rewrite (proj2 (Z.leb_le _ _)) by lia.
    destruct (showNotification_granted reminder_title
      ("⚠️ OVERDUE: Time to review " +:+ dquote +:+ itemTitle +:+ dquote)
      {| o_tag := itemId; o_requireInteraction := Some true; o_data := None |}
      st Hn) as [E _].
    split; [exact E|]. unfold getScheduledCount. by rewrite (em_registry _ _ _ E).
  - intros [Hpos Hle].
    rewrite (proj2 (Z.leb_gt _ _)) in * by lia.
    rewrite (proj2 (Z.leb_le _ _)) in * by lia.
    rewrite scheduleNotification_granted in *. simpl. split; [done|].
    exists (next_handle st). rewrite !lookup_insert_eq.
    split; [done|]. split.
    + rewrite host_delay_in_range by (unfold day, hour in Hle; lia).
      do 2 f_equal. lia.
    + intros h' d' Hp. eapply (coherent_pending_unique _ itemId); [exact C' | exact Hp |].
      eexists. simpl. rewrite lookup_insert_eq. split; [done|]. done.
  - intros Hgt. unfold day, hour in *.
    rewrite (proj2 (Z.leb_gt _ _)) by lia.
    by rewrite (proj2 (Z.leb_gt _ _)) by lia.
Qed.

(** What [scheduleNotification] leaves behind for the item it was called
    for, from a coherent state. *)
Lemma scheduleNotification_replaces (id title body : string) (delay : Z)
    (onClick : option handler) (st : state) :
  coherent st →
  let st' := scheduleNotification granted id title body delay onClick st in
  notificationTimeoutsRef st' !! id = Some (next_handle st)
  ∧ pending st' id (next_handle st) delay
  ∧ (∀ h d, pending st' id h d → h = next_handle st ∧ d = delay)
  ∧ (∀ h0, notificationTimeoutsRef st !! id = Some h0 →
       h0 ≠ next_handle st ∧ timeouts st' !! h0 = None)
  ∧ clock st' = clock st ∧ next_handle st' = Pos.succ (next_handle st).
Proof.
  intros C. cbv zeta.
  pose proof (coherent_scheduleNotification granted id title body delay onClick st C)
    as C'.
  rewrite scheduleNotification_granted in *. simpl.
  assert (pending
    {| clock := clock st; hasNotification := hasNotification st;
       next_handle := Pos.succ (next_handle st);
       timeouts := <[next_handle st :=
                      {| t_due := clock st + host_delay delay; t_delay := delay;
                         t_action := FireReminder granted id title body onClick |}]>
                   (without_existing id st);
       intervals := intervals st; shown := shown st;
       checkIntervalRef := checkIntervalRef st;
       notificationTimeoutsRef := <[id := next_handle st]> (notificationTimeoutsRef st) |}
    id (next_handle st) delay) as Hp.
  { eexists. simpl. rewrite lookup_insert_eq. split; [done|]. done. }
  split; [by rewrite lookup_insert_eq|]. split; [exact Hp|]. split; [|split; [|done]].
  - intros h d Hp'. by apply (coherent_pending_unique _ id _ _ _ _ C' Hp' Hp).
  - intros h0 H0. destruct (coh_registered _ C id h0 H0) as (t & Ht & _).
    pose proof (coh_fresh_timeouts _ C h0 (ex_intro _ t Ht)) as Hlt.
    split; [lia|]. rewrite lookup_insert_ne by lia.
    unfold without_existing. rewrite H0. apply lookup_delete_eq.
Qed.

(** C2 (amended). The registry holds at most one pending timer per item,
    at all times: in every state reachable from a reachable state, the
    pending reminder timers of an item are exactly its one registered
    timer.  Scheduling for an item that has a pending timer clears the old
    handle and installs the new one.  Two successive
    [scheduleRevisionReminder] calls for one item whose instants both lie
    within the 7 day horizon leave exactly one pending timer for it, the
    second one with the second delay, and the host can never run the
    first.  A second call whose instant is more than 7 days away does not
    reach [scheduleNotification] and leaves the state, with the first
    timer, as it is; a second call whose instant has passed surfaces the
    overdue notification and leaves the registry and the item's pending
    timer as they are.  After a reminder timer fires, and after
    [cancelNotification], the registry has no entry for the item. *)
Theorem registry_one_timer_per_item (id title1 title2 : string) (v1 v2 : jsval)
    (t1 t2 : Z) (st : state) :
  reachable parseDate st →
  getTime parseDate v1 = Some t1 → (0 < t1 - clock st ≤ 7 * day)%Z →
  getTime parseDate v2 = Some t2 → (0 < t2 - clock st ≤ 7 * day)%Z →
  let st1 := scheduleRevisionReminder parseDate granted id title1 v1 st in
  let st2 := scheduleRevisionReminder parseDate granted id title2 v2 st1 in
  (∀ tr s, run_trace parseDate tr st = Some s →
     ∀ id' h d, pending s id' h d →
       notificationTimeoutsRef s !! id' = Some h
       ∧ ∀ h' d', pending s id' h' d' → h' = h ∧ d' = d)
  ∧ (∀ h0 title body delay onClick,
       notificationTimeoutsRef st !! id = Some h0 →
       let st' := scheduleNotification granted id title body delay onClick st in
       timeouts st' !! h0 = None
       ∧ ∃ h, h ≠ h0 ∧ notificationTimeoutsRef st' !! id = Some h
              ∧ pending st' id h delay
              ∧ ∀ h' d', pending st' id h' d' → h' = h ∧ d' = delay)
  ∧ (∃ h1 h2,
       notificationTimeoutsRef st1 !! id = Some h1
       ∧ pending st1 id h1 (t1 - clock st)
       ∧ notificationTimeoutsRef st2 !! id = Some h2
       ∧ pending st2 id h2 (t2 - clock st)
       ∧ (∀ h d, pending st2 id h d → h = h2 ∧ d = (t2 - clock st)%Z)
       ∧ h1 ≠ h2
       ∧ ∀ tr, run_trace parseDate (tr ++ [TimeoutFires h1]) st2 = None)
  ∧ notificationTimeoutsRef (cancelNotification id st) !! id = None
  ∧ (∀ h t st', timeouts st !! h = Some t → action_id (t_action t) = Some id →
       run parseDate (TimeoutFires h) st = Some st' →
       notificationTimeoutsRef st' !! id = None ∧ ∀ h' d', ¬ pending st' id h' d')
  ∧ (∀ title v t, getTime parseDate v = Some t → (7 * day < t - clock st1)%Z →
       scheduleRevisionReminder parseDate granted id title v st1 = st1)
  ∧ (∀ title v t, getTime parseDate v = Some t → (t - clock st1 ≤ 0)%Z →
       let st2 := scheduleRevisionReminder parseDate granted id title v st1 in
       notificationTimeoutsRef st2 = notificationTimeoutsRef st1
       ∧ ∀ h d, pending st2 id h d ↔ pending st1 id h d).
Proof.
  intros R Hv1 [Hpos1 Hle1] Hv2 [Hpos2 Hle2]. cbv zeta.
  pose proof (reachable_coherent parseDate st R) as C.
  split; [|split; [|split; [|split; [|split; [|split]]]]].
  - intros tr s Htr id' h d Hp.
    pose proof (coherent_run_trace parseDate tr st s C Htr) as Cs.
    split.
    + destruct Hp as (t & Ht & Ha & _). by apply (coh_pending _ Cs h t).
    + intros h' d' Hp'. by apply (coherent_pending_unique s id').
  - intros h0 title body delay onClick H0.
    destruct (scheduleNotification_replaces id title body delay onClick st C)
      as (Hreg & Hp & Huniq & Hold & _).
    destruct (Hold h0 H0) as [Hne Hgone].
    split; [exact Hgone|]. exists (next_handle st).
    split; [congruence|]. split; [exact Hreg|]. split; [exact Hp | exact Huniq].
  - rewrite (scheduleRevisionReminder_definite _ _ _ _ _ _ Hv1).
    rewrite horizon_week.
    rewrite (proj2 (Z.leb_gt _ _)) by lia. rewrite (proj2 (Z.leb_le _ _)) by lia.
    destruct (scheduleNotification_replaces id reminder_title
                ("📚 Time to review: " +:+ dquote +:+ title1 +:+ dquote)
                (t1 - clock st) (Some (LogClicked id)) st C)
      as (Hreg1 & Hp1 & _ & _ & Hclock & Hnext).
    pose proof (coherent_scheduleNotification granted id reminder_title
                ("📚 Time to review: " +:+ dquote +:+ title1 +:+ dquote)
                (t1 - clock st) (Some (LogClicked id)) st C) as C1.
    set (st1 := scheduleNotification granted id reminder_title _ (t1 - clock st) _ st) in *.
    rewrite (scheduleRevisionReminder_definite _ _ _ _ _ _ Hv2).
    rewrite horizon_week, Hclock.
    rewrite (proj2 (Z.leb_gt _ _)) by lia. rewrite (proj2 (Z.leb_le _ _)) by lia.
    destruct (scheduleNotification_replaces id reminder_title
                ("📚 Time to review: " +:+ dquote +:+ title2 +:+ dquote)
                (t2 - clock st) (Some (LogClicked id)) st1 C1)
      as (Hreg2 & Hp2 & Huniq2 & Hold2 & _ & Hnext2).
    destruct (Hold2 _ Hreg1) as [Hne Hgone].
    exists (next_handle st), (next_handle st1).
    split; [exact Hreg1|]. split; [exact Hp1|]. split; [exact Hreg2|].
    split; [exact Hp2|]. split; [exact Huniq2|]. split; [exact Hne|].
    intros tr. apply free_handle_never_fires; [exact Hgone|].
    rewrite Hnext2, Hnext. lia.
  - unfold cancelNotification.
    destruct (notificationTimeoutsRef st !! id) as [h|] eqn:E; [|done].
    simpl. apply lookup_delete_eq.
  - intros h t st' Ht Ha. cbn [run]. rewrite Ht.
    destruct (t_due t <=? clock st)%Z; [|discriminate]. intros [= <-].
    pose proof (coherent_timeout_fires h t st C Ht) as C'.
    destruct (run_action_fields (t_action t) (clearTimeout h st))
      as (_ & _ & _ & _ & _ & _ & _ & _ & _ & Hreg).
    rewrite Ha in Hreg. simpl in Hreg.
    assert (notificationTimeoutsRef (run_action (t_action t) (clearTimeout h st)) !! id
            = None) as Hnone by (rewrite Hreg; apply lookup_delete_eq).
    split; [exact Hnone|].
    intros h' d' (t' & Ht' & Ha' & _).
    pose proof (coh_pending _ C' h' t' id Ht' Ha'). congruence.
  - intros title v t Hv Hfar.
    rewrite (scheduleRevisionReminder_definite _ _ _ _ _ _ Hv).
    rewrite horizon_week. unfold day, hour in *.
    rewrite (proj2 (Z.leb_gt _ _)) by lia.
    by rewrite (proj2 (Z.leb_gt _ _)) by lia.
  - intros title v t Hv Hdue.
    set (st1 := scheduleRevisionReminder parseDate granted id title1 v1 st) in *.
    assert (reachable parseDate st1) as R1
      by (by apply (reach_step parseDate (CallRemind granted id title1 v1) st)).
    pose proof (reachable_coherent parseDate st1 R1) as C1.
    rewrite (scheduleRevisionReminder_definite _ _ _ _ _ _ Hv).
    rewrite (proj2 (Z.leb_le _ _)) by done.
    match goal with
    | |- context [showNotification ?p ?a ?b ?o ?s] =>
        destruct (showNotification_emits p a b o s) as [ns E]
    end.
    split; [exact (em_registry _ _ _ E)|].
    intros h d. split; intros (t' & Ht' & Ha' & Hd'); exists t'.
    + destruct (em_new _ _ _ E h t' Ht') as [H|(_ & _ & Hnone)];
        [done | congruence].
    + rewrite (em_old _ _ _ E h); [done|].
      exact (coh_fresh_timeouts _ C1 h (ex_intro _ t' Ht')).
Qed.

Lemma checkOverdueItems_denied (p : NotificationPermission)
    (items : list RevisionItem) (st : state) :
  p ≠ granted →
  checkOverdueItems parseDate p items st =
  (List.filter (isOverdue parseDate (clock st)) items, st).
Proof.
  intros Hp. unfold checkOverdueItems. by rewrite notifyOverdue_fold_denied.
Qed.

(** One evaluation of the item set surfaces [surfaced] and nothing else. *)
Lemma checkOverdueItems_surfaced (p : NotificationPermission)
    (items : list RevisionItem) (st : state) :
  emits st (checkOverdueItems parseDate p items st).2
    (surfaced parseDate p (hasNotification st) (clock st) items).
Proof.
  unfold surfaced. destruct (decide (p = granted)) as [->|Hp].
  - destruct (hasNotification st) eqn:Hn; simpl.
    + by apply notifyOverdue_fold_granted.
    + assert (∀ l s, hasNotification s = false → foldl (notifyOverdue granted) s l = s)
        as Hfold.
      { induction l as [|x l IH]; intros s Hs; simpl; [done|].
        unfold notifyOverdue at 2. unfold showNotification. rewrite Hs. simpl.
        by apply IH. }
      rewrite Hfold by done. apply emits_nil.
  - rewrite checkOverdueItems_denied by done.
    rewrite bool_decide_eq_false_2 by done. apply emits_nil.
Qed.

(** C3 (amended). When the permission a function captured is not
    'granted', [showNotification], [scheduleNotification],
    [scheduleRevisionReminder] and [checkOverdueItems] leave the whole
    state as it was: no timer, no notification, no registry entry.
    [startPeriodicCheck] surfaces nothing and leaves the timer registry and
    the pending timers alone, but it does arm its periodic tick and store
    the handle; every tick of a sweeper armed without permission surfaces
    nothing either. *)
Theorem ungranted_calls_are_silent (p : NotificationPermission) (st : state) :
  p ≠ granted →
  (∀ title body o, showNotification p title body o st = (None, st))
  ∧ (∀ id title body delay onClick,
       scheduleNotification p id title body delay onClick st = st)
  ∧ (∀ itemId itemTitle v,
       scheduleRevisionReminder parseDate p itemId itemTitle v st = st)
  ∧ (∀ items, (checkOverdueItems parseDate p items st).2 = st)
  ∧ (∀ items,
       let st' := startPeriodicCheck parseDate p items st in
       shown st' = shown st ∧ timeouts st' = timeouts st
       ∧ notificationTimeoutsRef st' = notificationTimeoutsRef st
       ∧ checkIntervalRef st' = Some (next_handle st)
       ∧ intervals st' !! next_handle st =
           Some {| i_next := clock st + sweep_period; i_period := sweep_period;
                   i_perm := p; i_items := items |})
  ∧ (∀ s h i s', intervals s !! h = Some i → i_perm i = p →
       run parseDate (IntervalTicks h) s = Some s' →
       shown s' = shown s ∧ timeouts s' = timeouts s
       ∧ notificationTimeoutsRef s' = notificationTimeoutsRef s).
Proof.
  intros Hp. split; [|split; [|split; [|split; [|split]]]].
  - intros. by apply showNotification_denied.
  - intros. by apply scheduleNotification_denied.
  - intros itemId itemTitle v. unfold scheduleRevisionReminder.
    rewrite showNotification_denied, scheduleNotification_denied by done.
    by repeat case_match.
  - intros items. by rewrite checkOverdueItems_denied.
  - intros items. cbv zeta. rewrite startPeriodicCheck_unfold. cbv zeta.
    rewrite checkOverdueItems_denied by done. cbn [snd].
    destruct (checkIntervalRef st) as [h0|]; simpl;
      rewrite lookup_insert_eq; by repeat split.
  - intros s h i s' Hi Hperm. cbn [run]. rewrite Hi.
    destruct (i_next i <=? clock s)%Z; [|discriminate].
    rewrite checkOverdueItems_denied by congruence. by intros [= <-].
Qed.

(** C4 (amended). An item whose next-review value is absent or
    unparseable is not treated as due.  The overdue check never selects
    it, so the check gives the same result and the same state with or
    without it.  [scheduleRevisionReminder] does nothing at all for an
    undefined, empty or unparseable value: its time is [NaN] and both
    comparisons fail.  Only [null], which the date constructor reads as the
    epoch, makes it surface the reminder at once, with no registry entry. *)
Theorem malformed_next_review_is_skipped (p : NotificationPermission)
    (item : RevisionItem) (st : state) :
  nextReviewInstant parseDate item = None →
  (∀ now, isOverdue parseDate now item = false)
  ∧ (∀ items, item ∉ (checkOverdueItems parseDate p items st).1)
  ∧ (∀ items, checkOverdueItems parseDate p (item :: items) st
              = checkOverdueItems parseDate p items st)
  ∧ (next_review item ≠ JNull →
       scheduleRevisionReminder parseDate p (item_id item) (item_title item)
         (next_review item) st = st)
  ∧ (next_review item = JNull → (0 ≤ clock st)%Z → hasNotification st = true →
       emits st
         (scheduleRevisionReminder parseDate granted (item_id item) (item_title item)
            (next_review item) st)
         [overdue_reminder (item_id item) (item_title item)]).
Proof.
  intros Hnone.
  assert (∀ now, isOverdue parseDate now item = false) as Hnot.
  { intros now. destruct (isOverdue parseDate now item) eqn:E; [|done].
    apply isOverdue_spec in E as (t & Ht & _). congruence. }
  split; [exact Hnot|]. split; [|split; [|split]].
  - intros items Hin. unfold checkOverdueItems in Hin. simpl in Hin.
    apply list_elem_of_In, filter_In in Hin as [_ Hin]. by rewrite Hnot in Hin.
  - intros items. unfold checkOverdueItems. simpl. by rewrite Hnot.
  - intros Hnn. apply scheduleRevisionReminder_NaN.
    unfold nextReviewInstant in Hnone. unfold getTime.
    by destruct (next_review item).
  - intros Hnull Hclock Hn. rewrite Hnull.
    rewrite (scheduleRevisionReminder_definite _ _ _ JNull 0 _) by done.
    rewrite (proj2 (Z.leb_le _ _)) by lia.
    by apply showNotification_granted.
Qed.

Lemma no_sweeper_no_tick (tr : list event) (h : positive) (st : state) :
  intervals st = ∅ → Forall (λ e, is_start e = false) tr →
  run_trace parseDate (tr ++ [IntervalTicks h]) st = None.
Proof.
  revert st. induction tr as [|e tr IH]; intros st Hempty Hall; simpl.
  - by rewrite Hempty, lookup_empty.
  - destruct (run parseDate e st) as [st1|] eqn:Hrun; [|done].
    apply Forall_cons in Hall as [He Hall].
    apply IH; [|done]. by eapply run_keeps_no_sweeper.
Qed.

(** C5. In every reachable state, after [stopAllNotifications] the count
    of scheduled notifications is 0; every timer that was registered is
    gone from the host's queue and no later run of the event loop fires
    it; no reminder timer is pending at all (what stays in the queue are
    the auto-close timers of notifications already shown); no sweeper is
    armed, and the host runs no sweep tick in any continuation that does
    not call [startPeriodicCheck] again. *)
Theorem stopAllNotifications_releases_everything (st : state) :
  reachable parseDate st →
  let st' := stopAllNotifications st in
  getScheduledCount st' = 0
  ∧ (∀ id h, notificationTimeoutsRef st !! id = Some h →
       timeouts st' !! h = None
       ∧ ∀ tr, run_trace parseDate (tr ++ [TimeoutFires h]) st' = None)
  ∧ (∀ id h d, ¬ pending st' id h d)
  ∧ intervals st' = ∅ ∧ checkIntervalRef st' = None
  ∧ (∀ tr h, Forall (λ e, is_start e = false) tr →
       run_trace parseDate (tr ++ [IntervalTicks h]) st' = None).
Proof.
  intros R. cbv zeta.
  pose proof (reachable_coherent parseDate st R) as C.
  pose proof (coherent_stopAllNotifications st C) as C'.
  destruct (stopChecking_intervals st C) as [Hi Hr].
  destruct (stopAllNotifications_spec st) as (ts & Heq & Hts).
  rewrite Heq in *.
  assert (next_handle (stopChecking st) = next_handle st) as Hn.
  { unfold stopChecking. by destruct (checkIntervalRef st). }
  split; [|split; [|split; [|split; [|split]]]].
  - unfold getScheduledCount. simpl. apply map_size_empty.
  - intros id h Hreg.
    assert (ts !! h = None) as Hgone.
    { destruct (ts !! h) as [t|] eqn:E; [|done].
      apply Hts in E as [_ Hnot]. by destruct (Hnot id). }
    split; [exact Hgone|]. intros tr.
    apply free_handle_never_fires; [exact Hgone|]. simpl. rewrite Hn.
    destruct (coh_registered _ C id h Hreg) as (t & Ht & _).
    apply (coh_fresh_timeouts _ C). eauto.
  - intros id h d (t & Ht & Ha & _).
    pose proof (coh_pending _ C' h t id Ht Ha) as H. simpl in H.
    by rewrite lookup_empty in H.
  - exact Hi.
  - exact Hr.
  - intros tr h Hall. by apply no_sweeper_no_tick.
Qed.

(** A tick of an armed sweeper runs the evaluation on the items it
    captured and stays armed with the same period. *)
Lemma interval_tick (h : positive) (i : interval_entry) (s : state) :
  intervals s !! h = Some i → (i_next i ≤ clock s)%Z →
  ∃ s', run parseDate (IntervalTicks h) s = Some s'
        ∧ s' = (checkOverdueItems parseDate (i_perm i) (i_items i) (rearm h i s)).2
        ∧ shown s' = shown s
                     ++ surfaced parseDate (i_perm i) (hasNotification s) (clock s) (i_items i)
        ∧ intervals s' !! h =
            Some {| i_next := i_next i + i_period i; i_period := i_period i;
                    i_perm := i_perm i; i_items := i_items i |}.
Proof.
  intros Hi Hdue. eexists. cbn [run]. rewrite Hi.
  rewrite (proj2 (Z.leb_le _ _)) by done. split; [done|]. split; [done|].
  pose proof (checkOverdueItems_surfaced (i_perm i) (i_items i) (rearm h i s)) as E.
  split.
  - by rewrite (em_shown _ _ _ E).
  - rewrite (em_intervals _ _ _ E). simpl. apply lookup_insert_eq.
Qed.

(** C6. At most one sweeper is armed at any time.  [startPeriodicCheck]
    clears the sweeper the reference names, evaluates the item set once at
    the moment of the call, and arms one periodic tick with a period of
    5 minutes, which is then the only interval of the host; each tick
    repeats the evaluation on the same items and stays armed; the
    clean-up function it returns leaves no interval, so no tick follows
    until [startPeriodicCheck] is called again. *)
Theorem startPeriodicCheck_single_sweeper (p : NotificationPermission)
    (items : list RevisionItem) (st : state) :
  reachable parseDate st →
  let st' := startPeriodicCheck parseDate p items st in
  (∀ tr s, run_trace parseDate tr st = Some s →
     ∀ h1 h2, is_Some (intervals s !! h1) → is_Some (intervals s !! h2) → h1 = h2)
  ∧ (∀ h0, checkIntervalRef st = Some h0 → intervals st' !! h0 = None)
  ∧ shown st' = shown st ++ surfaced parseDate p (hasNotification st) (clock st) items
  ∧ notificationTimeoutsRef st' = notificationTimeoutsRef st
  ∧ (∃ h, checkIntervalRef st' = Some h
        ∧ intervals st' =
            {[ h := {| i_next := clock st + 5 * 60 * 1000; i_period := 5 * 60 * 1000;
                       i_perm := p; i_items := items |} ]})
  ∧ (∀ s h i, intervals s !! h = Some i → (i_next i ≤ clock s)%Z →
       ∃ s', run parseDate (IntervalTicks h) s = Some s'
             ∧ s' = (checkOverdueItems parseDate (i_perm i) (i_items i) (rearm h i s)).2
             ∧ shown s' = shown s ++ surfaced parseDate (i_perm i) (hasNotification s)
                                       (clock s) (i_items i)
             ∧ intervals s' !! h =
                 Some {| i_next := i_next i + i_period i; i_period := i_period i;
                         i_perm := i_perm i; i_items := i_items i |})
  ∧ intervals (stopChecking st') = ∅
  ∧ checkIntervalRef (stopChecking st') = None
  ∧ (∀ tr h, Forall (λ e, is_start e = false) tr →
       run_trace parseDate (tr ++ [IntervalTicks h]) (stopChecking st') = None).
Proof.
  intros R. cbv zeta.
  pose proof (reachable_coherent parseDate st R) as C.
  pose proof (coherent_startPeriodicCheck parseDate p items st C) as C'.
  destruct (stopChecking_intervals _ C') as [Hi' Hr'].
  split; [|split; [|split; [|split; [|split; [|split; [|split; [|split]]]]]]].
  - intros tr s Htr h1 h2 H1 H2.
    pose proof (coherent_run_trace parseDate tr st s C Htr) as Cs.
    apply (coh_sweeper _ Cs) in H1, H2. congruence.
  - intros h0 H0.
    destruct (intervals (startPeriodicCheck parseDate p items st) !! h0) eqn:E; [|done].
    assert (checkIntervalRef (startPeriodicCheck parseDate p items st) = Some h0) as Href
      by (apply (coh_sweeper _ C'); eauto).
    pose proof (startPeriodicCheck_grows parseDate p items st) as G.
    assert ((h0 < next_handle st)%positive) as Hlt.
    { apply (coh_fresh_intervals _ C), (coh_sweeper _ C), H0. }
    rewrite startPeriodicCheck_unfold in Href. cbv zeta in Href. simpl in Href.
    injection Href as Href.
    set (st1 := match checkIntervalRef st with
                | Some h => clearInterval h st
                | None => st
                end) in *.
    destruct (checkOverdueItems_emits parseDate p items st1) as [ns E1].
    pose proof (em_counter _ _ _ E1) as Hc.
    assert (next_handle st1 = next_handle st) as Hn
      by (unfold st1; by destruct (checkIntervalRef st)).
    unfold checkOverdueItems in Hc. simpl in Hc. lia.
  - set (st1 := match checkIntervalRef st with
                | Some h => clearInterval h st
                | None => st
                end).
    pose proof (checkOverdueItems_surfaced p items st1) as E1.
    assert (shown st1 = shown st ∧ hasNotification st1 = hasNotification st
            ∧ clock st1 = clock st) as (Hs & Hh & Hc)
      by (unfold st1; by destruct (checkIntervalRef st)).
    change (shown (startPeriodicCheck parseDate p items st))
      with (shown (checkOverdueItems parseDate p items st1).2).
    by rewrite (em_shown _ _ _ E1), Hs, Hh, Hc.
  - set (st1 := match checkIntervalRef st with
                | Some h => clearInterval h st
                | None => st
                end).
    pose proof (checkOverdueItems_surfaced p items st1) as E1.
    change (notificationTimeoutsRef (startPeriodicCheck parseDate p items st))
      with (notificationTimeoutsRef (checkOverdueItems parseDate p items st1).2).
    rewrite (em_registry _ _ _ E1). unfold st1. by destruct (checkIntervalRef st).
  - rewrite startPeriodicCheck_unfold. cbv zeta.
    pose proof (sweeper_cleared st C) as Hempty.
    set (st1 := match checkIntervalRef st with
                | Some h => clearInterval h st
                | None => st
                end) in *.
    destruct (checkOverdueItems_emits parseDate p items st1) as [ns E1].
    set (st2 := (checkOverdueItems parseDate p items st1).2) in *.
    exists (next_handle st2). simpl. split; [done|].
    rewrite (em_intervals _ _ _ E1), Hempty, (em_clock _ _ _ E1).
    assert (clock st1 = clock st) as -> by (unfold st1; by destruct (checkIntervalRef st)).
    by rewrite insert_empty.
  - intros s h i. apply interval_tick.
  - exact Hi'.
  - exact Hr'.
  - intros tr h Hall. by apply no_sweeper_no_tick.
Qed.

(** C7. The interval [handleReview] looks up for a non-negative review
    count is the table entry at [min(reviewCount, len(table) - 1)] of the
    table {1h, 1d, 3d, 1w, 2w}; the lookup always succeeds, and gives 1h
    for 0, 1w for 3 and 2w for 10. *)
Theorem nextInterval_clamps (reviewCount : Z) :
  (0 ≤ reviewCount)%Z →
  nextInterval (Some reviewCount) = nextDelay (Z.to_nat reviewCount)
  ∧ nextDelay (Z.to_nat reviewCount)
    = table !! (Z.to_nat reviewCount `min` (length table - 1))
  ∧ is_Some (nextInterval (Some reviewCount))
  ∧ nextInterval (Some 0%Z) = Some hour
  ∧ nextInterval (Some 3%Z) = Some week
  ∧ nextInterval (Some 10%Z) = Some (2 * week)%Z.
Proof.
  intros Hnn.
  assert (nextInterval (Some reviewCount) = nextDelay (Z.to_nat reviewCount)) as Heq.
  { assert (reviewCount = 0 ∨ reviewCount = 1 ∨ reviewCount = 2 ∨ reviewCount = 3
            ∨ 4 ≤ reviewCount)%Z as [->|[->|[->|[->|Hbig]]]] by lia;
      try reflexivity.
    unfold nextInterval, nextDelay, count_or_zero.
    rewrite (proj2 (Z.eqb_neq _ _)) by lia.
    change (Z.of_nat (length intervals_table) - 1)%Z with 4%Z.
    change (length table - 1) with 4.
    rewrite Z.min_r by lia. rewrite Nat.min_r by lia. reflexivity. }
  split; [exact Heq|]. split; [reflexivity|]. split; [|by repeat split].
  rewrite Heq. unfold nextDelay. apply lookup_lt_is_Some.
  change (length table) with 5. lia.
Qed.

Lemma isOverdue_is_due (now : Z) (item : RevisionItem) :
  isOverdue parseDate now item = is_due parseDate now item.
Proof.
  unfold isOverdue, is_due, nextReviewInstant, truthy, getTime.
  destruct (next_review item) as [| |s]; try done.
  case_bool_decide; [done|]. simpl. by destruct (parseDate s).
Qed.

(** C8 (what the code does at the scenario).  An item with review count 0
    is reviewed now, permission granted, and the stored procedure returns
    the row with the date it was given.  [handleReview] does look up 1h in
    its table, but its own call of [scheduleRevisionReminder] passes the
    title and the interval where the id, the title and the date belong:
    the date is missing and the call changes nothing.  The date
    [markAsReviewed] stores is now + 24h, and the one timer pending for the
    item afterwards has a delay of 24h, not 1h. *)
Theorem handleReview_first_review_schedules_a_day (toISOString : Z → string)
    (increment_review_count : string → string → option RevisionItem)
    (item data : RevisionItem) (stItems stOwn : state) :
  reachable parseDate stItems →
  review_count item = Some 0%Z →
  increment_review_count (item_id item) (toISOString (clock stItems + day_ms)%Z)
    = Some data →
  next_review data = JString (toISOString (clock stItems + day_ms)%Z) →
  toISOString (clock stItems + day_ms)%Z ≠ EmptyString →
  parseDate (toISOString (clock stItems + day_ms)%Z) = Some (clock stItems + day_ms)%Z →
  let after := handleReview parseDate toISOString increment_review_count
                 granted granted item stItems stOwn in
  nextInterval (review_count item) = Some hour
  ∧ after.2 = stOwn
  ∧ nextReviewInstant parseDate data = Some (clock stItems + 24 * hour)%Z
  ∧ ∃ h, notificationTimeoutsRef after.1 !! item_id data = Some h
         ∧ pending after.1 (item_id data) h (24 * hour)%Z
         ∧ ∀ h' d', pending after.1 (item_id data) h' d' → d' ≠ hour.
Proof.
  intros R Hcount Hrpc Hnext Hne Hparse. cbv zeta.
  pose proof (reachable_coherent parseDate stItems R) as C.
  assert (getTime parseDate (next_review data) = Some (clock stItems + day_ms)%Z) as Ht.
  { rewrite Hnext. unfold getTime. by rewrite bool_decide_eq_false_2. }
  unfold handleReview, markAsReviewed. rewrite Hrpc. simpl.
  split; [by rewrite Hcount|]. split; [by apply scheduleRevisionReminder_NaN|].
  split.
  { unfold nextReviewInstant. rewrite Hnext.
    by rewrite bool_decide_eq_false_2. }
  rewrite (scheduleRevisionReminder_definite _ _ _ _ _ _ Ht).
  replace (clock stItems + day_ms - clock stItems)%Z with day_ms by lia.
  change (day_ms <=? 0)%Z with false. change (day_ms <=? horizon)%Z with true.
  cbv iota.
  destruct (scheduleNotification_replaces (item_id data) reminder_title
              ("📚 Time to review: " +:+ dquote +:+ item_title data +:+ dquote)
              day_ms (Some (LogClicked (item_id data))) stItems C)
    as (Hreg & Hp & Huniq & _).
  exists (next_handle stItems). split; [exact Hreg|]. split; [exact Hp|].
  intros h' d' Hp'. destruct (Huniq h' d' Hp') as [_ ->]. done.
Qed.

(** C9. With permission granted, [checkOverdueItems] returns exactly the
    items whose next-review instant is present and not after the current
    time, in their order, and surfaces one alert per returned item, tagged
    with the item's id, and nothing else.  For the single item B whose
    instant is 10 minutes ago it returns [B] and surfaces the one alert
    tagged with B's id. *)
Theorem checkOverdueItems_returns_overdue (items : list RevisionItem) (st : state) :
  hasNotification st = true →
  let overdueItems := (checkOverdueItems parseDate granted items st).1 in
  let st' := (checkOverdueItems parseDate granted items st).2 in
  overdueItems = List.filter (is_due parseDate (clock st)) items
  ∧ (∀ item, item ∈ overdueItems ↔
       item ∈ items ∧ ∃ t, nextReviewInstant parseDate item = Some t ∧ (t ≤ clock st)%Z)
  ∧ emits st st' (overdue_alert <$> overdueItems)
  ∧ n_tag <$> (overdue_alert <$> overdueItems) = item_id <$> overdueItems
  ∧ (∀ B, items = [B] →
       nextReviewInstant parseDate B = Some (clock st - 10 * 60 * 1000)%Z →
       overdueItems = [B] ∧ shown st' = shown st ++ [overdue_alert B]
       ∧ n_tag (overdue_alert B) = item_id B).
Proof.
  intros Hn. cbv zeta. unfold checkOverdueItems. cbn [fst snd].
  pose proof (notifyOverdue_fold_granted
                (List.filter (isOverdue parseDate (clock st)) items) st Hn) as E.
  split; [|split; [|split; [|split]]].
  - apply List.filter_ext. intros item. apply isOverdue_is_due.
  - intros item. rewrite !list_elem_of_In, filter_In, isOverdue_spec. done.
  - exact E.
  - rewrite <- list_fmap_compose. done.
  - intros B -> HB.
    assert (isOverdue parseDate (clock st) B = true) as HO.
    { apply isOverdue_spec. eexists. split; [exact HB | lia]. }
    simpl in *. rewrite HO in *. simpl in *.
    split; [done|]. split; [apply E | done].
Qed.

(** C10. What [checkOverdueItems] returns does not depend on the
    permission: two runs on the same items at the same clock reading return
    the same list, whatever the two permissions and whatever else differs
    between the two states; the list is the filter of the items by the
    clock reading.  Only the emissions differ: a run without permission
    leaves its state unchanged, a run with permission surfaces its
    alerts. *)
Theorem checkOverdueItems_result_ignores_permission (p1 p2 : NotificationPermission)
    (items : list RevisionItem) (st1 st2 : state) :
  clock st1 = clock st2 →
  (checkOverdueItems parseDate p1 items st1).1 = (checkOverdueItems parseDate p2 items st2).1
  ∧ (checkOverdueItems parseDate p1 items st1).1
    = List.filter (is_due parseDate (clock st1)) items
  ∧ (p2 ≠ granted → (checkOverdueItems parseDate p2 items st2).2 = st2)
  ∧ emits st1 (checkOverdueItems parseDate p1 items st1).2
      (surfaced parseDate p1 (hasNotification st1) (clock st1) items).
Proof.
  intros Hclock. split; [|split; [|split]].
  - unfold checkOverdueItems. simpl. by rewrite Hclock.
  - unfold checkOverdueItems. simpl.
    apply List.filter_ext. intros item. apply isOverdue_is_due.
  - intros Hp. by rewrite checkOverdueItems_denied.
  - apply checkOverdueItems_surfaced.
Qed.

End Claims.

(** * The claims on the sample host *)

Lemma sample_busy_reachable : reachable sample_parseDate sample_busy.
Proof.
  apply (reach_step sample_parseDate
           (CallStart granted [sample_overdue_item])
           (scheduleRevisionReminder sample_parseDate granted "a" "Optics"
              (JString "2025-09-05T10:00:00.000Z") sample_mounted));
    [|reflexivity].
  apply (reach_step sample_parseDate
           (CallRemind granted "a" "Optics" (JString "2025-09-05T10:00:00.000Z"))
           sample_mounted); [|reflexivity].
  apply reach_init.
Qed.

(** C1 on the sample host: a reminder due in one hour is registered. *)
Lemma scheduleRevisionReminder_three_way_witness :
  reachable sample_parseDate sample_mounted
  ∧ hasNotification sample_mounted = true
  ∧ getTime sample_parseDate (JString "2025-09-05T10:00:00.000Z") = Some 1757066400000%Z
  ∧ ∃ h, notificationTimeoutsRef
           (scheduleRevisionReminder sample_parseDate granted "a" "Optics"
              (JString "2025-09-05T10:00:00.000Z") sample_mounted) !! "a" = Some h
         ∧ ∀ h' d', pending
                      (scheduleRevisionReminder sample_parseDate granted "a" "Optics"
                         (JString "2025-09-05T10:00:00.000Z") sample_mounted)
                      "a" h' d' → h' = h ∧ d' = 3600000%Z.
Proof.
  split; [apply reach_init|]. split; [reflexivity|]. split; [reflexivity|].
  destruct (scheduleRevisionReminder_three_way sample_parseDate "a" "Optics"
              (JString "2025-09-05T10:00:00.000Z") 1757066400000 sample_mounted
              (reach_init _ _ _) eq_refl eq_refl) as (_ & H & _).
  destruct H as (_ & h & Hreg & _ & Huniq).
  - vm_compute. split; [reflexivity | discriminate].
  - exists h. split; [exact Hreg | exact Huniq].
Defined.

(** C2 (amended) on the sample host: rescheduling item ["a"] from 10:00 to
    11:00. *)
Lemma registry_one_timer_per_item_witness :
  reachable sample_parseDate sample_mounted
  ∧ getTime sample_parseDate (JString "2025-09-05T10:00:00.000Z") = Some 1757066400000%Z
  ∧ (0 < 1757066400000 - clock sample_mounted ≤ 7 * day)%Z
  ∧ getTime sample_parseDate (JString "2025-09-05T11:00:00.000Z") = Some 1757070000000%Z
  ∧ (0 < 1757070000000 - clock sample_mounted ≤ 7 * day)%Z
  ∧ ∃ h1 h2,
      h1 ≠ h2
      ∧ pending
          (scheduleRevisionReminder sample_parseDate granted "a" "Optics"
             (JString "2025-09-05T11:00:00.000Z")
             (scheduleRevisionReminder sample_parseDate granted "a" "Optics"
                (JString "2025-09-05T10:00:00.000Z") sample_mounted))
          "a" h2 (1757070000000 - clock sample_mounted)
      ∧ ∀ tr, run_trace sample_parseDate (tr ++ [TimeoutFires h1])
                (scheduleRevisionReminder sample_parseDate granted "a" "Optics"
                   (JString "2025-09-05T11:00:00.000Z")
                   (scheduleRevisionReminder sample_parseDate granted "a" "Optics"
                      (JString "2025-09-05T10:00:00.000Z") sample_mounted)) = None.
Proof.
  assert (0 < 1757066400000 - clock sample_mounted ≤ 7 * day)%Z as H1
    by (vm_compute; split; [reflexivity | discriminate]).
  assert (0 < 1757070000000 - clock sample_mounted ≤ 7 * day)%Z as H2
    by (vm_compute; split; [reflexivity | discriminate]).
  split; [apply reach_init|]. split; [reflexivity|]. split; [exact H1|].
  split; [reflexivity|]. split; [exact H2|].
  destruct (registry_one_timer_per_item sample_parseDate "a" "Optics" "Optics"
              (JString "2025-09-05T10:00:00.000Z") (JString "2025-09-05T11:00:00.000Z")
              1757066400000 1757070000000 sample_mounted
              (reach_init _ _ _) eq_refl H1 eq_refl H2)
    as (_ & _ & (h1 & h2 & _ & _ & _ & Hp & _ & Hne & Hnever) & _).
  exists h1, h2. split; [exact Hne|]. split; [exact Hp | exact Hnever].
Defined.

(** C2 as stated fails for a second call outside the 7 day horizon.  Item
    ["a"] has a reminder pending with a delay of one hour.  A second
    [scheduleRevisionReminder] call with a date 15 days ahead, a delay of
    1296000000 ms, changes nothing: the first timer is still the one
    pending, no timer has the second delay, and an hour later the host runs
    the first action, which surfaces its notification.  A second call with
    a date that has passed surfaces the overdue notification and leaves the
    first timer registered and pending, and the host runs it as well. *)
Lemma reschedule_outside_horizon_keeps_first_timer :
  getTime sample_parseDate (JString "2025-09-20T09:00:00.000Z")
    = Some (clock sample_registered + 1296000000)%Z
  ∧ sample_rescheduled_far = sample_registered
  ∧ notificationTimeoutsRef sample_rescheduled_far !! "a" = Some 1%positive
  ∧ pending sample_rescheduled_far "a" 1%positive 3600000
  ∧ (∀ h d, pending sample_rescheduled_far "a" h d → d = 3600000%Z)
  ∧ (∃ st', run_trace sample_parseDate [Advance 3600000; TimeoutFires 1%positive]
              sample_rescheduled_far = Some st'
            ∧ shown st'
              = [fired_reminder "a" reminder_title
                   ("📚 Time to review: " +:+ dquote +:+ "Optics" +:+ dquote)
                   (Some (LogClicked "a"))])
  ∧ getTime sample_parseDate (JString "2025-09-05T08:50:00.000Z")
    = Some (clock sample_registered - 600000)%Z
  ∧ shown sample_rescheduled_overdue = [overdue_reminder "a" "Optics"]
  ∧ notificationTimeoutsRef sample_rescheduled_overdue !! "a" = Some 1%positive
  ∧ pending sample_rescheduled_overdue "a" 1%positive 3600000
  ∧ ∃ st', run_trace sample_parseDate [Advance 3600000; TimeoutFires 1%positive]
             sample_rescheduled_overdue = Some st'
           ∧ shown st'
             = [overdue_reminder "a" "Optics";
                fired_reminder "a" reminder_title
                  ("📚 Time to review: " +:+ dquote +:+ "Optics" +:+ dquote)
                  (Some (LogClicked "a"))].
Proof.
  assert (sample_rescheduled_far = sample_registered) as Hfar by reflexivity.
  split; [reflexivity|]. split; [exact Hfar|]. rewrite Hfar.
  split; [reflexivity|].
  split; [eexists; split; [reflexivity|]; by split|].
  split.
  { intros h d (t & Ht & Ha & Hd).
    destruct (decide (h = 1%positive)) as [->|Hne].
    - vm_compute in Ht. injection Ht as <-. by rewrite <- Hd.
    - assert (timeouts sample_registered !! h = None) as Hnone.
      { change (timeouts sample_registered)
          with (<[1%positive :=
                   {| t_due := 1757066400000; t_delay := 3600000;
                      t_action := FireReminder granted "a" reminder_title
                        ("📚 Time to review: " +:+ dquote +:+ "Optics" +:+ dquote)
                        (Some (LogClicked "a")) |}]>
                  (∅ : gmap positive timeout_entry)).
        rewrite lookup_insert_ne by done. apply lookup_empty. }
      congruence. }
  split; [eexists; split; reflexivity|].
  split; [reflexivity|]. split; [reflexivity|]. split; [reflexivity|].
  split; [eexists; split; [reflexivity|]; by split|].
  eexists; split; reflexivity.
Qed.

(** C3 as stated fails: without permission [startPeriodicCheck] still arms
    the periodic tick and stores its handle. *)
Lemma startPeriodicCheck_ungranted_arms_sweeper :
  denied ≠ granted
  ∧ checkIntervalRef sample_mounted = None
  ∧ intervals sample_mounted = ∅
  ∧ checkIntervalRef (startPeriodicCheck sample_parseDate denied [] sample_mounted)
    = Some 1%positive
  ∧ intervals (startPeriodicCheck sample_parseDate denied [] sample_mounted) !! 1%positive
    = Some {| i_next := sample_now + 300000; i_period := 300000;
              i_perm := denied; i_items := [] |}
  ∧ startPeriodicCheck sample_parseDate denied [] sample_mounted ≠ sample_mounted.
Proof.
  split; [discriminate|]. split; [reflexivity|]. split; [reflexivity|].
  split; [reflexivity|]. split; [reflexivity|].
  intros H. apply (f_equal checkIntervalRef) in H. discriminate H.
Qed.

(** C3 (amended) on the sample host, for a denied permission. *)
Lemma ungranted_calls_are_silent_witness :
  denied ≠ granted
  ∧ scheduleRevisionReminder sample_parseDate denied "a" "Optics"
      (JString "2025-09-05T10:00:00.000Z") sample_busy = sample_busy
  ∧ (checkOverdueItems sample_parseDate denied [sample_overdue_item] sample_busy).2
    = sample_busy.
Proof.
  assert (denied ≠ granted) as Hp by discriminate.
  destruct (ungranted_calls_are_silent sample_parseDate denied sample_busy Hp)
    as (_ & _ & Hremind & Hcheck & _).
  split; [exact Hp|]. split; [apply Hremind | apply Hcheck].
Defined.

(** C4 as stated fails: an unparseable date is dropped by both paths, and
    an absent one is not classified as overdue. *)
Lemma unparseable_next_review_is_dropped :
  sample_parseDate "next tuesday" = None
  ∧ scheduleRevisionReminder sample_parseDate granted "e" "Entropy"
      (JString "next tuesday") sample_mounted = sample_mounted
  ∧ checkOverdueItems sample_parseDate granted
      [sample_item "e" "Entropy" (JString "next tuesday") 0] sample_mounted
    = ([], sample_mounted)
  ∧ checkOverdueItems sample_parseDate granted
      [sample_item "n" "Nernst" JNull 0] sample_mounted
    = ([], sample_mounted)
  ∧ checkOverdueItems sample_parseDate granted
      [sample_item "u" "Units" JUndefined 0] sample_mounted
    = ([], sample_mounted).
Proof. repeat split; reflexivity. Qed.

(** C4 (amended) on the sample host, for the unparseable date. *)
Lemma malformed_next_review_is_skipped_witness :
  nextReviewInstant sample_parseDate
    (sample_item "e" "Entropy" (JString "next tuesday") 0) = None
  ∧ checkOverdueItems sample_parseDate granted
      [sample_item "e" "Entropy" (JString "next tuesday") 0; sample_overdue_item]
      sample_mounted
    = checkOverdueItems sample_parseDate granted [sample_overdue_item] sample_mounted.
Proof.
  split; [reflexivity|].
  destruct (malformed_next_review_is_skipped sample_parseDate granted
              (sample_item "e" "Entropy" (JString "next tuesday") 0) sample_mounted
              eq_refl) as (_ & _ & H & _).
  apply H.
Defined.

(** C5 on the sample host with a reminder and a sweeper in flight. *)
Lemma stopAllNotifications_releases_everything_witness :
  reachable sample_parseDate sample_busy
  ∧ getScheduledCount sample_busy = 1
  ∧ is_Some (checkIntervalRef sample_busy)
  ∧ getScheduledCount (stopAllNotifications sample_busy) = 0
  ∧ intervals (stopAllNotifications sample_busy) = ∅.
Proof.
  pose proof (stopAllNotifications_releases_everything sample_parseDate sample_busy
                sample_busy_reachable) as (Hcount & _ & _ & Hint & _).
  split; [exact sample_busy_reachable|]. split; [reflexivity|].
  split; [by eexists|]. split; [exact Hcount | exact Hint].
Defined.

(** C6 on the sample host: restarting the sweeper that is already armed. *)
Lemma startPeriodicCheck_single_sweeper_witness :
  reachable sample_parseDate sample_busy
  ∧ ∃ h, checkIntervalRef (startPeriodicCheck sample_parseDate granted
                             [sample_overdue_item] sample_busy) = Some h
         ∧ intervals (startPeriodicCheck sample_parseDate granted
                        [sample_overdue_item] sample_busy)
           = {[ h := {| i_next := clock sample_busy + 5 * 60 * 1000;
                        i_period := 5 * 60 * 1000;
                        i_perm := granted; i_items := [sample_overdue_item] |} ]}.
Proof.
  split; [exact sample_busy_reachable|].
  pose proof (startPeriodicCheck_single_sweeper sample_parseDate granted
                [sample_overdue_item] sample_busy sample_busy_reachable)
    as (_ & _ & _ & _ & H & _).
  exact H.
Defined.

(** C7 at review count 10. *)
Lemma nextInterval_clamps_witness :
  (0 ≤ 10)%Z ∧ nextInterval (Some 10%Z) = nextDelay (Z.to_nat 10)
  ∧ nextInterval (Some 10%Z) = Some 1209600000%Z.
Proof.
  assert (0 ≤ 10)%Z as H by lia.
  split; [exact H|]. split; [apply (nextInterval_clamps 10 H) | reflexivity].
Defined.

(** C8 on the sample host: the first review of item ["a"]. *)
Lemma handleReview_first_review_schedules_a_day_witness :
  reachable sample_parseDate sample_mounted
  ∧ (handleReview sample_parseDate sample_toISOString sample_increment_review_count
       granted granted
       (sample_item "a" "Optics" (JString "2025-09-05T09:00:00.000Z") 0)
       sample_mounted sample_mounted).2 = sample_mounted
  ∧ ∃ h, pending
           (handleReview sample_parseDate sample_toISOString
              sample_increment_review_count granted granted
              (sample_item "a" "Optics" (JString "2025-09-05T09:00:00.000Z") 0)
              sample_mounted sample_mounted).1
           "a" h 86400000.
Proof.
  split; [apply reach_init|].
  destruct (handleReview_first_review_schedules_a_day sample_parseDate
              sample_toISOString sample_increment_review_count
              (sample_item "a" "Optics" (JString "2025-09-05T09:00:00.000Z") 0)
              (sample_item "a" "Optics" (JString "2025-09-06T09:00:00.000Z") 1)
              sample_mounted sample_mounted
              (reach_init _ _ _) eq_refl eq_refl eq_refl)
    as (_ & Hown & _ & h & _ & Hp & _).
  - vm_compute. discriminate.
  - reflexivity.
  - split; [exact Hown|]. exists h. exact Hp.
Defined.

(** C9 on the sample host: the item due 10 minutes ago. *)
Lemma checkOverdueItems_returns_overdue_witness :
  hasNotification sample_mounted = true
  ∧ nextReviewInstant sample_parseDate sample_overdue_item
    = Some (clock sample_mounted - 10 * 60 * 1000)%Z
  ∧ (checkOverdueItems sample_parseDate granted [sample_overdue_item] sample_mounted).1
    = [sample_overdue_item]
  ∧ shown (checkOverdueItems sample_parseDate granted [sample_overdue_item]
             sample_mounted).2
    = shown sample_mounted ++ [overdue_alert sample_overdue_item].
Proof.
  split; [reflexivity|]. split; [reflexivity|].
  destruct (checkOverdueItems_returns_overdue sample_parseDate [sample_overdue_item]
              sample_mounted eq_refl) as (_ & _ & _ & _ & H).
  destruct (H sample_overdue_item eq_refl eq_refl) as (H1 & H2 & _).
  split; [exact H1 | exact H2].
Defined.

(** C10 on the sample host: a granted and a denied run on different
    states at the same clock reading. *)
Lemma checkOverdueItems_result_ignores_permission_witness :
  clock sample_busy = clock sample_mounted
  ∧ (checkOverdueItems sample_parseDate granted [sample_overdue_item] sample_busy).1
    = (checkOverdueItems sample_parseDate denied [sample_overdue_item] sample_mounted).1.
Proof.
  split; [reflexivity|].
  apply (checkOverdueItems_result_ignores_permission sample_parseDate granted denied
           [sample_overdue_item] sample_busy sample_mounted eq_refl).
Defined.

(** * Further properties of the code *)

(** ** The registry and the host's queue *)

Lemma registry_matches_reminder_timers (st : state) (id : string) (h : positive) :
  coherent st →
  notificationTimeoutsRef st !! id = Some h ↔ reminder_timers st !! h = Some id.
Proof.
  intros C. unfold reminder_timers. rewrite lookup_omap_Some. split.
  - intros H. destruct (coh_registered _ C id h H) as (t & Ht & Ha). eauto.
  - intros (t & Ha & Ht). by apply (coh_pending _ C h t).
Qed.

(** X2. For one mount of the hook, in every state reachable from the mount
    the count [getScheduledCount] reports is the number of pending reminder
    timers the mount has armed: the registry and these timers correspond
    one to one, so nothing is registered that cannot fire, and no reminder
    timer of the mount can fire that is not registered. *)
Theorem getScheduledCount_counts_pending_timers (parseDate : string → number)
    (st : state) :
  reachable parseDate st →
  getScheduledCount st = size (reminder_timers st)
  ∧ ∀ id h, notificationTimeoutsRef st !! id = Some h ↔ reminder_timers st !! h = Some id.
Proof.
  intros R. pose proof (reachable_coherent parseDate st R) as C.
  split; [|intros id h; by apply registry_matches_reminder_timers].
  unfold getScheduledCount. rewrite <- !length_map_to_list.
  rewrite <- (length_fmap prod_swap (map_to_list (notificationTimeoutsRef st))).
  apply Permutation_length, NoDup_Permutation.
  - apply (NoDup_fmap_2 prod_swap), NoDup_map_to_list.
  - apply NoDup_map_to_list.
  - intros [h id]. rewrite list_elem_of_fmap. split.
    + intros ([id' h'] & [= -> ->] & Hin). apply elem_of_map_to_list in Hin.
      apply elem_of_map_to_list. by apply registry_matches_reminder_timers.
    + intros Hin. apply elem_of_map_to_list in Hin.
      exists (id, h). split; [done|]. apply elem_of_map_to_list.
      by apply registry_matches_reminder_timers.
Qed.

(** X1. [cancelNotification] on an id that is not registered changes
    nothing.  On a registered id it lowers the count by one and removes the
    timer, which the host can then never run; the reminders of all other
    items, the notifications shown and the sweeper stay as they were. *)
Theorem cancelNotification_effect (parseDate : string → number) (id : string)
    (st : state) :
  reachable parseDate st →
  let st' := cancelNotification id st in
  (notificationTimeoutsRef st !! id = None → st' = st)
  ∧ (∀ h, notificationTimeoutsRef st !! id = Some h →
       S (getScheduledCount st') = getScheduledCount st
       ∧ timeouts st' !! h = None
       ∧ (∀ tr, run_trace parseDate (tr ++ [TimeoutFires h]) st' = None)
       ∧ ∀ h' d, ¬ pending st' id h' d)
  ∧ (∀ id' h d, id' ≠ id →
       notificationTimeoutsRef st' !! id' = notificationTimeoutsRef st !! id'
       ∧ (pending st' id' h d ↔ pending st id' h d))
  ∧ shown st' = shown st ∧ intervals st' = intervals st
  ∧ checkIntervalRef st' = checkIntervalRef st.
Proof.
  intros R. cbv zeta. pose proof (reachable_coherent parseDate st R) as C.
  pose proof (coherent_cancelNotification id st C) as C'.
  unfold cancelNotification in *.
  destruct (notificationTimeoutsRef st !! id) as [h0|] eqn:E.
  - split; [discriminate|]. split; [|split; [|done]].
    + intros h [= <-]. simpl.
      destruct (coh_registered _ C id h0 E) as (t0 & Ht0 & Ha0).
      split; [|split; [|split]].
      * unfold getScheduledCount. simpl.
        rewrite map_size_delete_Some by eauto.
        assert (size (notificationTimeoutsRef st) ≠ 0); [|lia].
        intros H0. apply map_size_empty_inv in H0.
        by rewrite H0, lookup_empty in E.
      * apply lookup_delete_eq.
      * intros tr. apply free_handle_never_fires; simpl.
        -- apply lookup_delete_eq.
        -- apply (coh_fresh_timeouts _ C). eauto.
      * intros h' d (t & Ht & Ha & _).
        pose proof (coh_pending _ C' h' t id Ht Ha) as H. simpl in H.
        by rewrite lookup_delete_eq in H.
    + intros id' h d Hne. simpl. split; [by apply lookup_delete_ne|].
      unfold pending. simpl. split.
      * intros (t & [_ Ht]%lookup_delete_Some & Ha). eauto.
      * intros (t & Ht & Ha & Hd). exists t. split; [|done].
        rewrite lookup_delete_ne; [done|]. intros <-.
        destruct (coh_registered _ C id h0 E) as (t0 & Ht0 & Ha0). congruence.
  - split; [done|]. split; [discriminate|]. by repeat split.
Qed.

(** ** The permission gate *)

(** X3. The permission state of the hook is 'granted' only on a host that
    has the notification capability.  On a host without it the state never
    leaves 'default': [requestPermission] answers 'denied' there but
    stores nothing. *)
Theorem permission_granted_needs_capability (hasN : bool)
    (permission : NotificationPermission) :
  hook_permission hasN permission →
  (permission = granted → hasN = true)
  ∧ (hasN = false →
       permission = default_perm
       ∧ ∀ answer, requestPermission hasN answer permission = (denied, default_perm)).
Proof.
  intros H.
  assert (hasN = false → permission = default_perm) as Hdef.
  { intros ->. induction H as [|host p _ IH|answer p _ IH]; [done|exact IH|exact IH]. }
  split.
  - intros ->. destruct hasN; [done|]. by specialize (Hdef eq_refl).
  - intros ->. split; [by apply Hdef|]. intros answer. by rewrite Hdef.
Qed.

(** ** Timer callbacks *)

Lemma new_timers_granted_refl (st : state) : new_timers_granted st st.
Proof. intros h t H. by left. Qed.

Lemma new_timers_granted_trans (st1 st2 st3 : state) :
  new_timers_granted st1 st2 → new_timers_granted st2 st3 →
  new_timers_granted st1 st3.
Proof.
  intros H12 H23 h t H. destruct (H23 h t H) as [H'|H']; [|by right].
  by apply H12.
Qed.

Lemma new_timers_granted_subset (st st' : state) :
  (∀ h t, timeouts st' !! h = Some t → timeouts st !! h = Some t) →
  new_timers_granted st st'.
Proof. intros Hsub h t H. left. by apply Hsub. Qed.

Lemma emits_new_timers_granted (st st' : state) (ns : list Notification) :
  emits st st' ns → new_timers_granted st st'.
Proof.
  intros E h t H. destruct (em_new _ _ _ E h t H) as [?|(_ & _ & ?)]; auto.
Qed.

Lemma scheduleNotification_new_timers (p : NotificationPermission)
    (id title body : string) (delay : Z) (onClick : option handler) (st : state) :
  new_timers_granted st (scheduleNotification p id title body delay onClick st).
Proof.
  destruct (decide (p = granted)) as [->|Hp].
  - rewrite scheduleNotification_granted. intros h t. simpl.
    destruct (decide (h = next_handle st)) as [->|Hne].
    + rewrite lookup_insert_eq. intros [= <-]. right. right. simpl. eauto.
    + rewrite lookup_insert_ne by done.
      intros [Ht _]%without_existing_lookup. by left.
  - rewrite scheduleNotification_denied by done. apply new_timers_granted_refl.
Qed.

Lemma run_new_timers_granted (parseDate : string → number) (e : event)
    (st st' : state) :
  run parseDate e st = Some st' → new_timers_granted st st'.
Proof.
  destruct e; cbn [run].
  - intros [= <-].
    destruct (showNotification_emits permission title body options st) as [ns E].
    by eapply emits_new_timers_granted.
  - intros [= <-]. apply scheduleNotification_new_timers.
  - intros [= <-]. apply new_timers_granted_subset. unfold cancelNotification.
    destruct (notificationTimeoutsRef st !! id); [|done].
    simpl. intros h t [_ H]%lookup_delete_Some. done.
  - intros [= <-]. unfold scheduleRevisionReminder.
    destruct (js_le _ (Some 0%Z)).
    + match goal with |- context [showNotification ?p ?a ?b ?o ?s] =>
        destruct (showNotification_emits p a b o s) as [ns E] end.
      by eapply emits_new_timers_granted.
    + destruct (js_le _ (Some horizon)); [apply scheduleNotification_new_timers|].
      apply new_timers_granted_refl.
  - intros H. destruct (checkOverdueItems_emits parseDate permission items st) as [ns E].
    apply (emits_new_timers_granted _ _ ns). congruence.
  - intros [= <-]. rewrite startPeriodicCheck_unfold. cbv zeta.
    set (st1 := match checkIntervalRef st with
                | Some h => clearInterval h st
                | None => st
                end).
    destruct (checkOverdueItems_emits parseDate permission items st1) as [ns E].
    intros h t H. simpl in H.
    destruct (emits_new_timers_granted _ _ _ E h t H) as [H'|H']; [|by right].
    left. unfold st1 in H'. by destruct (checkIntervalRef st).
  - intros [= <-]. apply new_timers_granted_subset. unfold stopChecking.
    by destruct (checkIntervalRef st).
  - intros [= <-]. apply new_timers_granted_subset.
    destruct (stopAllNotifications_spec st) as (ts & -> & Hts).
    simpl. intros h t [H _]%Hts. done.
  - destruct (0 <=? dt)%Z; [|discriminate]. intros [= <-].
    by apply new_timers_granted_subset.
  - destruct (timeouts st !! h) as [t0|]; [|discriminate].
    destruct (t_due t0 <=? clock st)%Z; [|discriminate]. intros [= <-].
    destruct (run_action_fields (t_action t0) (clearTimeout h st))
      as (st2 & ns & E & Ht & _).
    intros h' t H. rewrite Ht in H.
    destruct (emits_new_timers_granted _ _ _ E h' t H) as [H'|H']; [|by right].
    left. simpl in H'. by apply lookup_delete_Some in H' as [_ H'].
  - destruct (intervals st !! h) as [i|]; [|discriminate].
    destruct (i_next i <=? clock st)%Z; [|discriminate]. intros H.
    destruct (checkOverdueItems_emits parseDate (i_perm i) (i_items i) (rearm h i st))
      as [ns E].
    assert (st' = (checkOverdueItems parseDate (i_perm i) (i_items i) (rearm h i st)).2)
      as -> by congruence.
    apply (new_timers_granted_trans _ (rearm h i st));
      [by apply new_timers_granted_subset | by apply (emits_new_timers_granted _ _ ns)].
  - intros [= <-]. apply (emits_new_timers_granted _ _ []).
    by apply setTimeout_emits.
Qed.

Lemma reachable_callbacks_granted (parseDate : string → number) (st : state) :
  reachable parseDate st → callbacks_granted st.
Proof.
  induction 1 as [t0 hasN | e st st' _ IH Hrun].
  - intros h t H. simpl in H. by rewrite lookup_empty in H.
  - intros h t H.
    destruct (run_new_timers_granted parseDate e st st' Hrun h t H) as [H'|H'];
      [by apply (IH h t) | exact H'].
Qed.

Lemma alter_last {A} (f : A → A) (l : list A) (x : A) :
  alter f (length l) (l ++ [x]) = l ++ [f x].
Proof. induction l as [|y l IH]; simpl; [done | by f_equal]. Qed.

(** A registered reminder is a pending callback that captured 'granted';
    it cannot run before it is due, and when it runs it surfaces one
    notification and leaves the registry. *)
Lemma registered_reminder_fires (parseDate : string → number) (id : string)
    (h : positive) (st : state) :
  reachable parseDate st →
  hasNotification st = true →
  notificationTimeoutsRef st !! id = Some h →
  ∃ t title body onClick,
    timeouts st !! h = Some t
    ∧ t_action t = FireReminder granted id title body onClick
    ∧ ((clock st < t_due t)%Z → run parseDate (TimeoutFires h) st = None)
    ∧ ((t_due t ≤ clock st)%Z →
         ∃ st', run parseDate (TimeoutFires h) st = Some st'
                ∧ shown st' = shown st ++ [fired_reminder id title body onClick]
                ∧ notificationTimeoutsRef st' = delete id (notificationTimeoutsRef st)
                ∧ S (getScheduledCount st') = getScheduledCount st
                ∧ timeouts st' !! h = None
                ∧ intervals st' = intervals st
                ∧ checkIntervalRef st' = checkIntervalRef st).
Proof.
  intros R Hn Hreg.
  pose proof (reachable_coherent parseDate st R) as C.
  destruct (coh_registered _ C id h Hreg) as (t & Ht & Ha).
  destruct (reachable_callbacks_granted parseDate st R h t Ht)
    as [Hnone|(id' & title & body & onClick & Hact)]; [congruence|].
  assert (id' = id) as -> by (rewrite Hact in Ha; simpl in Ha; congruence).
  exists t, title, body, onClick. split; [done|]. split; [done|]. split.
  - intros Hearly. cbn [run]. rewrite Ht.
    by rewrite (proj2 (Z.leb_gt _ _)) by lia.
  - intros Hdue. eexists. cbn [run]. rewrite Ht.
    rewrite (proj2 (Z.leb_le _ _)) by done. split; [done|].
    rewrite Hact. unfold run_action, showNotification. simpl. rewrite Hn. simpl.
    assert (S (size (delete id (notificationTimeoutsRef st)))
            = size (notificationTimeoutsRef st)) as Hsize.
    { rewrite map_size_delete_Some by eauto.
      assert (size (notificationTimeoutsRef st) ≠ 0); [|lia].
      intros H0. apply map_size_empty_inv in H0.
      by rewrite H0, lookup_empty in Hreg. }
    assert (<[next_handle st :=
               {| t_due := clock st + 10000; t_delay := 10000;
                  t_action := AutoClose (length (shown st)) |}]>
              (delete h (timeouts st)) !! h = None) as Hgone.
    { pose proof (coh_fresh_timeouts _ C h (ex_intro _ t Ht)).
      rewrite lookup_insert_ne by lia. apply lookup_delete_eq. }
    destruct onClick as [f|]; simpl; unfold getScheduledCount; simpl.
    + rewrite alter_last. by repeat split.
    + by repeat split.
Qed.

(** X4. In a reachable state every registered reminder is a pending
    callback that captured 'granted'.  The host cannot run it before it is
    due.  When it runs, on a host with the capability, it surfaces exactly
    one notification, tagged with the item's id, carrying the id as data
    and the click handler; it removes the item from the registry, so the
    count drops by one, and the sweeper is not touched.  The due time is
    the one the host's 32-bit timer field gives: rescheduling the reminder
    through [scheduleNotification] with a delay from 2^31 to 2^32 - 1 ms
    gives a timer the host can run at once. *)
Theorem reminder_timer_fires (parseDate : string → number) (id : string)
    (h : positive) (st : state) :
  reachable parseDate st →
  hasNotification st = true →
  notificationTimeoutsRef st !! id = Some h →
  (∃ t title body onClick,
    timeouts st !! h = Some t
    ∧ t_action t = FireReminder granted id title body onClick
    ∧ ((clock st < t_due t)%Z → run parseDate (TimeoutFires h) st = None)
    ∧ ((t_due t ≤ clock st)%Z →
         ∃ st', run parseDate (TimeoutFires h) st = Some st'
                ∧ shown st' = shown st ++ [fired_reminder id title body onClick]
                ∧ notificationTimeoutsRef st' = delete id (notificationTimeoutsRef st)
                ∧ S (getScheduledCount st') = getScheduledCount st
                ∧ timeouts st' !! h = None
                ∧ intervals st' = intervals st
                ∧ checkIntervalRef st' = checkIntervalRef st))
  ∧ ∀ title' body' delay onClick',
      (2147483647 < delay < 4294967296)%Z →
      ∃ st', run parseDate (TimeoutFires (next_handle st))
               (scheduleNotification granted id title' body' delay onClick' st)
             = Some st'
             ∧ shown st' = shown st ++ [fired_reminder id title' body' onClick']
             ∧ notificationTimeoutsRef st' !! id = None.
Proof.
  intros R Hn Hreg. split; [by apply registered_reminder_fires|].
  intros title' body' delay onClick' Hdelay.
  pose proof (reachable_coherent parseDate st R) as C.
  pose proof (scheduleNotification_granted id title' body' delay onClick' st) as Heq.
  destruct (scheduleNotification_replaces id title' body' delay onClick' st C)
    as (Hreg1 & _).
  set (st1 := scheduleNotification granted id title' body' delay onClick' st) in *.
  assert (reachable parseDate st1) as R1
    by (by apply (reach_step parseDate
                    (CallSchedule granted id title' body' delay onClick') st)).
  assert (hasNotification st1 = true) as Hn1 by (by rewrite Heq).
  destruct (registered_reminder_fires parseDate id (next_handle st) st1 R1 Hn1 Hreg1)
    as (t & title & body & onClick & Ht & Ha & _ & Hfire).
  rewrite Heq in Ht. cbn [timeouts] in Ht. rewrite lookup_insert_eq in Ht.
  injection Ht as <-. cbn [t_action t_due] in Ha, Hfire.
  injection Ha as <- <- <-.
  destruct Hfire as (st' & Hrun & Hshown & Hregistry & _).
  { rewrite host_delay_overflow by done. rewrite Heq. cbn [clock]. lia. }
  exists st'. split; [exact Hrun|]. split.
  - rewrite Hshown. by rewrite Heq.
  - rewrite Hregistry. apply lookup_delete_eq.
Qed.

(** X5. A notification [showNotification] surfaces gets its own auto-close
    timer, due 10 seconds later.  The host cannot run it earlier; when it
    runs it closes that notification and nothing else: the notifications
    shown before, the registry and the sweeper are as they were. *)
Theorem notification_auto_closes (parseDate : string → number)
    (title body : string) (o : NotificationOptions) (st : state) :
  hasNotification st = true →
  let st1 := (showNotification granted title body o st).2 in
  let h := next_handle st in
  shown st1 = shown st ++ [notification_of title body o]
  ∧ timeouts st1 !! h =
      Some {| t_due := clock st + 10000; t_delay := 10000;
              t_action := AutoClose (length (shown st)) |}
  ∧ (∀ dt, (0 ≤ dt < 10000)%Z →
       run_trace parseDate [Advance dt; TimeoutFires h] st1 = None)
  ∧ (∀ dt, (10000 ≤ dt)%Z →
       ∃ st2, run_trace parseDate [Advance dt; TimeoutFires h] st1 = Some st2
              ∧ shown st2 = shown st ++ [closed (notification_of title body o)]
              ∧ timeouts st2 !! h = None
              ∧ notificationTimeoutsRef st2 = notificationTimeoutsRef st
              ∧ intervals st2 = intervals st).
Proof.
  intros Hn. cbv zeta. unfold showNotification. rewrite Hn. simpl.
  change (host_delay 10000) with 10000%Z.
  split; [done|]. split; [by rewrite lookup_insert_eq|]. split.
  - intros dt [H0 Hlt]. rewrite (proj2 (Z.leb_le _ _)) by lia. simpl.
    rewrite lookup_insert_eq. simpl.
    by rewrite (proj2 (Z.leb_gt _ _)) by lia.
  - intros dt Hge. rewrite (proj2 (Z.leb_le _ _)) by lia. simpl.
    rewrite lookup_insert_eq. simpl.
    rewrite (proj2 (Z.leb_le _ _)) by lia.
    eexists. split; [done|]. unfold close_notification. simpl.
    rewrite alter_last. split; [done|]. split; [apply lookup_delete_eq | done].
Qed.

(** ** Teardown *)

(** X6. [stopAllNotifications] is idempotent, and so is the clean-up of the
    sweep.  It leaves the notifications already shown alone, and in a
    reachable state it keeps their auto-close timers: a notification on
    screen at teardown still closes itself. *)
Theorem stopAllNotifications_idempotent (parseDate : string → number) (st : state) :
  reachable parseDate st →
  stopAllNotifications (stopAllNotifications st) = stopAllNotifications st
  ∧ stopChecking (stopChecking st) = stopChecking st
  ∧ shown (stopAllNotifications st) = shown st
  ∧ ∀ h t, timeouts st !! h = Some t → action_id (t_action t) = None →
           timeouts (stopAllNotifications st) !! h = Some t.
Proof.
  intros R. pose proof (reachable_coherent parseDate st R) as C.
  assert (checkIntervalRef (stopChecking st) = None) as Href.
  { unfold stopChecking. by destruct (checkIntervalRef st) eqn:E. }
  destruct (stopAllNotifications_spec st) as (ts & Heq & Hts).
  split; [|split; [|split]].
  - rewrite Heq. unfold stopAllNotifications at 1. simpl. rewrite Href. simpl.
    by rewrite map_fold_empty.
  - unfold stopChecking at 1. by rewrite Href.
  - rewrite Heq. simpl. unfold stopChecking. by destruct (checkIntervalRef st).
  - intros h t Ht Ha. rewrite Heq. simpl. apply Hts. split; [done|].
    intros id Hreg. destruct (coh_registered _ C id h Hreg) as (t' & Ht' & Ha').
    congruence.
Qed.

(** ** The sweep *)

Lemma isOverdue_mono (parseDate : string → number) (now now' : Z)
    (item : RevisionItem) :
  isOverdue parseDate now item = true → (now ≤ now')%Z →
  isOverdue parseDate now' item = true.
Proof.
  rewrite !isOverdue_spec. intros (t & Ht & Hle) Hnow. exists t. split; [done | lia].
Qed.

(** X7. The sweep keeps no record of what it has notified.  Whenever a
    sweeper armed with permission ticks, every item of the list it captured
    that was overdue at some earlier time is alerted again, and the sweeper
    stays armed with the same list and period: an item left overdue is
    notified at every tick. *)
Theorem sweeper_renotifies (parseDate : string → number) (h : positive)
    (i : interval_entry) (s : state) (item : RevisionItem) (earlier : Z) :
  intervals s !! h = Some i →
  i_perm i = granted → hasNotification s = true →
  (i_next i ≤ clock s)%Z →
  item ∈ i_items i →
  isOverdue parseDate earlier item = true → (earlier ≤ clock s)%Z →
  ∃ s' ns, run parseDate (IntervalTicks h) s = Some s'
           ∧ shown s' = shown s ++ ns
           ∧ overdue_alert item ∈ ns
           ∧ intervals s' !! h =
               Some {| i_next := i_next i + i_period i; i_period := i_period i;
                       i_perm := i_perm i; i_items := i_items i |}.
Proof.
  intros Hi Hp Hn Hdue Hin Hover Hle.
  destruct (interval_tick parseDate h i s Hi Hdue) as (s' & Hrun & _ & Hshown & Hint).
  exists s', (surfaced parseDate (i_perm i) (hasNotification s) (clock s) (i_items i)).
  split; [done|]. split; [done|]. split; [|done].
  unfold surfaced. rewrite Hp, Hn. simpl.
  apply list_elem_of_fmap. exists item. split; [done|].
  apply list_elem_of_In, filter_In. split; [by apply list_elem_of_In|].
  by apply (isOverdue_mono parseDate earlier).
Qed.

(** ** Scheduling the whole list *)

Section ItemsFacts.

Variable parseDate : string → number.

Lemma scheduleRevisionReminder_denied (p : NotificationPermission)
    (itemId itemTitle : string) (v : jsval) (st : state) :
  p ≠ granted → scheduleRevisionReminder parseDate p itemId itemTitle v st = st.
Proof.
  intros Hp. unfold scheduleRevisionReminder.
  rewrite showNotification_denied, scheduleNotification_denied by done.
  by repeat case_match.
Qed.

Lemma scheduleRevisionReminder_frame (p : NotificationPermission)
    (itemId itemTitle : string) (v : jsval) (st : state) :
  let st' := scheduleRevisionReminder parseDate p itemId itemTitle v st in
  clock st' = clock st ∧ hasNotification st' = hasNotification st
  ∧ intervals st' = intervals st ∧ checkIntervalRef st' = checkIntervalRef st.
Proof.
  cbv zeta. unfold scheduleRevisionReminder.
  destruct (js_le _ (Some 0%Z)).
  - match goal with |- context [showNotification ?p ?a ?b ?o ?s] =>
      destruct (showNotification_emits p a b o s) as [ns E] end.
    split; [apply E|]. split; [apply E|]. split; apply E.
  - destruct (js_le _ (Some horizon)); [|done].
    destruct (decide (p = granted)) as [->|Hp].
    + by rewrite scheduleNotification_granted.
    + by rewrite scheduleNotification_denied.
Qed.

(** A reminder scheduled for one item leaves the registered timer of any
    other item in place. *)
Lemma scheduleRevisionReminder_keeps_other (p : NotificationPermission)
    (itemId itemTitle : string) (v : jsval) (id : string) (h : positive) (st : state) :
  coherent st → itemId ≠ id → notificationTimeoutsRef st !! id = Some h →
  let st' := scheduleRevisionReminder parseDate p itemId itemTitle v st in
  notificationTimeoutsRef st' !! id = Some h ∧ timeouts st' !! h = timeouts st !! h.
Proof.
  intros C Hne Hreg. cbv zeta.
  destruct (coh_registered _ C id h Hreg) as (t & Ht & Ha).
  pose proof (coh_fresh_timeouts _ C h (ex_intro _ t Ht)) as Hlt.
  unfold scheduleRevisionReminder.
  destruct (js_le _ (Some 0%Z)).
  - match goal with |- context [showNotification ?p ?a ?b ?o ?s] =>
      destruct (showNotification_emits p a b o s) as [ns E] end.
    rewrite (em_registry _ _ _ E). split; [done|]. by apply E.
  - destruct (js_le _ (Some horizon)); [|done].
    destruct (decide (p = granted)) as [->|Hp];
      [|by rewrite scheduleNotification_denied].
    rewrite scheduleNotification_granted. simpl.
    rewrite lookup_insert_ne by done. split; [done|].
    rewrite lookup_insert_ne by lia. apply without_existing_other.
    intros H'. destruct (coh_registered _ C itemId h H') as (t' & Ht' & Ha').
    congruence.
Qed.

Lemma scheduleOne_denied (p : NotificationPermission) (st : state)
    (item : RevisionItem) :
  p ≠ granted → scheduleOne parseDate p st item = st.
Proof.
  intros Hp. unfold scheduleOne.
  rewrite scheduleRevisionReminder_denied by done. by destruct (truthy _).
Qed.

Lemma coherent_scheduleOne (p : NotificationPermission) (st : state)
    (item : RevisionItem) :
  coherent st → coherent (scheduleOne parseDate p st item).
Proof.
  intros C. unfold scheduleOne. destruct (truthy _); [|done].
  by apply coherent_scheduleRevisionReminder.
Qed.

Lemma scheduleOne_frame (p : NotificationPermission) (st : state)
    (item : RevisionItem) :
  clock (scheduleOne parseDate p st item) = clock st
  ∧ hasNotification (scheduleOne parseDate p st item) = hasNotification st
  ∧ intervals (scheduleOne parseDate p st item) = intervals st
  ∧ checkIntervalRef (scheduleOne parseDate p st item) = checkIntervalRef st.
Proof.
  unfold scheduleOne. destruct (truthy _); [|done].
  apply scheduleRevisionReminder_frame.
Qed.

Lemma reachable_scheduleOne (p : NotificationPermission) (st : state)
    (item : RevisionItem) :
  reachable parseDate st → reachable parseDate (scheduleOne parseDate p st item).
Proof.
  intros R. unfold scheduleOne. destruct (truthy _); [|done].
  by apply (reach_step parseDate
              (CallRemind p (item_id item) (item_title item) (next_review item)) st).
Qed.

(** What one item adds to the notifications shown. *)
Lemma scheduleOne_shown (st : state) (item : RevisionItem) :
  hasNotification st = true →
  shown (scheduleOne parseDate granted st item) =
  shown st ++ (if isOverdue parseDate (clock st) item
               then [overdue_reminder (item_id item) (item_title item)] else []).
Proof.
  intros Hn. unfold scheduleOne, isOverdue.
  destruct (truthy (next_review item)); simpl; [|by rewrite app_nil_r].
  destruct (getTime parseDate (next_review item)) as [t|] eqn:Ht; simpl.
  - rewrite (scheduleRevisionReminder_definite parseDate _ _ _ _ _ _ Ht).
    destruct (Z.leb_spec t (clock st)) as [Hle|Hgt].
    + rewrite (proj2 (Z.leb_le _ _)) by lia.
      destruct (showNotification_granted reminder_title
        ("⚠️ OVERDUE: Time to review " +:+ dquote +:+ item_title item +:+ dquote)
        {| o_tag := item_id item; o_requireInteraction := Some true; o_data := None |}
        st Hn) as [E _].
      by rewrite (em_shown _ _ _ E).
    + rewrite (proj2 (Z.leb_gt _ _)) by lia. rewrite app_nil_r.
      destruct (t - clock st <=? horizon)%Z; [|done].
      by rewrite scheduleNotification_granted.
  - rewrite (scheduleRevisionReminder_NaN parseDate _ _ _ _ _ Ht).
    by rewrite app_nil_r.
Qed.

Lemma scheduleAllNotifications_denied (p : NotificationPermission)
    (items : list RevisionItem) (st : state) :
  p ≠ granted → scheduleAllNotifications parseDate p items st = st.
Proof.
  intros Hp. unfold scheduleAllNotifications.
  induction items as [|item items IH]; simpl; [done|].
  by rewrite scheduleOne_denied.
Qed.

Lemma coherent_scheduleAllNotifications (p : NotificationPermission)
    (items : list RevisionItem) (st : state) :
  coherent st → coherent (scheduleAllNotifications parseDate p items st).
Proof.
  unfold scheduleAllNotifications. revert st.
  induction items as [|item items IH]; intros st C; simpl; [done|].
  by apply IH, coherent_scheduleOne.
Qed.

Lemma reachable_scheduleAllNotifications (p : NotificationPermission)
    (items : list RevisionItem) (st : state) :
  reachable parseDate st →
  reachable parseDate (scheduleAllNotifications parseDate p items st).
Proof.
  unfold scheduleAllNotifications. revert st.
  induction items as [|item items IH]; intros st R; simpl; [done|].
  by apply IH, reachable_scheduleOne.
Qed.

Lemma scheduleAllNotifications_frame (p : NotificationPermission)
    (items : list RevisionItem) (st : state) :
  clock (scheduleAllNotifications parseDate p items st) = clock st
  ∧ hasNotification (scheduleAllNotifications parseDate p items st) = hasNotification st
  ∧ intervals (scheduleAllNotifications parseDate p items st) = intervals st
  ∧ checkIntervalRef (scheduleAllNotifications parseDate p items st)
    = checkIntervalRef st.
Proof.
  unfold scheduleAllNotifications. revert st.
  induction items as [|item items IH]; intros st; simpl; [done|].
  destruct (IH (scheduleOne parseDate p st item)) as (-> & -> & -> & ->).
  apply scheduleOne_frame.
Qed.

Lemma scheduleAllNotifications_shown (items : list RevisionItem) (st : state) :
  hasNotification st = true →
  shown (scheduleAllNotifications parseDate granted items st) =
  shown st ++ ((λ item, overdue_reminder (item_id item) (item_title item))
               <$> List.filter (isOverdue parseDate (clock st)) items).
Proof.
  unfold scheduleAllNotifications. revert st.
  induction items as [|item items IH]; intros st Hn; simpl;
    [by rewrite app_nil_r|].
  destruct (scheduleOne_frame granted st item) as (Hc & Hh & _).
  rewrite IH by congruence. rewrite Hc, scheduleOne_shown by done.
  destruct (isOverdue parseDate (clock st) item); simpl.
  - by rewrite <- app_assoc.
  - by rewrite app_nil_r.
Qed.

Lemma scheduleAllNotifications_keeps_other (p : NotificationPermission)
    (items : list RevisionItem) (id : string) (h : positive) (st : state) :
  coherent st → (∀ item, item ∈ items → item_id item ≠ id) →
  notificationTimeoutsRef st !! id = Some h →
  notificationTimeoutsRef (scheduleAllNotifications parseDate p items st) !! id = Some h
  ∧ timeouts (scheduleAllNotifications parseDate p items st) !! h = timeouts st !! h.
Proof.
  unfold scheduleAllNotifications. revert st.
  induction items as [|item items IH]; intros st C Hids Hreg; simpl; [done|].
  assert (notificationTimeoutsRef (scheduleOne parseDate p st item) !! id = Some h
          ∧ timeouts (scheduleOne parseDate p st item) !! h = timeouts st !! h)
    as [Hreg1 Ht1].
  { unfold scheduleOne. destruct (truthy _); [|done].
    apply scheduleRevisionReminder_keeps_other; [done| |done].
    apply Hids. apply list_elem_of_here. }
  destruct (IH (scheduleOne parseDate p st item)) as [Hreg2 Ht2].
  - by apply coherent_scheduleOne.
  - intros x Hx. apply Hids. by apply list_elem_of_further.
  - exact Hreg1.
  - split; [exact Hreg2 | by rewrite Ht2].
Qed.

(** An item within the horizon whose id occurs once in the list ends up
    registered with its own delay. *)
Lemma scheduleAllNotifications_installs (items : list RevisionItem)
    (item : RevisionItem) (t : Z) (st : state) :
  coherent st → NoDup (item_id <$> items) → item ∈ items →
  nextReviewInstant parseDate item = Some t →
  (0 < t - clock st ≤ 7 * day)%Z →
  ∃ h, notificationTimeoutsRef (scheduleAllNotifications parseDate granted items st)
         !! item_id item = Some h
       ∧ pending (scheduleAllNotifications parseDate granted items st)
           (item_id item) h (t - clock st).
Proof.
  revert st. induction items as [|x items IH]; intros st C Hnd Hin Ht Hwin.
  - by apply elem_of_nil in Hin.
  - rewrite fmap_cons in Hnd. apply NoDup_cons in Hnd as [Hx Hnd].
    change (scheduleAllNotifications parseDate granted (x :: items) st)
      with (scheduleAllNotifications parseDate granted items
              (scheduleOne parseDate granted st x)).
    destruct (scheduleOne_frame granted st x) as (Hc & _).
    pose proof (coherent_scheduleOne granted st x C) as C1.
    apply elem_of_cons in Hin as [->|Hin].
    + assert (getTime parseDate (next_review x) = Some t
              ∧ truthy (next_review x) = true) as [Hg Htr].
      { unfold nextReviewInstant in Ht. unfold getTime, truthy.
        destruct (next_review x) as [| |s]; try discriminate.
        by case_bool_decide. }
      assert (scheduleOne parseDate granted st x =
              scheduleNotification granted (item_id x) reminder_title
                ("📚 Time to review: " +:+ dquote +:+ item_title x +:+ dquote)
                (t - clock st) (Some (LogClicked (item_id x))) st) as Hone.
      { unfold scheduleOne. rewrite Htr.
        rewrite (scheduleRevisionReminder_definite parseDate _ _ _ _ _ _ Hg).
        rewrite horizon_week.
        rewrite (proj2 (Z.leb_gt _ _)) by lia. by rewrite (proj2 (Z.leb_le _ _)) by lia. }
      destruct (scheduleNotification_replaces (item_id x) reminder_title
                  ("📚 Time to review: " +:+ dquote +:+ item_title x +:+ dquote)
                  (t - clock st) (Some (LogClicked (item_id x))) st C)
        as (Hreg & (e & He & Ha & Hd) & _).
      rewrite <- Hone in Hreg, He.
      destruct (scheduleAllNotifications_keeps_other granted items (item_id x)
                  (next_handle st) (scheduleOne parseDate granted st x) C1)
        as [Hreg' Ht'].
      * intros y Hy Heq. apply Hx. apply list_elem_of_fmap. eauto.
      * exact Hreg.
      * exists (next_handle st). split; [exact Hreg'|].
        exists e. rewrite Ht'. by repeat split.
    + destruct (IH (scheduleOne parseDate granted st x) C1 Hnd Hin Ht) as (h & Hreg & Hp).
      * by rewrite Hc.
      * exists h. rewrite Hc in Hp. by split.
Qed.

(** What [startPeriodicCheck] leaves of the state it was called in. *)
Lemma startPeriodicCheck_frame (p : NotificationPermission)
    (items : list RevisionItem) (st : state) :
  let st' := startPeriodicCheck parseDate p items st in
  shown st' = shown st ++ surfaced parseDate p (hasNotification st) (clock st) items
  ∧ clock st' = clock st ∧ hasNotification st' = hasNotification st
  ∧ notificationTimeoutsRef st' = notificationTimeoutsRef st
  ∧ ∀ h, (h < next_handle st)%positive → timeouts st' !! h = timeouts st !! h.
Proof.
  cbv zeta.
  set (st1 := match checkIntervalRef st with
              | Some h => clearInterval h st
              | None => st
              end).
  pose proof (checkOverdueItems_surfaced parseDate p items st1) as E.
  assert (shown st1 = shown st ∧ hasNotification st1 = hasNotification st
          ∧ clock st1 = clock st ∧ notificationTimeoutsRef st1 = notificationTimeoutsRef st
          ∧ timeouts st1 = timeouts st ∧ next_handle st1 = next_handle st)
    as (Hs & Hh & Hc & Hr & Ht & Hn)
    by (unfold st1; by destruct (checkIntervalRef st)).
  change (shown (startPeriodicCheck parseDate p items st))
    with (shown (checkOverdueItems parseDate p items st1).2).
  change (clock (startPeriodicCheck parseDate p items st))
    with (clock (checkOverdueItems parseDate p items st1).2).
  change (hasNotification (startPeriodicCheck parseDate p items st))
    with (hasNotification (checkOverdueItems parseDate p items st1).2).
  change (notificationTimeoutsRef (startPeriodicCheck parseDate p items st))
    with (notificationTimeoutsRef (checkOverdueItems parseDate p items st1).2).
  change (timeouts (startPeriodicCheck parseDate p items st))
    with (timeouts (checkOverdueItems parseDate p items st1).2).
  rewrite (em_shown _ _ _ E), (em_clock _ _ _ E), (em_hasNotification _ _ _ E),
    (em_registry _ _ _ E), Hs, Hh, Hc, Hr.
  repeat split. intros h Hlt. rewrite (em_old _ _ _ E) by lia. by rewrite Ht.
Qed.

End ItemsFacts.

(** X8. [scheduleAllNotifications] with permission granted surfaces one
    reminder for each overdue item of the list, in order, and nothing
    else; whatever ids the list repeats, no item ends up with two pending
    timers; when the ids of the list are distinct, every item whose
    instant lies within the next 7 days is registered with its own delay;
    the reminder registered for an item that is not in the list stays.
    Without permission the whole call changes nothing. *)
Theorem scheduleAllNotifications_effect (parseDate : string → number)
    (items : list RevisionItem) (st : state) :
  reachable parseDate st → hasNotification st = true →
  let st' := scheduleAllNotifications parseDate granted items st in
  shown st' = shown st ++ ((λ item, overdue_reminder (item_id item) (item_title item))
                           <$> List.filter (isOverdue parseDate (clock st)) items)
  ∧ (∀ id h d h' d', pending st' id h d → pending st' id h' d' → h = h' ∧ d = d')
  ∧ (NoDup (item_id <$> items) →
     ∀ item t, item ∈ items → nextReviewInstant parseDate item = Some t →
       (0 < t - clock st ≤ 7 * day)%Z →
       ∃ h, notificationTimeoutsRef st' !! item_id item = Some h
            ∧ pending st' (item_id item) h (t - clock st))
  ∧ (∀ id h, (∀ item, item ∈ items → item_id item ≠ id) →
       notificationTimeoutsRef st !! id = Some h →
       notificationTimeoutsRef st' !! id = Some h
       ∧ timeouts st' !! h = timeouts st !! h)
  ∧ (∀ p, p ≠ granted → scheduleAllNotifications parseDate p items st = st).
Proof.
  intros R Hn. cbv zeta. pose proof (reachable_coherent parseDate st R) as C.
  split; [by apply scheduleAllNotifications_shown|]. split; [|split; [|split]].
  - intros id h d h' d'.
    apply coherent_pending_unique. by apply coherent_scheduleAllNotifications.
  - intros Hnd item t Hin Ht Hwin. by apply scheduleAllNotifications_installs.
  - intros id h Hids Hreg. by apply scheduleAllNotifications_keeps_other.
  - intros p Hp. by apply scheduleAllNotifications_denied.
Qed.

(** X9. When the item list changes and permission is granted, the effect
    notifies every overdue item twice: once by the immediate pass of the
    sweep it starts and once more by [scheduleAllNotifications], both
    notifications carrying the item's id as tag.  With an empty list or
    without permission the effect does nothing. *)
Theorem itemsEffect_notifies_overdue_twice (parseDate : string → number)
    (items : list RevisionItem) (st : state) :
  hasNotification st = true → items ≠ [] →
  let overdue := List.filter (isOverdue parseDate (clock st)) items in
  shown (itemsEffect parseDate granted items st)
  = shown st ++ (overdue_alert <$> overdue)
             ++ ((λ item, overdue_reminder (item_id item) (item_title item)) <$> overdue)
  ∧ n_tag <$> (overdue_alert <$> overdue) = item_id <$> overdue
  ∧ n_tag <$> ((λ item, overdue_reminder (item_id item) (item_title item)) <$> overdue)
    = item_id <$> overdue
  ∧ itemsEffect parseDate granted [] st = st
  ∧ ∀ p, p ≠ granted → itemsEffect parseDate p items st = st.
Proof.
  intros Hn Hne. cbv zeta. split; [|split; [|split; [|split]]].
  - unfold itemsEffect. destruct items as [|x items]; [done|].
    change ((0 <? length (x :: items))%nat && bool_decide (granted = granted))
      with true. cbv iota.
    destruct (startPeriodicCheck_frame parseDate granted (x :: items) st)
      as (Hs & Hc & Hh & _).
    rewrite scheduleAllNotifications_shown by (rewrite Hh; exact Hn).
    rewrite Hs, Hc. unfold surfaced. rewrite Hn. simpl.
    by rewrite <- app_assoc.
  - by rewrite <- list_fmap_compose.
  - by rewrite <- list_fmap_compose.
  - done.
  - intros p Hp. unfold itemsEffect.
    rewrite (bool_decide_eq_false_2 (p = granted)) by done.
    by rewrite andb_false_r.
Qed.

(** X10. Deleting an item never cancels its reminder.  [deleteItem] does
    not call the notification hook, and the effect that follows the change
    of the list (clean-up of the old sweep, a new sweep and
    [scheduleAllNotifications] over the remaining items) leaves the timer
    of the deleted item registered and pending, in a state the hook can
    reach: the reminder of the deleted item still fires. *)
Theorem deleteItem_keeps_reminder (parseDate : string → number) (ran : bool)
    (p : NotificationPermission) (id : string) (h : positive) (d : Z)
    (items items' : list RevisionItem) (st : state) :
  reachable parseDate st →
  pending st id h d →
  deleteItem true id items = Some items' →
  let st' := itemsChanged parseDate ran p items' st in
  (∀ item, item ∈ items' → item_id item ≠ id)
  ∧ reachable parseDate st'
  ∧ notificationTimeoutsRef st' !! id = Some h
  ∧ pending st' id h d.
Proof.
  intros R (t & Ht & Ha & Hd) Hdel. cbv zeta.
  pose proof (reachable_coherent parseDate st R) as C.
  pose proof (coh_pending _ C h t id Ht Ha) as Hreg.
  pose proof (coh_fresh_timeouts _ C h (ex_intro _ t Ht)) as Hlt.
  assert (∀ item, item ∈ items' → item_id item ≠ id) as Hids.
  { injection Hdel as <-. intros item Hin.
    apply list_elem_of_In, filter_In in Hin as [_ Hin].
    apply negb_true_iff, String.eqb_neq in Hin. done. }
  split; [exact Hids|].
  unfold itemsChanged. set (st0 := if ran then stopChecking st else st).
  assert (reachable parseDate st0) as R0.
  { unfold st0. destruct ran; [|done].
    by apply (reach_step parseDate CallStopChecking st). }
  assert (notificationTimeoutsRef st0 = notificationTimeoutsRef st
          ∧ timeouts st0 = timeouts st
          ∧ next_handle st0 = next_handle st) as (Hr0 & Ht0 & Hn0)
    by (unfold st0, stopChecking; destruct ran; by destruct (checkIntervalRef st)).
  unfold itemsEffect.
  destruct ((0 <? length items')%nat && bool_decide (p = granted)).
  - set (st1 := startPeriodicCheck parseDate p items' st0).
    assert (reachable parseDate st1) as R1
      by (by apply (reach_step parseDate (CallStart p items') st0)).
    destruct (startPeriodicCheck_frame parseDate p items' st0)
      as (_ & _ & _ & Hr1 & Ht1).
    fold st1 in Hr1, Ht1.
    destruct (scheduleAllNotifications_keeps_other parseDate p items' id h st1)
      as [Hreg2 Ht2].
    + by apply (reachable_coherent parseDate).
    + exact Hids.
    + by rewrite Hr1, Hr0.
    + split; [by apply reachable_scheduleAllNotifications|].
      split; [exact Hreg2|]. exists t.
      rewrite Ht2, Ht1, Ht0 by (rewrite Hn0; exact Hlt). by repeat split.
  - split; [exact R0|]. rewrite Hr0. split; [exact Hreg|].
    exists t. rewrite Ht0. by repeat split.
Qed.

(** X11. [enableNotifications] calls the [scheduleAllNotifications] of the
    render its button belongs to.  When that render's permission is not
    'granted', the call registers no reminder and surfaces nothing,
    whatever the user answers: the registry, the notifications shown, the
    pending reminder timers and the sweeper are as before.  The permission
    state becomes the answer on a host with the capability.  The one other
    change is the one second timer of the count toast, armed when the
    answer is 'granted'; on any other answer, and on a host without the
    capability, the state is unchanged. *)
Theorem enableNotifications_uses_stale_permission (parseDate : string → number)
    (hasN : bool) (answer p : NotificationPermission)
    (items : list RevisionItem) (st : state) :
  reachable parseDate st →
  p ≠ granted →
  let after := enableNotifications parseDate hasN answer p items st in
  after.1 = (if hasN then answer else p)
  ∧ reachable parseDate after.2
  ∧ notificationTimeoutsRef after.2 = notificationTimeoutsRef st
  ∧ shown after.2 = shown st
  ∧ intervals after.2 = intervals st
  ∧ checkIntervalRef after.2 = checkIntervalRef st
  ∧ clock after.2 = clock st
  ∧ (∀ id h d, pending after.2 id h d ↔ pending st id h d)
  ∧ (hasN = true → answer = granted →
       after.2 = (setTimeout CountToast 1000 st).2
       ∧ timeouts after.2
         = <[next_handle st := {| t_due := clock st + 1000; t_delay := 1000;
                                  t_action := CountToast |}]> (timeouts st))
  ∧ (hasN = false ∨ answer ≠ granted → after.2 = st).
Proof.
  intros R Hp. cbv zeta.
  pose proof (reachable_coherent parseDate st R) as C.
  assert (∀ id h d, pending (setTimeout CountToast 1000 st).2 id h d
                    ↔ pending st id h d) as Hpending.
  { intros id h d. unfold pending. cbn [setTimeout snd timeouts set_next_handle
      set_timeouts]. split.
    - intros (t & Ht & Ha & Hd).
      destruct (decide (h = next_handle st)) as [->|Hne].
      + rewrite lookup_insert_eq in Ht. injection Ht as <-. discriminate.
      + rewrite lookup_insert_ne in Ht by done. by exists t.
    - intros (t & Ht & Ha & Hd). exists t.
      pose proof (coh_fresh_timeouts _ C h (ex_intro _ t Ht)) as Hlt.
      rewrite lookup_insert_ne by lia. done. }
  unfold enableNotifications, requestPermission.
  destruct hasN; cbn [fst snd].
  - destruct (bool_decide_reflect (answer = granted)) as [Ha|Ha]; cbn [fst snd].
    + rewrite scheduleAllNotifications_denied by done.
      split; [done|].
      split; [by apply (reach_step parseDate ToastTimerArmed st)|].
      do 5 (split; [reflexivity|]).
      split; [exact Hpending|].
      split; [by intros _ _|].
      by intros [?|?].
    + split; [done|]. split; [done|]. do 5 (split; [reflexivity|]).
      split; [done|]. split; [by intros _ ?|done].
  - split; [done|]. split; [done|]. do 5 (split; [reflexivity|]).
    split; [done|]. split; [by intros ?|done].
Qed.

(** X12. The two counts of due items differ exactly by the items without a
    date: [itemsDueForReview] of the revision screen counts them,
    [getOverdueCount] does not.  [getOverdueCount] is the number of items
    [checkOverdueItems] returns at the same clock reading. *)
Theorem due_counts_differ_by_missing_dates (parseDate : string → number)
    (now : Z) (items : list RevisionItem) :
  itemsDueForReview parseDate now items
  = getOverdueCount parseDate now items
    + length (List.filter (λ item, negb (truthy (next_review item))) items)
  ∧ (∀ p st, clock st = now →
       getOverdueCount parseDate now items
       = length (checkOverdueItems parseDate p items st).1)
  ∧ getOverdueCount parseDate now items ≤ length items.
Proof.
  split; [|split].
  - unfold itemsDueForReview, getOverdueCount.
    induction items as [|item items IH]; simpl; [done|].
    destruct (truthy (next_review item)); simpl.
    + destruct (js_le _ _); simpl; lia.
    + lia.
  - intros p st <-. reflexivity.
  - unfold getOverdueCount. apply filter_length_le.
Qed.

(** ** Creating and updating items *)

(** X13. A new item is scheduled for one day after the clock reading
    [createItem] takes before the insert.  When the database stores the row
    with the date it was given and the insert resolves less than a day
    later, [createItem] with permission granted puts the row at the head of
    the list, surfaces nothing, and leaves exactly one pending timer for
    the new item: it is due 24 hours after the first reading, so its delay
    is 24 hours less the time the insert took, and is 24 hours when the
    clock has not moved.  Without permission it only extends the list. *)
Theorem createItem_schedules_a_day (parseDate : string → number)
    (toISOString : Z → string)
    (insert_revision_item : string → string → Z → option RevisionItem)
    (title : string) (now : Z) (items : list RevisionItem) (data : RevisionItem)
    (st : state) :
  reachable parseDate st →
  insert_revision_item title (toISOString (now + 24 * 60 * 60 * 1000)%Z) 0%Z
    = Some data →
  next_review data = JString (toISOString (now + 24 * 60 * 60 * 1000)%Z) →
  toISOString (now + 24 * 60 * 60 * 1000)%Z ≠ EmptyString →
  parseDate (toISOString (now + 24 * 60 * 60 * 1000)%Z)
    = Some (now + 24 * 60 * 60 * 1000)%Z →
  (now ≤ clock st < now + 24 * hour)%Z →
  (∃ st', createItem parseDate toISOString insert_revision_item granted title now
            items st
          = Some (data, data :: items, st')
          ∧ shown st' = shown st
          ∧ clock st' = clock st
          ∧ notificationTimeoutsRef st' !! item_id data = Some (next_handle st)
          ∧ (∃ t, timeouts st' !! next_handle st = Some t
                  ∧ action_id (t_action t) = Some (item_id data)
                  ∧ t_due t = (now + 24 * hour)%Z
                  ∧ t_delay t = (24 * hour - (clock st - now))%Z)
          ∧ (∀ h' d', pending st' (item_id data) h' d' →
                      h' = next_handle st
                      ∧ d' = (24 * hour - (clock st - now))%Z)
          ∧ (clock st = now →
               pending st' (item_id data) (next_handle st) (24 * hour)%Z))
  ∧ ∀ p, p ≠ granted →
      createItem parseDate toISOString insert_revision_item p title now items st
      = Some (data, data :: items, st).
Proof.
  intros R Hins Hnext Hne Hparse [Hlo Hhi].
  pose proof (reachable_coherent parseDate st R) as C.
  assert (getTime parseDate (next_review data)
          = Some (now + 24 * 60 * 60 * 1000)%Z) as Ht.
  { rewrite Hnext. unfold getTime. by rewrite bool_decide_eq_false_2. }
  unfold createItem. rewrite Hins. split.
  - eexists. split; [reflexivity|]. simpl.
    rewrite (scheduleRevisionReminder_definite parseDate _ _ _ _ _ _ Ht).
    replace (now + 24 * 60 * 60 * 1000 - clock st)%Z
      with (24 * hour - (clock st - now))%Z by (unfold hour; lia).
    rewrite horizon_week.
    rewrite (proj2 (Z.leb_gt _ _)) by lia.
    rewrite (proj2 (Z.leb_le _ _)) by (unfold day; lia).
    destruct (scheduleNotification_replaces (item_id data) reminder_title
                ("📚 Time to review: " +:+ dquote +:+ item_title data +:+ dquote)
                (24 * hour - (clock st - now))%Z
                (Some (LogClicked (item_id data))) st C)
      as (Hreg & Hp & Huniq & _ & Hclock & _).
    split; [by rewrite scheduleNotification_granted|].
    split; [exact Hclock|].
    split; [exact Hreg|].
    split.
    { rewrite scheduleNotification_granted. cbn [timeouts].
      rewrite lookup_insert_eq. eexists. split; [reflexivity|].
      cbn [t_action t_due t_delay action_id].
      split; [reflexivity|]. split; [|reflexivity].
      rewrite host_delay_in_range by (unfold hour in *; lia). lia. }
    split; [exact Huniq|].
    intros Hnow.
    assert (24 * hour - (clock st - now) = 24 * hour)%Z as Hd by lia.
    rewrite Hd in Hp. rewrite Hd. exact Hp.
  - intros p Hp. by rewrite (bool_decide_eq_false_2 (p = granted)) by done.
Qed.

(** X14. The reminder delay the creation form collects has no effect.
    [handleSubmit] passes it to [scheduleRevisionReminder] in the place of
    the title, with no date, so that call changes nothing: the outcome of
    [handleSubmit] is the same for every delay, and the component's own
    notification state is never changed by it. *)
Theorem handleSubmit_ignores_custom_delay (parseDate : string → number)
    (toISOString : Z → string)
    (insert_revision_item : string → string → Z → option RevisionItem)
    (permItems permOwn : NotificationPermission) (title : string)
    (delay1 delay2 now : Z) (items : list RevisionItem) (stItems stOwn : state) :
  handleSubmit parseDate toISOString insert_revision_item permItems permOwn
    title delay1 now items stItems stOwn
  = handleSubmit parseDate toISOString insert_revision_item permItems permOwn
      title delay2 now items stItems stOwn
  ∧ ∀ items' stItems' stOwn',
      handleSubmit parseDate toISOString insert_revision_item permItems permOwn
        title delay1 now items stItems stOwn = Some (items', stItems', stOwn') →
      stOwn' = stOwn
      ∧ ∃ data, createItem parseDate toISOString insert_revision_item permItems
                  title now items stItems = Some (data, items', stItems').
Proof.
  unfold handleSubmit.
  destruct (createItem parseDate toISOString insert_revision_item permItems
              title now items stItems) as [[[data items1] st1]|]; [|by split].
  rewrite !(scheduleRevisionReminder_NaN parseDate permOwn title _ JUndefined stOwn)
    by reflexivity.
  split; [done|]. intros items' stItems' stOwn' [= <- <- <-].
  split; [by destruct (bool_decide _) | by exists data].
Qed.

(** X15. [updateItem] touches the notification state only when the update
    carries a next-review value and permission is granted.  In that case
    the reminder is rescheduled from the row the database returns: for a
    date within the horizon the item's old timer is cleared and exactly
    one new timer is pending, with the new delay.  The list keeps its
    length. *)
Theorem updateItem_reschedules_only_on_date (parseDate : string → number)
    (Updates : Type) (updates_next_review : Updates → jsval)
    (update_revision_item : string → Updates → option RevisionItem)
    (id : string) (updates : Updates) (data : RevisionItem)
    (items : list RevisionItem) (st : state) :
  reachable parseDate st →
  update_revision_item id updates = Some data →
  let items' := (λ item, if String.eqb (item_id item) id then data else item) <$> items in
  length items' = length items
  ∧ (truthy (updates_next_review updates) = false →
       ∀ p, updateItem parseDate Updates updates_next_review update_revision_item
              p id updates items st = Some (data, items', st))
  ∧ (∀ p, p ≠ granted →
       updateItem parseDate Updates updates_next_review update_revision_item
         p id updates items st = Some (data, items', st))
  ∧ (truthy (updates_next_review updates) = true →
     ∀ t, getTime parseDate (next_review data) = Some t →
       (0 < t - clock st ≤ 7 * day)%Z →
       ∃ st', updateItem parseDate Updates updates_next_review update_revision_item
                granted id updates items st = Some (data, items', st')
              ∧ pending st' (item_id data) (next_handle st) (t - clock st)
              ∧ (∀ h' d', pending st' (item_id data) h' d' →
                   h' = next_handle st ∧ d' = (t - clock st)%Z)
              ∧ ∀ h0, notificationTimeoutsRef st !! item_id data = Some h0 →
                      timeouts st' !! h0 = None).
Proof.
  intros R Hupd. cbv zeta. pose proof (reachable_coherent parseDate st R) as C.
  unfold updateItem. rewrite Hupd.
  split; [apply length_fmap|]. split; [|split].
  - intros Hfalse p. by rewrite Hfalse.
  - intros p Hp. rewrite (bool_decide_eq_false_2 (p = granted)) by done.
    by rewrite andb_false_r.
  - intros Htrue t Ht Hwin. rewrite Htrue. simpl. eexists. split; [reflexivity|].
    rewrite (scheduleRevisionReminder_definite parseDate _ _ _ _ _ _ Ht).
    rewrite horizon_week.
    rewrite (proj2 (Z.leb_gt _ _)) by lia. rewrite (proj2 (Z.leb_le _ _)) by lia.
    destruct (scheduleNotification_replaces (item_id data) reminder_title
                ("📚 Time to review: " +:+ dquote +:+ item_title data +:+ dquote)
                (t - clock st) (Some (LogClicked (item_id data))) st C)
      as (_ & Hp & Huniq & Hold & _).
    split; [exact Hp|]. split; [exact Huniq|].
    intros h0 H0. by destruct (Hold h0 H0).
Qed.

(** ** The schedule list *)

(** X16. [updateSchedule] and [markAsCompleted] keep the length of the
    list; an id that no schedule has leaves the list as it is; when the
    stored row keeps its id, the ids of the list and their order do not
    change. *)
Theorem updateSchedule_replaces_by_id (id : string) (data : Schedule)
    (prev : list Schedule) :
  length (updateSchedule id data prev) = length prev
  ∧ ((∀ item, item ∈ prev → s_id item ≠ id) → updateSchedule id data prev = prev)
  ∧ (s_id data = id → s_id <$> updateSchedule id data prev = s_id <$> prev)
  ∧ (∀ item, item ∈ updateSchedule id data prev → item = data ∨ s_id item ≠ id).
Proof.
  unfold updateSchedule. split; [apply length_fmap|]. split; [|split].
  - intros Hids. induction prev as [|x prev IH]; [done|]. rewrite fmap_cons.
    rewrite IH by (intros item Hin; apply Hids; by apply list_elem_of_further).
    rewrite (proj2 (String.eqb_neq _ _)); [done|].
    apply Hids, list_elem_of_here.
  - intros Hid. rewrite <- list_fmap_compose. apply list_fmap_ext.
    intros k x _. simpl. destruct (String.eqb_spec (s_id x) id); congruence.
  - intros item Hin. apply list_elem_of_fmap in Hin as (x & -> & Hx).
    destruct (String.eqb_spec (s_id x) id); auto.
Qed.

(** X17. [deleteSchedule] removes every schedule with the id and keeps the
    others in order; an id that no schedule has leaves the list as it is;
    deleting the schedule that [createSchedule] just appended, when its id
    is new, gives back the list as it was. *)
Theorem deleteSchedule_removes_by_id (id : string) (data : Schedule)
    (prev : list Schedule) :
  (∀ item, item ∈ deleteSchedule id prev ↔ item ∈ prev ∧ s_id item ≠ id)
  ∧ ((∀ item, item ∈ prev → s_id item ≠ id) → deleteSchedule id prev = prev)
  ∧ (s_id data = id → (∀ item, item ∈ prev → s_id item ≠ id) →
       deleteSchedule id (createSchedule data prev) = prev)
  ∧ deleteSchedule id (deleteSchedule id prev) = deleteSchedule id prev.
Proof.
  assert (∀ l, (∀ item, item ∈ l → s_id item ≠ id) → deleteSchedule id l = l) as Hid.
  { unfold deleteSchedule. induction l as [|x l IH]; intros Hids; simpl; [done|].
    rewrite (proj2 (String.eqb_neq _ _)) by apply Hids, list_elem_of_here.
    simpl. rewrite IH; [done|]. intros item Hin. by apply Hids, list_elem_of_further. }
  assert (∀ item, item ∈ deleteSchedule id prev ↔ item ∈ prev ∧ s_id item ≠ id) as Hin.
  { intros item. unfold deleteSchedule.
    rewrite !list_elem_of_In, filter_In, negb_true_iff, String.eqb_neq. done. }
  split; [exact Hin|]. split; [apply Hid|]. split.
  - intros Hd Hids. unfold deleteSchedule, createSchedule.
    rewrite List.filter_app. simpl.
    rewrite (proj2 (String.eqb_eq _ _)) by done. simpl. rewrite app_nil_r.
    by apply Hid.
  - apply Hid. intros item Hi. by apply Hin in Hi as [_ ?].
Qed.

(** X18. Completing a session takes it off today's pending list: when
    [markAsCompleted] stores the row the database returns, with the same
    id and marked completed, [getTodaySchedules] afterwards is the former
    list without the schedules of that id. *)
Theorem completed_leaves_today (today id : string) (data : Schedule)
    (schedules : list Schedule) :
  s_id data = id → s_completed data = true →
  getTodaySchedules today (updateSchedule id data schedules)
  = deleteSchedule id (getTodaySchedules today schedules)
  ∧ ∀ s, s ∈ getTodaySchedules today (updateSchedule id data schedules) → s_id s ≠ id.
Proof.
  intros Hid Hdone.
  assert (getTodaySchedules today (updateSchedule id data schedules)
          = deleteSchedule id (getTodaySchedules today schedules)) as Heq.
  { unfold getTodaySchedules, updateSchedule, deleteSchedule.
    induction schedules as [|x l IH]; [done|].
    rewrite fmap_cons. cbn [List.filter]. rewrite IH.
    destruct (String.eqb_spec (s_id x) id) as [Hx|Hx].
    - rewrite Hdone, andb_false_r.
      destruct (String.eqb (s_date x) today && negb (s_completed x));
        cbn [List.filter]; [|done].
      by rewrite (proj2 (String.eqb_eq _ _)) by done.
    - destruct (String.eqb (s_date x) today && negb (s_completed x));
        cbn [List.filter]; [|done].
      by rewrite (proj2 (String.eqb_neq _ _)) by done. }
  split; [exact Heq|]. intros s. rewrite Heq. unfold deleteSchedule.
  rewrite list_elem_of_In, filter_In, negb_true_iff, String.eqb_neq. by intros [_ ?].
Qed.

(** ** The countdown *)

Lemma pomodoro_run_inactive (k : nat) (t : pomodoro) :
  active t = false → pomodoro_run k t = (t, 0).
Proof.
  intros Ha. induction k as [|k IH]; simpl; [done|].
  unfold pomodoro_second. rewrite Ha. by rewrite IH.
Qed.

Lemma pomodoro_run_S (n : nat) (t : pomodoro) :
  pomodoro_run (S n) t =
  ((pomodoro_run n (pomodoro_second t).1).1,
   (if (pomodoro_second t).2 then 1 else 0) + (pomodoro_run n (pomodoro_second t).1).2).
Proof.
  cbn [pomodoro_run]. destruct (pomodoro_second t) as [t' toast]. cbn [fst snd].
  destruct (pomodoro_run n t') as [t'' toasts]. reflexivity.
Qed.

Lemma pomodoro_second_down (t : pomodoro) :
  well_formed t → active t = true → (0 < remaining t)%Z →
  remaining (pomodoro_second t).1 = (remaining t - 1)%Z
  ∧ well_formed (pomodoro_second t).1
  ∧ active (pomodoro_second t).1 = true
  ∧ (pomodoro_second t).2 = false.
Proof.
  unfold well_formed, remaining, pomodoro_second, pomodoro_tick.
  intros (Hm & Hs0 & Hs59) Ha Hrem. rewrite Ha.
  destruct (Z.ltb_spec 0 (seconds t)); simpl.
  - split; [lia|]. split; [lia|]. by split.
  - destruct (Z.ltb_spec 0 (minutes t)); simpl.
    + split; [lia|]. split; [lia|]. by split.
    + lia.
Qed.

(** X19. While the countdown is active and shows time left, each second
    takes exactly one second off it: seconds run from 59 down to 0 within
    a minute, the display stays well formed, the countdown stays active
    and no toast is issued.  A paused countdown does not move, and the
    play and pause button does not change the time shown. *)
Theorem pomodoro_counts_down (t : pomodoro) :
  well_formed t → active t = true → (0 < remaining t)%Z →
  remaining (pomodoro_second t).1 = (remaining t - 1)%Z
  ∧ well_formed (pomodoro_second t).1
  ∧ active (pomodoro_second t).1 = true
  ∧ (pomodoro_second t).2 = false
  ∧ (∀ k, pomodoro_run k (pomodoro_toggle t) = (pomodoro_toggle t, 0))
  ∧ remaining (pomodoro_toggle t) = remaining t
  ∧ pomodoro_toggle (pomodoro_toggle t) = t.
Proof.
  intros Hwf Ha Hrem.
  destruct (pomodoro_second_down t Hwf Ha Hrem) as (H1 & H2 & H3 & H4).
  split; [exact H1|]. split; [exact H2|]. split; [exact H3|]. split; [exact H4|].
  split; [|split; [done|]].
  - intros k. apply pomodoro_run_inactive. simpl. by rewrite Ha.
  - by destruct t as [[] m s].
Qed.

(** X20. A countdown that is active and shows [n] seconds reaches 00:00
    after exactly [n] seconds, with no toast on the way.  The completion
    toast comes with the next second, which also stops the countdown and
    puts it back to 25:00; after that nothing moves and no further toast
    is issued until it is started again. *)
Theorem pomodoro_completes (n : nat) (t : pomodoro) :
  well_formed t → active t = true → remaining t = Z.of_nat n →
  pomodoro_run n t = ({| active := true; minutes := 0; seconds := 0 |}, 0)
  ∧ pomodoro_run (S n) t = ({| active := false; minutes := 25; seconds := 0 |}, 1)
  ∧ ∀ k, pomodoro_run (S n + k) t
         = ({| active := false; minutes := 25; seconds := 0 |}, 1).
Proof.
  revert t. induction n as [|n IH]; intros t Hwf Ha Hrem.
  - assert (t = {| active := true; minutes := 0; seconds := 0 |}) as ->.
    { destruct t as [a m s]. unfold well_formed, remaining in *. simpl in *.
      f_equal; [done | lia | lia]. }
    split; [done|]. split; [done|]. intros k. rewrite pomodoro_run_S. simpl.
    by rewrite pomodoro_run_inactive.
  - destruct (pomodoro_second_down t Hwf Ha) as (H1 & H2 & H3 & H4); [lia|].
    destruct (IH (pomodoro_second t).1 H2 H3) as (IH1 & IH2 & IH3); [lia|].
    split; [|split].
    + by rewrite pomodoro_run_S, H4, IH1.
    + by rewrite pomodoro_run_S, H4, IH2.
    + intros k. change (S (S n) + k) with (S (S n + k)).
      by rewrite pomodoro_run_S, H4, IH3.
Qed.

(** ** Scheduling one reminder *)

(** X21. [scheduleNotification] with permission granted raises the count
    by one for an id that has no reminder and leaves it as it is for an id
    that has one; the pending reminders of every other item, the
    notifications shown and the sweeper are not touched. *)
Theorem scheduleNotification_count_and_frame (parseDate : string → number)
    (id title body : string) (delay : Z) (onClick : option handler) (st : state) :
  reachable parseDate st →
  let st' := scheduleNotification granted id title body delay onClick st in
  getScheduledCount st'
  = match notificationTimeoutsRef st !! id with
    | Some _ => getScheduledCount st
    | None => S (getScheduledCount st)
    end
  ∧ (∀ id' h d, id' ≠ id → (pending st' id' h d ↔ pending st id' h d))
  ∧ shown st' = shown st ∧ intervals st' = intervals st
  ∧ checkIntervalRef st' = checkIntervalRef st.
Proof.
  intros R. cbv zeta. pose proof (reachable_coherent parseDate st R) as C.
  rewrite scheduleNotification_granted. unfold getScheduledCount, pending. simpl.
  split; [|split; [|done]].
  - destruct (notificationTimeoutsRef st !! id) as [h0|] eqn:E.
    + apply map_size_insert_Some. eauto.
    + by apply map_size_insert_None.
  - intros id' h d Hne. split.
    + intros (t & Ht & Ha & Hd).
      destruct (decide (h = next_handle st)) as [->|Hh].
      * rewrite lookup_insert_eq in Ht. injection Ht as <-. simpl in Ha. congruence.
      * rewrite lookup_insert_ne in Ht by done.
        apply without_existing_lookup in Ht as [Ht _]. eauto.
    + intros (t & Ht & Ha & Hd). exists t. split; [|done].
      pose proof (coh_fresh_timeouts _ C h (ex_intro _ t Ht)).
      rewrite lookup_insert_ne by lia. rewrite without_existing_other; [done|].
      intros H'. destruct (coh_registered _ C id h H') as (t' & Ht' & Ha').
      congruence.
Qed.

(** X22. The earlier copy of the items effect starts the sweep and then
    checks for overdue items again: with permission granted every overdue
    item is alerted twice, with the same alert. *)
Theorem legacyItemsEffect_alerts_twice (parseDate : string → number)
    (items : list RevisionItem) (st : state) :
  hasNotification st = true → items ≠ [] →
  let alerts := overdue_alert <$> List.filter (isOverdue parseDate (clock st)) items in
  shown (legacyItemsEffect parseDate granted items st) = shown st ++ alerts ++ alerts.
Proof.
  intros Hn Hne. cbv zeta. unfold legacyItemsEffect.
  destruct items as [|x items]; [done|].
  change ((0 <? length (x :: items))%nat && bool_decide (granted = granted)) with true.
  cbv iota.
  destruct (startPeriodicCheck_frame parseDate granted (x :: items) st)
    as (Hs & Hc & Hh & _).
  pose proof (checkOverdueItems_surfaced parseDate granted (x :: items)
                (startPeriodicCheck parseDate granted (x :: items) st)) as E.
  rewrite (em_shown _ _ _ E), Hs, Hc, Hh. unfold surfaced. rewrite Hn. simpl.
  by rewrite <- app_assoc.
Qed.

(** * The further properties on the sample host *)

Lemma sample_registered_reachable : reachable sample_parseDate sample_registered.
Proof.
  apply (reach_step sample_parseDate
           (CallRemind granted "a" "Optics" (JString "2025-09-05T10:00:00.000Z"))
           sample_mounted); [apply reach_init | reflexivity].
Qed.

Lemma sample_due_reachable : reachable sample_parseDate sample_due.
Proof.
  apply (reach_step sample_parseDate (Advance 3600000) sample_registered);
    [apply sample_registered_reachable | reflexivity].
Qed.

(** X1 on the sample host: cancelling the reminder of item ["a"]. *)
Lemma cancelNotification_effect_witness :
  reachable sample_parseDate sample_busy
  ∧ notificationTimeoutsRef sample_busy !! "a" = Some 1%positive
  ∧ getScheduledCount sample_busy = 1
  ∧ S (getScheduledCount (cancelNotification "a" sample_busy)) = 1
  ∧ cancelNotification "zz" sample_busy = sample_busy.
Proof.
  pose proof (cancelNotification_effect sample_parseDate "a" sample_busy
                sample_busy_reachable) as (_ & Hknown & _).
  destruct (Hknown 1%positive eq_refl) as (Hcount & _).
  pose proof (cancelNotification_effect sample_parseDate "zz" sample_busy
                sample_busy_reachable) as (Hunknown & _).
  split; [exact sample_busy_reachable|]. split; [reflexivity|]. split; [reflexivity|].
  split; [exact Hcount | by apply Hunknown].
Defined.

(** X2 on the sample host. *)
Lemma getScheduledCount_counts_pending_timers_witness :
  reachable sample_parseDate sample_busy
  ∧ getScheduledCount sample_busy = size (reminder_timers sample_busy).
Proof.
  split; [exact sample_busy_reachable|].
  apply (getScheduledCount_counts_pending_timers sample_parseDate sample_busy
           sample_busy_reachable).
Defined.

(** X3 for a permission granted on request. *)
Lemma permission_granted_needs_capability_witness :
  hook_permission true (requestPermission true granted default_perm).2
  ∧ ((requestPermission true granted default_perm).2 = granted → true = true).
Proof.
  assert (hook_permission true (requestPermission true granted default_perm).2) as H
    by (apply perm_request, perm_initial).
  split; [exact H|].
  apply (permission_granted_needs_capability true _ H).
Defined.

(** X4 on the sample host: the reminder of item ["a"] at its hour. *)
Lemma reminder_timer_fires_witness :
  reachable sample_parseDate sample_due
  ∧ hasNotification sample_due = true
  ∧ notificationTimeoutsRef sample_due !! "a" = Some 1%positive
  ∧ (∃ t title body onClick,
      timeouts sample_due !! 1%positive = Some t
      ∧ t_action t = FireReminder granted "a" title body onClick)
  ∧ ∃ st', run sample_parseDate (TimeoutFires 2%positive)
             (scheduleNotification granted "a" "Optics" "later" 3000000000 None
                sample_due)
           = Some st'.
Proof.
  split; [exact sample_due_reachable|]. split; [reflexivity|]. split; [reflexivity|].
  destruct (reminder_timer_fires sample_parseDate "a" 1%positive sample_due
              sample_due_reachable eq_refl eq_refl)
    as [(t & title & body & onClick & Ht & Ha & _) Hover].
  split; [exists t, title, body, onClick; by split|].
  destruct (Hover "Optics" "later" 3000000000%Z None) as (st' & Hrun & _).
  - split; reflexivity.
  - by exists st'.
Defined.

(** X5 on the sample host. *)
Lemma notification_auto_closes_witness :
  hasNotification sample_mounted = true
  ∧ timeouts (showNotification granted "Revision" "Optics"
                {| o_tag := "a"; o_requireInteraction := None; o_data := None |}
                sample_mounted).2 !! next_handle sample_mounted
    = Some {| t_due := clock sample_mounted + 10000; t_delay := 10000;
              t_action := AutoClose (length (shown sample_mounted)) |}.
Proof.
  split; [reflexivity|].
  apply (notification_auto_closes sample_parseDate "Revision" "Optics"
           {| o_tag := "a"; o_requireInteraction := None; o_data := None |}
           sample_mounted eq_refl).
Defined.

(** X6 on the sample host. *)
Lemma stopAllNotifications_idempotent_witness :
  reachable sample_parseDate sample_busy
  ∧ stopAllNotifications (stopAllNotifications sample_busy)
    = stopAllNotifications sample_busy.
Proof.
  split; [exact sample_busy_reachable|].
  apply (stopAllNotifications_idempotent sample_parseDate sample_busy
           sample_busy_reachable).
Defined.

(** X7 on the sample host: the sweeper of the busy hook at its first
    tick. *)
Lemma sweeper_renotifies_witness :
  intervals sample_sweep_due !! 3%positive
  = Some {| i_next := sample_now + 300000; i_period := 300000;
            i_perm := granted; i_items := [sample_overdue_item] |}
  ∧ isOverdue sample_parseDate sample_now sample_overdue_item = true
  ∧ ∃ (s' : state) (ns : list Notification),
      run sample_parseDate (IntervalTicks 3%positive) sample_sweep_due = Some s'
      ∧ overdue_alert sample_overdue_item ∈ ns.
Proof.
  split; [reflexivity|]. split; [reflexivity|].
  destruct (sweeper_renotifies sample_parseDate 3%positive
              {| i_next := sample_now + 300000; i_period := 300000;
                 i_perm := granted; i_items := [sample_overdue_item] |}
              sample_sweep_due sample_overdue_item sample_now
              eq_refl eq_refl eq_refl)
    as (s' & ns & Hrun & _ & Hin & _).
  - vm_compute. discriminate.
  - apply list_elem_of_here.
  - reflexivity.
  - vm_compute. discriminate.
  - exists s', ns. by split.
Defined.

(** X8 on the sample host. *)
Lemma scheduleAllNotifications_effect_witness :
  reachable sample_parseDate sample_mounted
  ∧ hasNotification sample_mounted = true
  ∧ shown (scheduleAllNotifications sample_parseDate granted sample_items sample_mounted)
    = [overdue_reminder "b" "Buffers"].
Proof.
  split; [apply reach_init|]. split; [reflexivity|].
  apply (scheduleAllNotifications_effect sample_parseDate sample_items sample_mounted
           (reach_init _ _ _) eq_refl).
Defined.

(** X9 on the sample host. *)
Lemma itemsEffect_notifies_overdue_twice_witness :
  hasNotification sample_mounted = true ∧ sample_items ≠ []
  ∧ shown (itemsEffect sample_parseDate granted sample_items sample_mounted)
    = [overdue_alert sample_overdue_item; overdue_reminder "b" "Buffers"].
Proof.
  assert (sample_items ≠ []) as Hne by discriminate.
  split; [reflexivity|]. split; [exact Hne|].
  apply (itemsEffect_notifies_overdue_twice sample_parseDate sample_items
           sample_mounted eq_refl Hne).
Defined.

(** X10 on the sample host: item ["a"] is deleted while its reminder is
    pending. *)
Lemma deleteItem_keeps_reminder_witness :
  reachable sample_parseDate sample_registered
  ∧ pending sample_registered "a" 1%positive 3600000
  ∧ deleteItem true "a" sample_items
    = Some [sample_overdue_item; sample_item "n" "Nernst" JNull 0]
  ∧ pending (itemsChanged sample_parseDate true granted
               [sample_overdue_item; sample_item "n" "Nernst" JNull 0]
               sample_registered)
      "a" 1%positive 3600000.
Proof.
  assert (pending sample_registered "a" 1%positive 3600000) as Hp.
  { eexists. split; [reflexivity|]. by split. }
  split; [exact sample_registered_reachable|]. split; [exact Hp|].
  split; [reflexivity|].
  apply (deleteItem_keeps_reminder sample_parseDate true granted "a" 1%positive 3600000
           sample_items [sample_overdue_item; sample_item "n" "Nernst" JNull 0]
           sample_registered sample_registered_reachable Hp eq_refl).
Defined.

(** X11 on the sample host: the user grants permission from a render that
    still has 'default'. *)
Lemma enableNotifications_uses_stale_permission_witness :
  reachable sample_parseDate sample_registered
  ∧ default_perm ≠ granted
  ∧ (enableNotifications sample_parseDate true granted default_perm sample_items
       sample_registered).1 = granted
  ∧ (enableNotifications sample_parseDate true granted default_perm sample_items
       sample_registered).2 = (setTimeout CountToast 1000 sample_registered).2
  ∧ getScheduledCount
      (enableNotifications sample_parseDate true granted default_perm sample_items
         sample_registered).2 = 1.
Proof.
  assert (default_perm ≠ granted) as Hp by discriminate.
  split; [exact sample_registered_reachable|]. split; [exact Hp|].
  destruct (enableNotifications_uses_stale_permission sample_parseDate true granted
              default_perm sample_items sample_registered
              sample_registered_reachable Hp)
    as (H1 & _ & Hreg & _ & _ & _ & _ & _ & Htoast & _).
  split; [exact H1|].
  split; [exact (proj1 (Htoast eq_refl eq_refl))|].
  unfold getScheduledCount. rewrite Hreg. reflexivity.
Defined.

(** X13 on the sample host. *)
Lemma createItem_schedules_a_day_witness :
  reachable sample_parseDate (set_clock (sample_now + 250) sample_mounted)
  ∧ ∃ st', createItem sample_parseDate sample_toISOString sample_insert_revision_item
             granted "Optics" sample_now [] (set_clock (sample_now + 250) sample_mounted)
           = Some (sample_item "new" "Optics" (JString "2025-09-06T09:00:00.000Z") 0,
                   [sample_item "new" "Optics" (JString "2025-09-06T09:00:00.000Z") 0],
                   st')
           ∧ ∃ t, timeouts st' !! 1%positive = Some t
                  ∧ t_due t = (sample_now + 86400000)%Z
                  ∧ t_delay t = 86399750%Z.
Proof.
  assert (reachable sample_parseDate (set_clock (sample_now + 250) sample_mounted))
    as R.
  { apply (reach_step sample_parseDate (Advance 250) sample_mounted);
      [apply reach_init | reflexivity]. }
  split; [exact R|].
  destruct (createItem_schedules_a_day sample_parseDate sample_toISOString
              sample_insert_revision_item "Optics" sample_now []
              (sample_item "new" "Optics" (JString "2025-09-06T09:00:00.000Z") 0)
              (set_clock (sample_now + 250) sample_mounted) R eq_refl eq_refl)
    as [(st' & Heq & _ & _ & _ & (t & Ht & _ & Hdue & Hdelay) & _) _].
  - vm_compute. discriminate.
  - reflexivity.
  - vm_compute. split; [discriminate | reflexivity].
  - exists st'. split; [exact Heq|]. exists t. split; [exact Ht|].
    split; [exact Hdue | exact Hdelay].
Defined.

(** X15 on the sample host: the date of item ["a"] moves from 10:00 to
    11:00. *)
Lemma updateItem_reschedules_only_on_date_witness :
  reachable sample_parseDate sample_registered
  ∧ sample_update_revision_item "a" (JString "2025-09-05T11:00:00.000Z")
    = Some (sample_item "a" "Optics" (JString "2025-09-05T11:00:00.000Z") 1)
  ∧ ∃ st', pending st' "a" 2%positive 7200000 ∧ timeouts st' !! 1%positive = None.
Proof.
  split; [exact sample_registered_reachable|]. split; [reflexivity|].
  destruct (updateItem_reschedules_only_on_date sample_parseDate jsval (λ u, u)
              sample_update_revision_item "a" (JString "2025-09-05T11:00:00.000Z")
              (sample_item "a" "Optics" (JString "2025-09-05T11:00:00.000Z") 1)
              sample_items sample_registered sample_registered_reachable eq_refl)
    as (_ & _ & _ & H).
  destruct (H eq_refl 1757070000000%Z eq_refl) as (st' & _ & Hp & _ & Hold).
  - vm_compute. split; [reflexivity | discriminate].
  - exists st'. split; [exact Hp|]. by apply Hold.
Defined.

(** X18 on the sample schedules: session ["s1"] is completed. *)
Lemma completed_leaves_today_witness :
  s_id (sample_schedule "s1" "Kinematics" true) = "s1"
  ∧ s_completed (sample_schedule "s1" "Kinematics" true) = true
  ∧ getTodaySchedules "2025-09-05"
      (updateSchedule "s1" (sample_schedule "s1" "Kinematics" true) sample_schedules)
    = [sample_schedule "s2" "Thermodynamics" false].
Proof.
  split; [reflexivity|]. split; [reflexivity|].
  destruct (completed_leaves_today "2025-09-05" "s1"
              (sample_schedule "s1" "Kinematics" true) sample_schedules
              eq_refl eq_refl) as [H _].
  exact H.
Defined.

(** X19 at 25:00, running. *)
Lemma pomodoro_counts_down_witness :
  well_formed {| active := true; minutes := 25; seconds := 0 |}
  ∧ (pomodoro_second {| active := true; minutes := 25; seconds := 0 |}).1
    = {| active := true; minutes := 24; seconds := 59 |}
  ∧ remaining (pomodoro_second {| active := true; minutes := 25; seconds := 0 |}).1
    = (remaining {| active := true; minutes := 25; seconds := 0 |} - 1)%Z.
Proof.
  assert (well_formed {| active := true; minutes := 25; seconds := 0 |}) as Hwf
    by (unfold well_formed; simpl; lia).
  split; [exact Hwf|]. split; [reflexivity|].
  apply (pomodoro_counts_down _ Hwf eq_refl). reflexivity.
Defined.

(** X20 for a countdown showing 00:03. *)
Lemma pomodoro_completes_witness :
  well_formed {| active := true; minutes := 0; seconds := 3 |}
  ∧ pomodoro_run 4 {| active := true; minutes := 0; seconds := 3 |}
    = ({| active := false; minutes := 25; seconds := 0 |}, 1).
Proof.
  assert (well_formed {| active := true; minutes := 0; seconds := 3 |}) as Hwf
    by (unfold well_formed; simpl; lia).
  split; [exact Hwf|].
  apply (pomodoro_completes 3 _ Hwf eq_refl eq_refl).
Defined.

(** X21 on the sample host: a second reminder for item ["a"]. *)
Lemma scheduleNotification_count_and_frame_witness :
  reachable sample_parseDate sample_registered
  ∧ getScheduledCount
      (scheduleNotification granted "a" "Revision" "Optics" 5000 None sample_registered)
    = getScheduledCount sample_registered.
Proof.
  split; [exact sample_registered_reachable|].
  apply (scheduleNotification_count_and_frame sample_parseDate "a" "Revision" "Optics"
           5000 None sample_registered sample_registered_reachable).
Defined.

(** X22 on the sample host. *)
Lemma legacyItemsEffect_alerts_twice_witness :
  hasNotification sample_mounted = true ∧ sample_items ≠ []
  ∧ shown (legacyItemsEffect sample_parseDate granted sample_items sample_mounted)
    = [overdue_alert sample_overdue_item; overdue_alert sample_overdue_item].
Proof.
  assert (sample_items ≠ []) as Hne by discriminate.
  split; [reflexivity|]. split; [exact Hne|].
  apply (legacyItemsEffect_alerts_twice sample_parseDate sample_items
           sample_mounted eq_refl Hne).
Defined.
